(** * Veles: launcher, worker pool, device manager and the network contract test

    A shallow embedding of [veles/thread_pool.py], [veles/launcher.py],
    [veles/opencl.py] and [veles/tests/network.py], with the properties of
    the specification stated over it.

    Conventions of the embedding:
    - Python [str] values are [string]s of 8-bit characters;
    - Python [float] is IEEE binary64, i.e. Rocq's primitive [float];
    - a Python exception is a value of [exn]; code that may raise returns a
      [result];
    - objects that are mutated and shared (pools, the class attributes of
      [ThreadPool], the launcher) live in an explicit state record that the
      functions take and return. *)

From Stdlib Require Import String Ascii List ZArith Bool Lia.
From Stdlib Require Import DecimalString DecimalZ DecimalFacts PrimFloat.
From stdpp Require Import gmap strings list fin_maps.

Set Warnings "-register-all".

Local Open Scope string_scope.
Local Open Scope list_scope.

(* ===================================================================== *)
(** * Python prelude *)
(* ===================================================================== *)

Module Py.

(** The exceptions that occur in the modelled code. *)
Inductive exn : Type :=
| RuntimeError (msg : string)
| ValueError
| KeyError (key : string)
| ZeroDivisionError
| AssertionError
| AttributeError
| IndexError
| IOError
| UnpicklingError
| TypeError
| RecursionError
| SystemExit (code : Z).

(** A computation that returns a value or raises. *)
Inductive result (A : Type) : Type :=
| Ok (a : A)
| Raise (e : exn).
Arguments Ok {A} a.
Arguments Raise {A} e.

#[export] Instance result_ret : MRet result := fun _ a => Ok a.
#[export] Instance result_bind : MBind result := fun _ _ f c =>
  match c with
  | Ok a => f a
  | Raise e => Raise e
  end.

Definition is_ok {A} (r : result A) : bool :=
  match r with Ok _ => true | Raise _ => false end.

(** [d[k]] on a dictionary: [KeyError] when the key is missing. *)
Definition getitem {V} (d : gmap string V) (k : string) : result V :=
  match d !! k with
  | Some v => Ok v
  | None => Raise (KeyError k)
  end.

(** Truth value of a [str]: non-empty. *)
Definition truthy (s : string) : bool :=
  match s with
  | EmptyString => false
  | String _ _ => true
  end.

(** [str.isspace] on the code points below 128. *)
Definition is_space (c : ascii) : bool :=
  let n := nat_of_ascii c in
  ((9 <=? n)%nat && (n <=? 13)%nat) || ((28 <=? n)%nat && (n <=? 32)%nat).

Fixpoint lstrip (s : string) : string :=
  match s with
  | EmptyString => EmptyString
  | String c r => if is_space c then lstrip r else s
  end.

Fixpoint rstrip (s : string) : string :=
  match s with
  | EmptyString => EmptyString
  | String c r =>
      match rstrip r with
      | EmptyString => if is_space c then EmptyString else String c EmptyString
      | r' => String c r'
      end
  end.

(** [s.strip()] *)
Definition strip (s : string) : string := rstrip (lstrip s).

(** [s.split(sep)] for a one-character separator: never an empty list. *)
Fixpoint split (sep : ascii) (s : string) : list string :=
  match s with
  | EmptyString => [EmptyString]
  | String c r =>
      if Ascii.eqb c sep then EmptyString :: split sep r
      else match split sep r with
           | p :: ps => String c p :: ps
           | [] => [String c EmptyString]
           end
  end.

(** [sep.join(l)] *)
Fixpoint join (sep : string) (l : list string) : string :=
  match l with
  | [] => EmptyString
  | [x] => x
  | x :: r => x +:+ sep +:+ join sep r
  end.

(** [s.index(c)]: position of the first [c], [ValueError] without one. *)
Fixpoint index (c : ascii) (s : string) : result nat :=
  match s with
  | EmptyString => Raise ValueError
  | String a r => if Ascii.eqb a c then Ok 0%nat else n ← index c r; Ok (S n)
  end.

(** [s[0:n]] and [s[n:]] *)
Fixpoint take_str (n : nat) (s : string) : string :=
  match n, s with
  | S n', String c r => String c (take_str n' r)
  | _, _ => EmptyString
  end.

Fixpoint drop_str (n : nat) (s : string) : string :=
  match n, s with
  | S n', String _ r => drop_str n' r
  | _, _ => s
  end.

(** Digits of [int(s)] once blanks and sign are off: at least one digit. *)
Definition digits_value (s : string) : result Z :=
  match s with
  | EmptyString => Raise ValueError
  | _ => match NilEmpty.uint_of_string s with
         | Some u => Ok (Z.of_uint u)
         | None => Raise ValueError
         end
  end.

(** [int(s)]: surrounding blanks, an optional sign, decimal digits. *)
Definition int (s : string) : result Z :=
  match strip s with
  | String "-" r => z ← digits_value r; Ok (- z)%Z
  | String "+" r => digits_value r
  | r => digits_value r
  end.

(** ["%d" % z] *)
Definition fmt_d (z : Z) : string := NilZero.string_of_int (Z.to_int z).

(** [range(a, b)] as a list. *)
Definition range (a b : Z) : list Z :=
  (fun i => (a + Z.of_nat i)%Z) <$> seq 0 (Z.to_nat (b - a)).

End Py.
Import Py.

(* ===================================================================== *)
(** * veles/thread_pool.py *)
(* ===================================================================== *)

Module ThreadPool.

Definition pool_id : Type := nat.
Definition thread_id : Type := (nat * nat)%type.

(** What the task queue holds: a task, or [threadpool.WorkerStop]. *)
Inductive item : Type :=
| Task (t : nat)
| WorkerStop.

(** The values [sys.exit] and [ThreadPool.sysexit_initial] take. *)
Inductive exit_fn : Type :=
| exit_None
| builtin_exit
| ThreadPool_exit.

(** The values the SIGINT handler and [ThreadPool.sigint_initial] take. *)
Inductive sigint_fn : Type :=
| sigint_None
| handler_before (n : nat)
| ThreadPool_sigint_handler.

Section Pool.

(** [C]: the functions given to [register_on_shutdown];
    [E]: the rest of the program's state, on which they may act. *)
Context {C E : Type}.

(** What the pool does that another thread or the operating system sees. *)
Inductive event : Type :=
| HooksInstalled
| ShutdownerRun (p : pool_id) (cb : C)
| StopSent (p : pool_id) (front : bool)
| Joined (p : pool_id) (t : thread_id) (force : bool)
| Destroyed (p : pool_id)
| SigintChained (n : nat).

(** One [ThreadPool] object. [q] is [self.q.queue], leftmost first;
    [front_put] tells that [self.q._put] was rebound to [ThreadPool._put];
    [q_maxsize] is [queue_size] (0: unbounded). *)
Record Pool : Type := mkPool {
  q : list item;
  q_maxsize : nat;
  front_put : bool;
  workers : nat;
  threads : list thread_id;
  on_shutdowns : list C;
  shutting_down : bool;
  joined : bool
}.

(** The process: [sys.exit], the SIGINT handler, the class attributes of
    [ThreadPool], the pool objects by identity, and the events so far. *)
Record Process : Type := mkProcess {
  sys_exit : exit_fn;
  sigint : sigint_fn;
  sysexit_initial : exit_fn;
  sigint_initial : sigint_fn;
  pools : list pool_id;
  heap : gmap pool_id Pool;
  next_pool : pool_id;
  log : list event;
  ext : E
}.

(** How a call ends: it returns, it raises, or the calling thread blocks
    for good (a lock it holds itself, a full queue nobody empties). *)
Inductive outcome : Type :=
| Done (w : Process)
| Raised (e : exn) (w : Process)
| Blocked (w : Process).

Definition state_of (o : outcome) : Process :=
  match o with
  | Done w | Raised _ w | Blocked w => w
  end.

Definition and_then (o : outcome) (k : Process -> outcome) : outcome :=
  match o with
  | Done w => k w
  | r => r
  end.

Definition set_heap (h : gmap pool_id Pool) (w : Process) : Process :=
  mkProcess (sys_exit w) (sigint w) (sysexit_initial w) (sigint_initial w)
            (pools w) h (next_pool w) (log w) (ext w).

Definition set_pools (l : list pool_id) (w : Process) : Process :=
  mkProcess (sys_exit w) (sigint w) (sysexit_initial w) (sigint_initial w)
            l (heap w) (next_pool w) (log w) (ext w).

Definition set_ext (e : E) (w : Process) : Process :=
  mkProcess (sys_exit w) (sigint w) (sysexit_initial w) (sigint_initial w)
            (pools w) (heap w) (next_pool w) (log w) e.

Definition add_log (ev : event) (w : Process) : Process :=
  mkProcess (sys_exit w) (sigint w) (sysexit_initial w) (sigint_initial w)
            (pools w) (heap w) (next_pool w) (log w ++ [ev]) (ext w).

Definition set_pool (pid : pool_id) (p : Pool) (w : Process) : Process :=
  set_heap (<[pid := p]> (heap w)) w.

Definition set_q (l : list item) (p : Pool) : Pool :=
  mkPool l (q_maxsize p) (front_put p) (workers p) (threads p)
         (on_shutdowns p) (shutting_down p) (joined p).

Definition set_front_put (b : bool) (p : Pool) : Pool :=
  mkPool (q p) (q_maxsize p) b (workers p) (threads p)
         (on_shutdowns p) (shutting_down p) (joined p).

Definition set_workers (n : nat) (p : Pool) : Pool :=
  mkPool (q p) (q_maxsize p) (front_put p) n (threads p)
         (on_shutdowns p) (shutting_down p) (joined p).

Definition set_on_shutdowns (l : list C) (p : Pool) : Pool :=
  mkPool (q p) (q_maxsize p) (front_put p) (workers p) (threads p)
         l (shutting_down p) (joined p).

Definition set_shutting_down (b : bool) (p : Pool) : Pool :=
  mkPool (q p) (q_maxsize p) (front_put p) (workers p) (threads p)
         (on_shutdowns p) b (joined p).

Definition set_joined (b : bool) (p : Pool) : Pool :=
  mkPool (q p) (q_maxsize p) (front_put p) (workers p) (threads p)
         (on_shutdowns p) (shutting_down p) b.

(** Lines 48-52: the process-wide hooks, each keeping what was there. *)
Definition install_hooks (w : Process) : Process :=
  add_log HooksInstalled
    (mkProcess ThreadPool_exit ThreadPool_sigint_handler
               (sys_exit w) (sigint w)
               (pools w) (heap w) (next_pool w) (log w) (ext w)).

(** [ThreadPool.__init__]: the base class starts [minthreads] workers. *)
Definition __init__ (minthreads queue_size : nat) (w : Process)
  : pool_id * Process :=
  let pid := next_pool w in
  let p := mkPool [] queue_size false minthreads
                  ((fun i => (pid, i)) <$> seq 0 minthreads) [] false false in
  let w1 := match pools w with
            | [] => install_hooks w
            | _ :: _ => w
            end in
  (pid,
   mkProcess (sys_exit w1) (sigint w1) (sysexit_initial w1) (sigint_initial w1)
             (pools w1 ++ [pid]) (<[pid := p]> (heap w1)) (S pid)
             (log w1) (ext w1)).

(** [register_on_shutdown] *)
Definition register_on_shutdown (pid : pool_id) (cb : C) (w : Process)
  : Process :=
  set_heap (alter (fun p => set_on_shutdowns (on_shutdowns p ++ [cb]) p)
                  pid (heap w)) w.

(** [Queue.put] with the pool's current [_put]: [None] when the queue is
    full, where the caller waits for a worker to take an item. *)
Definition put (x : item) (p : Pool) : option Pool :=
  if (0 <? q_maxsize p)%nat && (q_maxsize p <=? length (q p))%nat then None
  else Some (set_q (if front_put p then x :: q p else q p ++ [x]) p).

(** [list.remove(x)]: the first occurrence. *)
Fixpoint list_remove (x : pool_id) (l : list pool_id) : list pool_id :=
  match l with
  | [] => []
  | y :: r => if Nat.eqb x y then r else y :: list_remove x r
  end.

Section Calls.

(** What calling a registered function does. *)
Variable call : C -> Process -> outcome.

(** Lines 90-92. [zip] over the live list and [range(sdl)]: at most [sdl]
    calls, the [i]-th on what the list holds at position [i] then. *)
Fixpoint run_shutdowners (pid : pool_id) (sdl i : nat) (w : Process)
  : outcome :=
  match sdl with
  | O => Done w
  | S sdl' =>
      match heap w !! pid ≫= (fun p => on_shutdowns p !! i) with
      | None => Done w
      | Some cb =>
          and_then (call cb (add_log (ShutdownerRun pid cb) w))
                   (run_shutdowners pid sdl' (S i))
      end
  end.

(** Lines 99-101: one stop signal per counted worker. [fuel] is the
    worker count at the start, which the loop counts down. *)
Fixpoint stop_workers (pid : pool_id) (fuel : nat) (w : Process) : outcome :=
  match fuel with
  | O => Done w
  | S fuel' =>
      match heap w !! pid with
      | None => Done w
      | Some p =>
          if (workers p =? 0)%nat then Done w
          else match put WorkerStop p with
               | None => Blocked w
               | Some p' =>
                   stop_workers pid fuel'
                     (add_log (StopSent pid (front_put p))
                        (set_pool pid (set_workers (workers p' - 1) p') w))
               end
      end
  end.

(** Lines 102-117: the joins, as the caller has them once they return.
    An untimed join returns when its worker has left; what the workers
    do is followed by [step] below, not here. Whether a thread outlives
    a timed join only decides a warning and the attempt to kill it. *)
Definition join_threads (pid : pool_id) (ts : list thread_id) (force : bool)
  (w : Process) : Process :=
  fold_left (fun w t => add_log (Joined pid t force) w) ts w.

Definition in_registry (pid : pool_id) (w : Process) : bool :=
  existsb (Nat.eqb pid) (pools w).

(** [ThreadPool.shutdown] *)
Definition shutdown (pid : pool_id) (execute_remaining force : bool)
  (w : Process) : outcome :=
  match heap w !! pid with
  | None => Done w
  | Some p =>
      if negb (in_registry pid w) || shutting_down p then Done w
      else
        let w := set_pool pid (set_shutting_down true p) w in
        let sdl := length (on_shutdowns p) in
        and_then (run_shutdowners pid sdl 0 w) (fun w =>
        match heap w !! pid with
        | None => Done w
        | Some p =>
            let p := set_joined true (set_on_shutdowns [] p) in
            let ts := threads p in
            let p := if execute_remaining then p else set_front_put true p in
            let w := set_pool pid p w in
            and_then (stop_workers pid (workers p) w) (fun w =>
            let w := join_threads pid ts force w in
            let w := set_pools (list_remove pid (pools w)) w in
            let w := add_log (Destroyed pid) w in
            Done (set_heap (alter (set_shutting_down false) pid (heap w)) w))
        end)
  end.

(** [ThreadPool.shutdown_pools]: over a copy of the registry. *)
Fixpoint shutdown_each (l : list pool_id) (execute_remaining force : bool)
  (w : Process) : outcome :=
  match l with
  | [] => Done w
  | pid :: r =>
      and_then (shutdown pid execute_remaining force w)
               (shutdown_each r execute_remaining force)
  end.

Definition shutdown_pools (execute_remaining force : bool) (w : Process)
  : outcome :=
  shutdown_each (pools w) execute_remaining force w.

(** [ThreadPool.exit]. [depth] is the interpreter's recursion budget: the
    call re-enters itself when [sysexit_initial] is [ThreadPool.exit]. *)
Fixpoint exit (depth : nat) (retcode : Z) (w : Process) : outcome :=
  match depth with
  | O => Raised RecursionError w
  | S depth' =>
      and_then (shutdown_pools true false w) (fun w =>
        let w := mkProcess (sysexit_initial w) (sigint w) (sysexit_initial w)
                           (sigint_initial w) (pools w) (heap w)
                           (next_pool w) (log w) (ext w) in
        match sys_exit w with
        | exit_None => Raised TypeError w
        | builtin_exit => Raised (SystemExit retcode) w
        | ThreadPool_exit => exit depth' retcode w
        end)
  end.

(** [ThreadPool.sigint_handler] *)
Fixpoint sigint_handler (depth : nat) (w : Process) : outcome :=
  match depth with
  | O => Raised RecursionError w
  | S depth' =>
      and_then (shutdown_pools false true w) (fun w =>
        match sigint_initial w with
        | sigint_None => Raised TypeError w
        | handler_before n => Done (add_log (SigintChained n) w)
        | ThreadPool_sigint_handler => sigint_handler depth' w
        end)
  end.

End Calls.

(** ** Workers beside the stopping thread

    The worker loop is the base class's: a worker takes the leftmost item
    of the queue, leaves on [WorkerStop], and otherwise runs the task and
    comes back for the next item. The thread inside [shutdown] puts its
    stop signals one [put] at a time (lines 99-101); every queue operation
    is atomic, and the threads interleave freely between them. *)

Inductive wstate : Type :=
| Waiting
| Running (t : nat)
| Exited.

(** The pool object, the worker threads, and the tasks started so far. *)
Record conc : Type := mkConc {
  cpool : Pool;
  cworkers : list wstate;
  cstarted : list nat
}.

Inductive step : conc -> conc -> Prop :=
| step_put_stop p p' ws st :
    workers p <> 0%nat ->
    put WorkerStop p = Some p' ->
    step (mkConc p ws st)
         (mkConc (set_workers (workers p' - 1) p') ws st)
| step_take_task p ws st i t r :
    ws !! i = Some Waiting ->
    q p = Task t :: r ->
    step (mkConc p ws st)
         (mkConc (set_q r p) (<[i := Running t]> ws) (st ++ [t]))
| step_take_stop p ws st i r :
    ws !! i = Some Waiting ->
    q p = WorkerStop :: r ->
    step (mkConc p ws st)
         (mkConc (set_q r p) (<[i := Exited]> ws) st)
| step_finish p ws st i t :
    ws !! i = Some (Running t) ->
    step (mkConc p ws st) (mkConc p (<[i := Waiting]> ws) st).

Definition is_live (s : wstate) : bool :=
  match s with
  | Exited => false
  | _ => true
  end.

(** Worker threads that have not left their loop. *)
Definition live (ws : list wstate) : nat :=
  length (List.filter is_live ws).

End Pool.

Arguments event : clear implicits.
Arguments Pool : clear implicits.
Arguments Process : clear implicits.
Arguments outcome : clear implicits.
Arguments conc : clear implicits.

End ThreadPool.

(* ===================================================================== *)
(** * veles/launcher.py *)
(* ===================================================================== *)

Module Launcher.

Import ThreadPool.

(** [self.args]: the parsed command line. *)
Record Args : Type := mkArgs {
  master_address : string;
  listen_address : string;
  matplotlib_backend : string;
  background : bool;
  stealth : bool;
  nodes : string;
  log_file : string
}.

(** What the launcher reads from its surroundings: [sys.argv], the host
    name, [os.path.abspath], whether the event loop's descriptor shows
    under /proc/self/fd, and what the probe of the status server finds. *)
Record Env : Type := mkEnv {
  argv0 : string;
  argv_rest : list string;
  hostname : string;
  abspath : string -> string;
  epoll_fd : option nat;
  web_status_host : string;
  web_status_prog : string;
  web_status_reachable : bool
}.

(** The functions a pool of this program gets as shutdown callbacks. *)
Inductive callback : Type :=
| LauncherStop
| UserCallback (n : nat).

(** The bound workflow, as far as the launcher touches it. *)
Record Workflow : Type := mkWorkflow {
  thread_pool : pool_id;
  plotters_are_enabled : bool
}.

(** What the launcher asks of its collaborators. *)
Inductive levent : Type :=
| Daemonized
| TriggerAdded
| ClientCreated (address : string)
| ServerCreated (address : string)
| GraphicsLaunched
| GraphicsStopped
| IOLoopStopped
| ReactorStopRequested
| RemoteLaunch (host prog : string).

(** The launcher object. [_lock] tells whether [self._lock], a plain
    [threading.Lock], is held. [notify_task] and [ioloop_thread] are
    [None] until [add_ref] creates them, then tell whether the looping
    call is running and whether the thread was started. *)
Record Launcher : Type := mkLauncher {
  args : Args;
  _slaves : list string;
  _lock : bool;
  _workflow : option Workflow;
  _initialized : bool;
  _running : bool;
  notify_task : option bool;
  ioloop_thread : option bool;
  events : list levent
}.

Definition set_flags (i r : bool) (l : Launcher) : Launcher :=
  mkLauncher (args l) (_slaves l) (_lock l) (_workflow l) i r
             (notify_task l) (ioloop_thread l) (events l).

Definition set_lock (b : bool) (l : Launcher) : Launcher :=
  mkLauncher (args l) (_slaves l) b (_workflow l) (_initialized l)
             (_running l) (notify_task l) (ioloop_thread l) (events l).

Definition set_workflow (wf : option Workflow) (l : Launcher) : Launcher :=
  mkLauncher (args l) (_slaves l) (_lock l) wf (_initialized l)
             (_running l) (notify_task l) (ioloop_thread l) (events l).

Definition set_notify (n t : option bool) (l : Launcher) : Launcher :=
  mkLauncher (args l) (_slaves l) (_lock l) (_workflow l) (_initialized l)
             (_running l) n t (events l).

Definition emit (evs : list levent) (l : Launcher) : Launcher :=
  mkLauncher (args l) (_slaves l) (_lock l) (_workflow l) (_initialized l)
             (_running l) (notify_task l) (ioloop_thread l) (events l ++ evs).

(** Lines 94-125 of [__init__]. *)
Definition __init__ (env : Env) (raw : Args) : result Launcher :=
  let a := mkArgs (strip (master_address raw)) (strip (listen_address raw))
                  (strip (matplotlib_backend raw)) (background raw)
                  (stealth raw) (nodes raw) (log_file raw) in
  let slaves := List.filter truthy (strip <$> split "," (nodes a)) in
  evs ← (if background a then
           match epoll_fd env with
           | None => Raise (RuntimeError "Twisted reactor was not imported")
           | Some _ => Ok [Daemonized]
           end
         else Ok []);
  Ok (mkLauncher a slaves false None false false None None evs).

Definition is_master (l : Launcher) : bool :=
  if truthy (listen_address (args l)) then true else false.

Definition is_slave (l : Launcher) : bool :=
  if truthy (master_address (args l)) then true else false.

Definition is_standalone (l : Launcher) : bool :=
  negb (is_master l) && negb (is_slave l).

Definition mode (l : Launcher) : result string :=
  if is_master l then Ok "master"
  else if is_slave l then Ok "slave"
  else if is_standalone l then Ok "standalone"
  else Raise (RuntimeError "Impossible happened").

Definition reports_web_status (l : Launcher) : bool :=
  negb (stealth (args l)) && negb (is_slave l).

Definition slaves (l : Launcher) : list string :=
  if is_master l then _slaves l else [].

(** Line 322. *)
Definition ignored_args : list string :=
  ["-l"; "--listen-address"; "-n"; "--nodes"; "-p"; "--matplotlib-backend";
   "-b"; "--background"; "-s"; "--stealth"; "-d"; "--device"].

(** Lines 325-331, over [sys.argv[1:]]. *)
Fixpoint filter_argv (skip : bool) (argv : list string) : list string :=
  match argv with
  | [] => []
  | a :: r =>
      if existsb (String.eqb a) ignored_args then filter_argv true r
      else if negb skip then a :: filter_argv skip r
      else filter_argv false r
  end.

(** Lines 332-341: the command line every slave gets. *)
Definition slave_args (env : Env) (l : Launcher) : result string :=
  let listen := listen_address (args l) in
  let filtered := filter_argv false (argv_rest env) ++ ["-m"] in
  i ← index ":" listen;
  let host := take_str i listen in
  let port := drop_str (String.length host + 1) listen in
  let host :=
    if negb (truthy host) || String.eqb host "0.0.0.0"
       || String.eqb host "localhost" || String.eqb host "127.0.0.1"
    then hostname env else host in
  Ok (join " " (filtered ++ [host +:+ ":" +:+ port; "-b"])).

(** One node entry, read as lines 344-357 do. *)
Record Node : Type := mkNode {
  node_host : string;
  multiplier : Z;
  oclpnum : Z;
  ocldevmin : Z;
  ocldevmax : Z
}.

Definition parse_node (node : string) : result Node :=
  match split "/" node with
  | [host; devs] =>
      let marray := split "x" devs in
      multiplier ← match marray with
                   | _ :: m :: _ => int m
                   | _ => Ok 1%Z
                   end;
      match split ":" (hd "" marray) with
      | [oclpnums; ocldevnum] =>
          oclpnum ← int oclpnums;
          let ocldevarr := split "-" ocldevnum in
          ocldevmin ← int (hd "" ocldevarr);
          ocldevmax ← match ocldevarr with
                      | _ :: m :: _ => int m
                      | _ => Ok ocldevmin
                      end;
          Ok (mkNode host multiplier oclpnum ocldevmin ocldevmax)
      | _ => Raise ValueError
      end
  | _ => Raise ValueError
  end.

(** Lines 358-363: the remote launches of one node, in order.
    [_launch_remote_program] swallows every failure of its own. *)
Definition node_launches (prog args : string) (n : Node) : list levent :=
  _ ← range 0 (multiplier n);
  d ← range (ocldevmin n) (ocldevmax n + 1);
  [RemoteLaunch (node_host n)
     (prog +:+ " " +:+ args +:+ " -d " +:+ fmt_d (oclpnum n)
           +:+ ":" +:+ fmt_d d)].

(** Lines 343-363: the loop over the nodes; what was launched before a
    malformed entry stays launched. *)
Fixpoint launch_each (prog args : string) (ns : list string) (l : Launcher)
  : Launcher * option exn :=
  match ns with
  | [] => (l, None)
  | node :: r =>
      match parse_node node with
      | Raise e => (l, Some e)
      | Ok n => launch_each prog args r (emit (node_launches prog args n) l)
      end
  end.

(** [_launch_nodes] *)
Definition _launch_nodes (env : Env) (l : Launcher) : Launcher * option exn :=
  match slaves l with
  | [] => (l, None)
  | _ :: _ =>
      match slave_args env l with
      | Raise e => (l, Some e)
      | Ok sargs => launch_each (abspath env (argv0 env)) sargs (slaves l) l
      end
  end.

(** [_launch_status], for a probe of the status server that answers. *)
Definition _launch_status (env : Env) (l : Launcher) : Launcher :=
  if negb (reports_web_status l) then l
  else if web_status_reachable env then l
  else emit [RemoteLaunch (web_status_host env) (web_status_prog env)] l.

Definition World : Type := Process callback Launcher.

Definition on_launcher (f : Launcher -> Launcher) (w : World) : World :=
  set_ext (f (ext w)) w.

(** The [threadsafe] wrapper: [with self._lock]. The lock is not
    re-entrant: taking it while it is held never returns. *)
Definition threadsafe (fn : World -> outcome callback Launcher) (w : World)
  : outcome callback Launcher :=
  if _lock (ext w) then Blocked w
  else match fn (on_launcher (set_lock true) w) with
       | Done w' => Done (on_launcher (set_lock false) w')
       | Raised e w' => Raised e (on_launcher (set_lock false) w')
       | Blocked w' => Blocked w'
       end.

(** [add_ref]. The collaborators made on the way (the client, the
    server, the graphics pair, the probe of the status server) are taken
    to return: what they do is an event. *)
Definition add_ref (env : Env) (wf : Workflow)
  : World -> outcome callback Launcher :=
  threadsafe (fun w =>
    let w := register_on_shutdown (thread_pool wf) LauncherStop w in
    let l := emit [TriggerAdded] (ext w) in
    let wf := if is_slave l || negb (truthy (matplotlib_backend (args l)))
              then mkWorkflow (thread_pool wf) false else wf in
    let l := set_workflow (Some wf) l in
    let finish (l : Launcher) :=
      Done (set_ext (set_flags true (_running l) l) w) in
    if is_slave l then
      finish (emit [ClientCreated (master_address (args l))] l)
    else
      let l := if reports_web_status l
               then _launch_status env (set_notify (Some false) (Some false) l)
               else l in
      let l := if plotters_are_enabled wf then emit [GraphicsLaunched] l
               else l in
      if is_master l then
        let l := emit [ServerCreated (listen_address (args l))] l in
        match _launch_nodes env l with
        | (l, Some e) => Raised e (set_ext l w)
        | (l, None) => finish l
        end
      else finish l).

Section Stop.

(** What the pool's callback [self.stop] does when called from inside
    [_on_stop]: [stop] itself, one level deeper. *)
Variable stop_again : World -> outcome callback Launcher.

Definition call_callback (cb : callback) (w : World)
  : outcome callback Launcher :=
  match cb with
  | LauncherStop => stop_again w
  | UserCallback _ => Done w
  end.

(** [_on_stop]. Stopping a looping call that is not running fails its
    assertion; joining a thread that was never started raises. *)
Definition _on_stop (w : World) : outcome callback Launcher :=
  let w := on_launcher (set_flags false false) w in
  let l := ext w in
  and_then
    (if reports_web_status l then
       match notify_task l with
       | None => Raised AttributeError w
       | Some false => Raised AssertionError w
       | Some true =>
           let w := on_launcher
                      (fun l => emit [IOLoopStopped]
                                  (set_notify (Some false) (ioloop_thread l) l))
                      w in
           match ioloop_thread l with
           | None => Raised AttributeError w
           | Some false =>
               Raised (RuntimeError "cannot join thread before it is started")
                      w
           | Some true => Done w
           end
       end
     else Done w)
    (fun w =>
       match _workflow (ext w) with
       | None => Raised AttributeError w
       | Some wf =>
           let w := if plotters_are_enabled wf
                    then on_launcher (emit [GraphicsStopped]) w else w in
           shutdown call_callback (thread_pool wf) true false w
       end).

(** The body of [stop]. *)
Definition stop_body (w : World) : outcome callback Launcher :=
  if negb (_initialized (ext w)) then Done w
  else if negb (_running (ext w)) then _on_stop w
  else Done (on_launcher (emit [ReactorStopRequested]) w).

End Stop.

(** [stop]. [depth] bounds the nesting of calls, as the interpreter does. *)
Fixpoint stop (depth : nat) (w : World) : outcome callback Launcher :=
  match depth with
  | O => Raised RecursionError w
  | S depth' => threadsafe (stop_body (stop depth')) w
  end.

(** [_pre_run], as far as the launcher's own state goes. *)
Definition _pre_run : World -> outcome callback Launcher :=
  threadsafe (fun w =>
    if negb (_initialized (ext w))
    then Raised (RuntimeError "Launcher was not initialized") w
    else
      let l := set_flags (_initialized (ext w)) true (ext w) in
      let l := if reports_web_status l
               then set_notify (Some true) (Some true) l else l in
      Done (set_ext l w)).

End Launcher.

(* ===================================================================== *)
(** * veles/opencl.py *)
(* ===================================================================== *)

Module OpenCL.

(** [DeviceInfo]: four dictionaries keyed by the name of a data type. *)
Record DeviceInfo : Type := mkDeviceInfo {
  desc : string;
  memsize : Z;
  memalign : Z;
  version : float;
  rating : gmap string float;
  dt : gmap string float;
  min_dt : gmap string float;
  BLOCK_SIZE : gmap string Z
}.

Definition set_rating (m : gmap string float) (d : DeviceInfo) : DeviceInfo :=
  mkDeviceInfo (desc d) (memsize d) (memalign d) (version d)
               m (dt d) (min_dt d) (BLOCK_SIZE d).

Definition set_dt (m : gmap string float) (d : DeviceInfo) : DeviceInfo :=
  mkDeviceInfo (desc d) (memsize d) (memalign d) (version d)
               (rating d) m (min_dt d) (BLOCK_SIZE d).

Definition set_min_dt (m : gmap string float) (d : DeviceInfo) : DeviceInfo :=
  mkDeviceInfo (desc d) (memsize d) (memalign d) (version d)
               (rating d) (dt d) m (BLOCK_SIZE d).

Definition set_BLOCK_SIZE (m : gmap string Z) (d : DeviceInfo) : DeviceInfo :=
  mkDeviceInfo (desc d) (memsize d) (memalign d) (version d)
               (rating d) (dt d) (min_dt d) m.

(** The cache: a dictionary from description to [DeviceInfo], in the
    order of insertion. An entry is the object itself: the device's own
    [DeviceInfo] is the one stored under its description (line 148). *)
Definition dict : Type := list (string * DeviceInfo).

Fixpoint dict_lookup (k : string) (d : dict) : option DeviceInfo :=
  match d with
  | [] => None
  | (k', v) :: r => if String.eqb k k' then Some v else dict_lookup k r
  end.

(** [d[k] = v]: in place for a known key, at the end for a new one. *)
Fixpoint dict_set (k : string) (v : DeviceInfo) (d : dict) : dict :=
  match d with
  | [] => [(k, v)]
  | (k', v') :: r =>
      if String.eqb k k' then (k, v) :: r else (k', v') :: dict_set k v r
  end.

Definition dict_get (k : string) (d : dict) : result DeviceInfo :=
  match dict_lookup k d with
  | Some v => Ok v
  | None => Raise (KeyError k)
  end.

(** [a / b] on floats. *)
Definition py_div (a b : float) : result float :=
  if PrimFloat.eqb b 0 then Raise ZeroDivisionError else Ok (a / b)%float.

(** The sentinel of a time never measured: one day. *)
Definition never : float := 86400%float.

(** [s[-1]] *)
Fixpoint last_char (s : string) : result ascii :=
  match s with
  | EmptyString => Raise IndexError
  | String c EmptyString => Ok c
  | String _ r => last_char r
  end.

(** [veles.config]: the two switches the device manager reads. *)
Record Config : Type := mkConfig {
  test_known_device : bool;
  test_unknown_device : bool
}.

(** What one pass measures: the time of the CPU reference where it is
    computed, and the average time of the accelerator kernel, [None] when
    building or running it raises [RuntimeError]. *)
Record Measure : Type := mkMeasure {
  cpu_time : Z -> string -> float;
  dev_time : Z -> string -> option float
}.

(** The state of the sweep: the types with a CPU reference in [cc], the
    local dictionaries [dt_numpy] and [min_dt], and the cache. *)
Record Sweep : Type := mkSweep {
  cc : gset string;
  dt_numpy : gmap string float;
  cur_min_dt : gmap string float;
  infos : dict
}.

(** What [_fill_device_info_performance_values] finds on disk. *)
Inductive cache_file : Type :=
| Loaded (d : dict)
| OpenFails
| LoadFails (e : exn).

(** What it leaves: the device's [DeviceInfo], whether the benchmark ran,
    and the cache written back, if any. *)
Record Filled : Type := mkFilled {
  device_info : DeviceInfo;
  tested : bool;
  written : option dict
}.

(** A device and a platform of the OpenCL library, as far as the
    constructor reads them. *)
Record CLDevice : Type := mkCLDevice {
  vendor : string;
  name : string;
  vendor_id : Z;
  device_memsize : Z;
  device_memalign : Z;
  device_version : float
}.

Record CLPlatform : Type := mkCLPlatform {
  devices : list CLDevice
}.

Section Device.

(** [sorted(opencl_types.dtypes.keys())]: the table is not part of these
    sources. *)
Variable dtypes : list string.

(** [DeviceInfo.__init__] *)
Definition new_DeviceInfo (desc : string) (memsize memalign : Z)
  (version : float) : DeviceInfo :=
  mkDeviceInfo desc memsize memalign version
    (list_to_map ((fun t => (t, 0%float)) <$> dtypes))
    (list_to_map ((fun t => (t, never)) <$> dtypes))
    (list_to_map ((fun t => (t, never)) <$> dtypes))
    (list_to_map ((fun t => (t, 8%Z)) <$> dtypes)).

(** [l[i]]: a negative index counts from the end. *)
Definition list_getitem {A} (l : list A) (i : Z) : result A :=
  let j := if (i <? 0)%Z then (Z.of_nat (length l) + i)%Z else i in
  if (j <? 0)%Z then Raise IndexError
  else match l !! Z.to_nat j with
       | Some x => Ok x
       | None => Raise IndexError
       end.

(** Lines 106-107: the devices of the platform named by [devnums], in
    the order of the list. *)
Fixpoint select_devices (ds : list CLDevice) (devnums : list string)
  : result (list CLDevice) :=
  match devnums with
  | [] => Ok []
  | devnum :: r =>
      i ← int devnum;
      d ← list_getitem ds i;
      r' ← select_devices ds r;
      Ok (d :: r')
  end.

(** [_get_some_device], up to the [DeviceInfo] it builds. [device] is
    the value of [-d]; [some_context] holds the devices of the context
    the library picks when none is asked for. A context created from a
    list of devices has these devices, in that order. *)
Definition _get_some_device (platforms : list CLPlatform)
  (some_context : list CLDevice) (device : string) : result DeviceInfo :=
  context ← (if String.eqb device "" then Ok some_context
             else
               match split ":" device with
               | [platfnum; devnums] =>
                   i ← int platfnum;
                   platform ← list_getitem platforms i;
                   select_devices (devices platform) (split "," devnums)
               | _ => Raise ValueError
               end);
  device ← list_getitem context 0;
  Ok (new_DeviceInfo
        (strip (vendor device) +:+ "/" +:+ strip (name device) +:+ "/"
           +:+ fmt_d (vendor_id device))
        (device_memsize device) (device_memalign device)
        (device_version device)).

(** Lines 187-194: the CPU reference, once per type. *)
Definition cpu_part (ms : Measure) (bs : Z) (dtype : string) (s : Sweep)
  : result Sweep :=
  if decide (dtype ∈ cc s) then Ok s
  else
    let t := cpu_time ms bs dtype in
    n ← getitem (dt_numpy s) dtype;
    let dtn := if PrimFloat.ltb t n then <[dtype := t]> (dt_numpy s)
               else dt_numpy s in
    n ← getitem dtn dtype;
    m ← getitem (cur_min_dt s) dtype;
    let md := if PrimFloat.ltb n m then <[dtype := n]> (cur_min_dt s)
              else cur_min_dt s in
    Ok (mkSweep ({[dtype]} ∪ cc s) dtn md (infos s)).

(** Lines 198-207: the accelerator's time [t] for this block size. *)
Definition dev_part (self : string) (bs : Z) (dtype : string) (t : float)
  (s : Sweep) : result Sweep :=
  me ← dict_get self (infos s);
  own ← getitem (dt me) dtype;
  let me := if PrimFloat.ltb t own
            then set_BLOCK_SIZE (<[dtype := bs]> (BLOCK_SIZE me))
                   (set_dt (<[dtype := t]> (dt me)) me)
            else me in
  m ← getitem (cur_min_dt s) dtype;
  let md := if PrimFloat.ltb t m then <[dtype := t]> (cur_min_dt s)
            else cur_min_dt s in
  c ← last_char dtype;
  let key := if Ascii.eqb c "2" then "double2" else "double" in
  if decide (key ∈ cc s) then
    Ok (mkSweep (cc s) (dt_numpy s) md (dict_set self me (infos s)))
  else Raise (KeyError key).

(** The body of the sweep (lines 183-221) for one block size and type.
    Only a [RuntimeError] is caught. *)
Definition test_one (self : string) (ms : Measure) (s : Sweep)
  (job : Z * string) : result Sweep :=
  let '(bs, dtype) := job in
  s ← cpu_part ms bs dtype s;
  match dev_time ms bs dtype with
  | None => Ok s
  | Some t => dev_part self bs dtype t s
  end.

(** [range(32, 3, -1)] *)
Definition block_sizes : list Z := Z.of_nat <$> rev (seq 4 29).

(** The sweep's (block size, type) pairs in order. *)
Definition jobs : list (Z * string) :=
  bs ← block_sizes; (fun t => (bs, t)) <$> dtypes.

Fixpoint run_jobs (self : string) (ms : Measure) (l : list (Z * string))
  (s : Sweep) : result Sweep :=
  match l with
  | [] => Ok s
  | j :: r => s ← test_one self ms s j; run_jobs self ms r s
  end.

(** Lines 225-227: the rating of the CPU reference, for the log. *)
Fixpoint numpy_ratings (m n : gmap string float) (ts : list string)
  : result unit :=
  match ts with
  | [] => Ok tt
  | t :: r =>
      a ← getitem m t; b ← getitem n t; _ ← py_div a b;
      numpy_ratings m n r
  end.

(** Lines 229-243 for one device. *)
Fixpoint rate_device (m : gmap string float) (ts : list string)
  (d : DeviceInfo) : result DeviceInfo :=
  match ts with
  | [] => Ok d
  | t :: r =>
      a ← getitem m t;
      own ← getitem (dt d) t;
      rt ← py_div a own;
      _ ← getitem (rating d) t;
      rate_device m r
        (set_min_dt (<[t := a]> (min_dt d))
                    (set_rating (<[t := rt]> (rating d)) d))
  end.

(** Lines 228-243: every device of the cache. *)
Fixpoint rate_all (m : gmap string float) (d : dict) : result dict :=
  match d with
  | [] => Ok []
  | (k, v) :: r =>
      v' ← rate_device m dtypes v; r' ← rate_all m r; Ok ((k, v') :: r')
  end.

(** Lines 168-176: the minimum the pass starts from. *)
Definition start_min_dt (device_infos : dict) : gmap string float :=
  let fresh := list_to_map ((fun t => (t, never)) <$> dtypes) in
  match device_infos with
  | [] => fresh
  | (_, first) :: _ => min_dt first ∪ fresh
  end.

(** Lines 168-221: the state before the sweep, then the sweep. *)
Definition sweep (self : string) (ms : Measure) (device_infos : dict)
  : result Sweep :=
  me ← dict_get self device_infos;
  let me := set_dt ((fun _ => never) <$> dt me) me in
  run_jobs self ms jobs
    (mkSweep ∅ (list_to_map ((fun t => (t, never)) <$> dtypes))
             (start_min_dt device_infos) (dict_set self me device_infos)).

(** [_do_tests] for the device described by [self]. *)
Definition _do_tests (self : string) (ms : Measure) (device_infos : dict)
  : result dict :=
  s ← sweep self ms device_infos;
  _ ← numpy_ratings (cur_min_dt s) (dt_numpy s) dtypes;
  rate_all (cur_min_dt s) (infos s).

(** [_fill_device_info_performance_values] for the fresh [DeviceInfo]
    [me]; [can_write] tells whether the cache file opens for writing. *)
Definition _fill_device_info_performance_values (cfg : Config)
  (file : cache_file) (can_write : bool) (ms : Measure) (me : DeviceInfo)
  : result Filled :=
  device_infos ← match file with
                 | Loaded d => Ok d
                 | OpenFails => Ok []
                 | LoadFails e => Raise e
                 end;
  match (if test_known_device cfg then None
         else dict_lookup (desc me) device_infos) with
  | Some cached =>
      Ok (mkFilled
            (set_min_dt (min_dt cached ∪ min_dt me)
               (set_dt (dt cached ∪ dt me)
                  (set_BLOCK_SIZE (BLOCK_SIZE cached ∪ BLOCK_SIZE me)
                     (set_rating (rating cached ∪ rating me) me))))
            false None)
  | None =>
      if negb (test_unknown_device cfg) then Ok (mkFilled me false None)
      else
        let device_infos := dict_set (desc me) me device_infos in
        device_infos ← _do_tests (desc me) ms device_infos;
        if can_write then
          me ← dict_get (desc me) device_infos;
          Ok (mkFilled me true (Some device_infos))
        else Raise IOError
  end.

End Device.

End OpenCL.

(* ===================================================================== *)
(** * veles/tests/network.py *)
(* ===================================================================== *)

Module NetworkTest.

(** The values a pickle may hold, as far as [isinstance(_, dict)] tells
    them apart. *)
Inductive pyobj : Type :=
| PyNone
| PyBool (b : bool)
| PyInt (z : Z)
| PyStr (s : string)
| PyList (l : list pyobj)
| PyTuple (l : list pyobj)
| PyDict (items : list (pyobj * pyobj)).

Definition isinstance_dict (o : pyobj) : bool :=
  match o with
  | PyDict _ => true
  | _ => false
  end.

(** The class attributes of [TestWorkflow]: one set of flags for all its
    instances. *)
Record TestWorkflow : Type := mkTestWorkflow {
  job_requested : bool;
  job_done : bool;
  update_applied : bool;
  power_requested : bool;
  job_dropped : bool
}.

Definition fresh : TestWorkflow := mkTestWorkflow false false false false false.

Section Pickle.

(** [pickle.loads] and [pickle.dumps]: the format is the library's. *)
Variable loads : string -> result pyobj.
Variable dumps : pyobj -> string.

(** [request_job] *)
Definition request_job (c : TestWorkflow) : TestWorkflow * string :=
  (mkTestWorkflow true (job_done c) (update_applied c) (power_requested c)
                  (job_dropped c),
   dumps (PyDict [(PyStr "objective", PyStr "win")])).

(** [do_job] *)
Definition do_job (data : string) (c : TestWorkflow)
  : result (TestWorkflow * string) :=
  job ← loads data;
  Ok (if isinstance_dict job
      then mkTestWorkflow (job_requested c) true (update_applied c)
                          (power_requested c) (job_dropped c)
      else c, data).

(** [apply_update]: the flags after the call and the value returned. *)
Definition apply_update (update : string) (c : TestWorkflow)
  : result (TestWorkflow * bool) :=
  obj ← loads update;
  if isinstance_dict obj
  then Ok (mkTestWorkflow (job_requested c) (job_done c) true
                          (power_requested c) (job_dropped c), true)
  else Ok (c, false).

(** [drop_slave] *)
Definition drop_slave (c : TestWorkflow) : TestWorkflow :=
  mkTestWorkflow (job_requested c) (job_done c) (update_applied c)
                 (power_requested c) true.

(** [get_computing_power] *)
Definition get_computing_power (c : TestWorkflow) : TestWorkflow * Z :=
  (mkTestWorkflow (job_requested c) (job_done c) (update_applied c) true
                  (job_dropped c), 100%Z).

End Pickle.

End NetworkTest.

(* ===================================================================== *)
(** * Properties of the launcher's roles *)
(* ===================================================================== *)

Section LauncherRoles.

Import Launcher.

Lemma truthy_true (s : string) : truthy s = true <-> s <> "".
Proof. destruct s; simpl; split; congruence. Qed.

Lemma truthy_false (s : string) : truthy s = false <-> s = "".
Proof. destruct s; simpl; split; congruence. Qed.

(** What [__init__] stores is the trimmed configuration. *)
Lemma init_args (env : Env) (raw : Args) (l : Launcher) :
  __init__ env raw = Ok l ->
  listen_address (args l) = strip (listen_address raw)
  /\ master_address (args l) = strip (master_address raw)
  /\ _slaves l = List.filter truthy (strip <$> split "," (nodes raw))
  /\ _initialized l = false /\ _running l = false.
Proof.
  unfold __init__; simpl.
  destruct (background raw); [destruct (epoll_fd env) |]; simpl;
    intros H; inversion H; subst; simpl; auto.
Qed.

Lemma is_master_spec (l : Launcher) :
  is_master l = true <-> listen_address (args l) <> "".
Proof.
  unfold is_master. rewrite <- truthy_true.
  destruct (truthy _); split; congruence.
Qed.

Lemma is_slave_spec (l : Launcher) :
  is_slave l = true <-> master_address (args l) <> "".
Proof.
  unfold is_slave. rewrite <- truthy_true.
  destruct (truthy _); split; congruence.
Qed.

Lemma is_standalone_spec (l : Launcher) :
  is_standalone l = true
  <-> listen_address (args l) = "" /\ master_address (args l) = "".
Proof.
  unfold is_standalone, is_master, is_slave.
  rewrite <- !truthy_false.
  destruct (truthy (listen_address _)), (truthy (master_address _));
    simpl; intuition congruence.
Qed.

(** [mode] never reaches its last line. *)
Lemma mode_total (l : Launcher) :
  mode l = Ok "master" \/ mode l = Ok "slave" \/ mode l = Ok "standalone".
Proof.
  unfold mode, is_standalone.
  destruct (is_master l), (is_slave l); simpl; auto.
Qed.

(** C1. For every launcher built by [__init__] the addresses kept are the
    trimmed ones; [is_master] holds iff the listen address is non-empty,
    [is_slave] iff the master address is non-empty, [is_standalone] iff
    both are empty; [mode] is "master" with a listen address and no master
    address, "slave" with a master address and no listen address, and
    "standalone" with neither. *)
Theorem C1_role_derivation (env : Env) (raw : Args) (l : Launcher) :
  __init__ env raw = Ok l ->
  let listen := strip (listen_address raw) in
  let master := strip (master_address raw) in
  listen_address (args l) = listen
  /\ master_address (args l) = master
  /\ (is_master l = true <-> listen <> "")
  /\ (is_slave l = true <-> master <> "")
  /\ (is_standalone l = true <-> listen = "" /\ master = "")
  /\ (listen <> "" -> master = "" -> mode l = Ok "master")
  /\ (master <> "" -> listen = "" -> mode l = Ok "slave")
  /\ (listen = "" -> master = "" -> mode l = Ok "standalone").
Proof.
  intros Hinit listen master.
  destruct (init_args env raw l Hinit) as (Hl & Hm & _).
  subst listen master. rewrite <- Hl, <- Hm.
  split; [reflexivity |]. split; [reflexivity |].
  split; [apply is_master_spec |]. split; [apply is_slave_spec |].
  split; [apply is_standalone_spec |].
  unfold mode, is_standalone.
  repeat split; intros H1 H2.
  - apply is_master_spec in H1. now rewrite H1.
  - apply is_slave_spec in H1.
    assert (is_master l = false) as ->.
    { destruct (is_master l) eqn:E; [| reflexivity].
      apply is_master_spec in E. contradiction. }
    now rewrite H1.
  - assert (is_master l = false) as ->.
    { destruct (is_master l) eqn:E; [| reflexivity].
      apply is_master_spec in E. contradiction. }
    assert (is_slave l = false) as ->.
    { destruct (is_slave l) eqn:E; [| reflexivity].
      apply is_slave_spec in E. contradiction. }
    reflexivity.
Qed.

(** C10. A launcher that is not a master has no slaves to launch, whatever
    its node list holds: [slaves] is empty and [_launch_nodes] returns at
    once, launching nothing and raising nothing. *)
Theorem C10_nodes_ignored_outside_master (env : Env) (l : Launcher) :
  is_master l = false ->
  slaves l = [] /\ _launch_nodes env l = (l, None).
Proof.
  intros H. unfold _launch_nodes, slaves. rewrite H. auto.
Qed.

End LauncherRoles.

Section LauncherRolesExamples.

Import Launcher.

Definition example_env : Env :=
  mkEnv "veles.py" ["-l"; "0.0.0.0:5000"; "-n"; "h/0:0"; "wf.py"; "-s"]
        "master1" (fun s => "/opt/" +:+ s) None "dash" "/opt/web_status.py"
        true.

(** A slave configured with nodes all the same. *)
Definition slave_with_nodes : Launcher :=
  mkLauncher (mkArgs "10.0.0.1:5000" "" "" false false "h/0:0, g/1:0-2" "")
             ["h/0:0"; "g/1:0-2"] false None false false None None [].

Lemma C1_role_derivation_witness :
  __init__ example_env (mkArgs "  " " 0.0.0.0:5000 " "" false true "" "")
  = Ok (mkLauncher (mkArgs "" "0.0.0.0:5000" "" false true "" "")
                   [] false None false false None None [])
  /\ mode (mkLauncher (mkArgs "" "0.0.0.0:5000" "" false true "" "")
                      [] false None false false None None []) = Ok "master".
Proof.
  split; [reflexivity |].
  apply (C1_role_derivation example_env
           (mkArgs "  " " 0.0.0.0:5000 " "" false true "" "")).
  - reflexivity.
  - simpl. discriminate.
  - reflexivity.
Defined.

Lemma C10_nodes_ignored_outside_master_witness :
  __init__ example_env (mkArgs "10.0.0.1:5000" "" "" false false
                           "h/0:0, g/1:0-2" "") = Ok slave_with_nodes
  /\ slaves slave_with_nodes = []
  /\ _launch_nodes example_env slave_with_nodes = (slave_with_nodes, None).
Proof.
  split; [reflexivity |].
  apply (C10_nodes_ignored_outside_master example_env slave_with_nodes).
  reflexivity.
Defined.

End LauncherRolesExamples.

(* ===================================================================== *)
(** * Properties of the contract-test workflow *)
(* ===================================================================== *)

Section ContractTest.

Import NetworkTest.

Variable loads : string -> result pyobj.

(** C9. For every update payload that deserializes, [apply_update]
    answers true exactly when the object is a dictionary; it sets the
    update-applied flag in that case and leaves every flag as it was
    otherwise (so a flag that was unset stays unset). *)
Theorem C9_apply_update (update : string) (obj : pyobj) (c : TestWorkflow) :
  loads update = Ok obj ->
  exists c' : TestWorkflow,
    apply_update loads update c = Ok (c', isinstance_dict obj)
    /\ (isinstance_dict obj = true <-> exists items, obj = PyDict items)
    /\ (isinstance_dict obj = true -> update_applied c' = true)
    /\ (isinstance_dict obj = false -> c' = c)
    /\ (update_applied c = false -> update_applied c' = isinstance_dict obj)
    /\ job_requested c' = job_requested c
    /\ job_done c' = job_done c
    /\ power_requested c' = power_requested c
    /\ job_dropped c' = job_dropped c.
Proof.
  intros H. unfold apply_update. rewrite H. simpl.
  assert (isinstance_dict obj = true <-> exists items, obj = PyDict items)
    as Hd.
  { destruct obj; simpl; split; try discriminate; eauto;
      intros [items Hi]; discriminate. }
  destruct (isinstance_dict obj) eqn:E.
  - eexists; split; [reflexivity |]. split; [exact Hd |]. simpl.
    repeat split; auto; discriminate.
  - exists c. split; [reflexivity |]. split; [exact Hd |].
    repeat split; auto; discriminate.
Qed.

(** A payload that does not deserialize is neither accepted nor rejected:
    the exception of [pickle.loads] passes through. *)
Lemma apply_update_raises (update : string) (e : exn) (c : TestWorkflow) :
  loads update = Raise e -> apply_update loads update c = Raise e.
Proof. intros H. unfold apply_update. now rewrite H. Qed.

End ContractTest.

Section ContractTestExamples.

Import NetworkTest.

(** A stand-in for the pickle format: two payloads. *)
Definition toy_loads (s : string) : result pyobj :=
  if String.eqb s "D" then Ok (PyDict [(PyStr "objective", PyStr "win")])
  else if String.eqb s "L" then Ok (PyList [PyInt 1])
  else Raise UnpicklingError.

Lemma C9_apply_update_witness :
  exists c' : TestWorkflow,
    apply_update toy_loads "L" fresh = Ok (c', false)
    /\ (false = true <-> exists items, PyList [PyInt 1] = PyDict items)
    /\ (false = true -> update_applied c' = true)
    /\ (false = false -> c' = fresh)
    /\ (update_applied fresh = false -> update_applied c' = false)
    /\ job_requested c' = job_requested fresh
    /\ job_done c' = job_done fresh
    /\ power_requested c' = power_requested fresh
    /\ job_dropped c' = job_dropped fresh.
Proof.
  apply (C9_apply_update toy_loads "L" (PyList [PyInt 1]) fresh).
  reflexivity.
Defined.

Example apply_update_accepts_dict :
  apply_update toy_loads "D" fresh
  = Ok (mkTestWorkflow false false true false false, true).
Proof. reflexivity. Qed.

End ContractTestExamples.

(* ===================================================================== *)
(** * Properties of the device manager's cache *)
(* ===================================================================== *)

Section DeviceCache.

Import OpenCL.

Variable dtypes : list string.

(** A failure to open or read the cache file leaves the empty cache. *)
Lemma open_failure_is_empty_cache (cfg : Config) (can_write : bool)
  (ms : Measure) (me : DeviceInfo) :
  _fill_device_info_performance_values dtypes cfg OpenFails can_write ms me
  = _fill_device_info_performance_values dtypes cfg (Loaded []) can_write ms me.
Proof. reflexivity. Qed.

(** C7. (1) When the cache file cannot be opened or read, construction
    goes on as with an empty cache; with the testing of unknown devices
    off it returns the device's defaults, without a benchmark and without
    writing. (2) When the loaded cache has the device's description and
    re-testing known devices is off, every rating, time, minimum time and
    block size of the cached entry is the device's afterwards, what the
    entry lacks keeps its default, no benchmark runs and nothing is
    written. *)
Theorem C7_cache_load (cfg : Config) (can_write : bool) (ms : Measure)
  (me : DeviceInfo) :
  _fill_device_info_performance_values dtypes cfg OpenFails can_write ms me
  = _fill_device_info_performance_values dtypes cfg (Loaded []) can_write ms me
  /\ (test_unknown_device cfg = false ->
      _fill_device_info_performance_values dtypes cfg OpenFails can_write ms me
      = Ok (mkFilled me false None))
  /\ (forall (d : dict) (cached : DeviceInfo),
        test_known_device cfg = false ->
        dict_lookup (desc me) d = Some cached ->
        exists info : DeviceInfo,
          _fill_device_info_performance_values dtypes cfg (Loaded d)
            can_write ms me = Ok (mkFilled info false None)
          /\ (forall t, rating info !! t
                        = match rating cached !! t with
                          | Some v => Some v
                          | None => rating me !! t
                          end)
          /\ (forall t, dt info !! t
                        = match dt cached !! t with
                          | Some v => Some v
                          | None => dt me !! t
                          end)
          /\ (forall t, min_dt info !! t
                        = match min_dt cached !! t with
                          | Some v => Some v
                          | None => min_dt me !! t
                          end)
          /\ (forall t, BLOCK_SIZE info !! t
                        = match BLOCK_SIZE cached !! t with
                          | Some v => Some v
                          | None => BLOCK_SIZE me !! t
                          end)
          /\ desc info = desc me).
Proof.
  split; [reflexivity |]. split.
  - intros Hu. unfold _fill_device_info_performance_values. simpl.
    rewrite Hu. now destruct (test_known_device cfg).
  - intros d cached Hk Hc.
    unfold _fill_device_info_performance_values. simpl.
    rewrite Hk, Hc. eexists. split; [reflexivity |]. simpl.
    repeat split; intros t; rewrite lookup_union;
      match goal with |- context [?m !! t] => destruct (m !! t) end;
      simpl; try reflexivity;
      match goal with |- context [?m !! t] => destruct (m !! t) end;
      reflexivity.
Qed.

End DeviceCache.

Section DeviceCacheExamples.

Import OpenCL.

Definition two_types : list string := ["double"; "float"].

Definition fresh_info : DeviceInfo :=
  new_DeviceInfo two_types "ACME/Fast/1" 1024 64 2%float.

(** The entry a previous run left for the same device. *)
Definition cached_info : DeviceInfo :=
  mkDeviceInfo "ACME/Fast/1" 1024 64 2%float
    {["float" := 0.5%float]} {["float" := 4%float]} {["float" := 2%float]}
    {["float" := 16%Z]}.

Definition no_measure : Measure :=
  mkMeasure (fun _ _ => never) (fun _ _ => None).

Lemma C7_cache_load_witness :
  exists info : DeviceInfo,
    _fill_device_info_performance_values two_types (mkConfig false true)
      (Loaded [("ACME/Fast/1", cached_info)]) true no_measure fresh_info
    = Ok (mkFilled info false None)
    /\ rating info !! "float" = Some 0.5%float
    /\ rating info !! "double" = Some 0%float
    /\ BLOCK_SIZE info !! "float" = Some 16%Z.
Proof.
  destruct (C7_cache_load two_types (mkConfig false true) true no_measure
              fresh_info) as (_ & _ & H).
  destruct (H [("ACME/Fast/1", cached_info)] cached_info eq_refl eq_refl)
    as (info & Hf & Hr & _ & _ & Hb & _).
  exists info. split; [exact Hf |].
  rewrite !Hr, Hb. repeat split; reflexivity.
Defined.

End DeviceCacheExamples.

(* ===================================================================== *)
(** * The process-wide hooks of the pool *)
(* ===================================================================== *)

Section Hooks.

Import ThreadPool.

Context {C E : Type}.

Definition is_install (e : event C) : bool :=
  match e with
  | HooksInstalled => true
  | _ => false
  end.

(** How many times lines 49-52 ran. *)
Definition installs (w : Process C E) : nat :=
  length (List.filter is_install (log w)).

(** A pool created while another one is registered installs nothing. *)
Lemma init_beside_a_pool (minthreads queue_size : nat) (w : Process C E) :
  pools w <> [] ->
  installs (snd (__init__ minthreads queue_size w)) = installs w
  /\ sysexit_initial (snd (__init__ minthreads queue_size w))
     = sysexit_initial w
  /\ sigint_initial (snd (__init__ minthreads queue_size w)) = sigint_initial w.
Proof.
  intros H. unfold __init__, installs. destruct (pools w); [congruence |].
  simpl. auto.
Qed.

(** A pool created while the registry is empty installs the hooks, and
    keeps as "initial" whatever was installed then. *)
Lemma init_on_empty_registry (minthreads queue_size : nat) (w : Process C E) :
  pools w = [] ->
  installs (snd (__init__ minthreads queue_size w)) = S (installs w)
  /\ sysexit_initial (snd (__init__ minthreads queue_size w)) = sys_exit w
  /\ sigint_initial (snd (__init__ minthreads queue_size w)) = sigint w.
Proof.
  intros H. unfold __init__, installs. rewrite H. simpl.
  rewrite List.filter_app, length_app. simpl. split; [lia | auto].
Qed.

End Hooks.

Section HooksExamples.

Import ThreadPool.

(** A process before its first pool. *)
Definition boot : Process nat unit :=
  mkProcess builtin_exit (handler_before 0) exit_None sigint_None
            [] ∅ 0 [] tt.

Definition no_effect (cb : nat) (w : Process nat unit) : outcome nat unit :=
  Done w.

(** One pool created and shut down, then a second pool created. *)
Definition second_pool : Process nat unit :=
  let w1 := snd (__init__ 3 2048 boot) in
  let w2 := state_of (shutdown no_effect 0 true false w1) in
  snd (__init__ 3 2048 w2).

(** C5 fails on the code. After the only pool was shut down the registry
    is empty again, so the next pool installs the hooks a second time and
    records the pool's own wrappers as the "initial" behaviour: leaving
    through [ThreadPool.exit] then re-enters itself until the
    interpreter's recursion limit, and so does the SIGINT handler. *)
Theorem C5_hooks_installed_twice :
  shutdown no_effect 0 true false (snd (__init__ 3 2048 boot))
  = Done (state_of (shutdown no_effect 0 true false
                            (snd (__init__ 3 2048 boot))))
  /\ installs second_pool = 2%nat
  /\ sysexit_initial second_pool = ThreadPool_exit
  /\ sigint_initial second_pool = ThreadPool_sigint_handler
  /\ (exists w, exit no_effect 1000 0 second_pool = Raised RecursionError w)
  /\ (exists w, sigint_handler no_effect 1000 second_pool
                = Raised RecursionError w).
Proof.
  split; [vm_compute; reflexivity |].
  split; [vm_compute; reflexivity |].
  split; [vm_compute; reflexivity |].
  split; [vm_compute; reflexivity |].
  split; eexists; vm_compute; reflexivity.
Qed.

End HooksExamples.

(* ===================================================================== *)
(** * Stopping a launcher that never ran *)
(* ===================================================================== *)

Section StopNeverRun.

Import ThreadPool Launcher.

(** With the launcher's lock held, [stop] does not get past taking it. *)
Lemma stop_under_lock (depth : nat) (w : World) :
  _lock (ext w) = true -> stop (S depth) w = Blocked w.
Proof. intros H. simpl. unfold threadsafe. now rewrite H. Qed.

(** The callbacks run while [_on_stop] shuts the pool down are called
    with the lock still held by the outer [stop]. *)
Lemma first_stop_blocks (depth : nat) (w : World) (wf : Workflow)
  (p : Pool callback) (rest : list callback) :
  _lock (ext w) = false ->
  _initialized (ext w) = true ->
  _running (ext w) = false ->
  reports_web_status (ext w) = false ->
  _workflow (ext w) = Some wf ->
  heap w !! thread_pool wf = Some p ->
  in_registry (thread_pool wf) w = true ->
  shutting_down p = false ->
  on_shutdowns p = LauncherStop :: rest ->
  exists w', stop (S (S depth)) w = Blocked w'
             /\ _initialized (ext w') = false /\ _lock (ext w') = true.
Proof.
  intros Hlock Hi Hr Hweb Hwf Hp Hreg Hsd Hcbs.
  assert (forall w0 : World, _lock (ext w0) = true ->
                             stop (S depth) w0 = Blocked w0) as Hinner
    by (intros; now apply stop_under_lock).
  change (stop (S (S depth)) w)
    with (threadsafe (stop_body (stop (S depth))) w).
  generalize dependent (stop (S depth)). intros inner Hinner.
  destruct w as [se si sei sii ps h np lg l].
  destruct l as [a sl lk wfl ini run nt it evs].
  destruct p as [pq pm pf pw pt pcb psd pj].
  simpl in *. subst.
  unfold threadsafe, stop_body, _on_stop, on_launcher. simpl.
  unfold reports_web_status, is_slave in *. simpl in *. rewrite Hweb. simpl.
  destruct (plotters_are_enabled wf); simpl;
    unfold shutdown; simpl; rewrite Hp; unfold in_registry in *; simpl in *;
    rewrite Hreg; simpl; rewrite lookup_insert_eq; simpl;
    rewrite Hinner by reflexivity; simpl;
    eexists; (split; [reflexivity |]); auto.
Qed.

End StopNeverRun.

Section StopNeverRunExamples.

Import ThreadPool Launcher.

(** A standalone launcher, stealthy and without a plotting backend, and
    the pool of the workflow it is about to be bound to. *)
Definition unbound (stealthy : bool) : World :=
  snd (ThreadPool.__init__ 3 2048
         (mkProcess builtin_exit (handler_before 0) exit_None sigint_None
            [] ∅ 0 []
            (mkLauncher (mkArgs "" "" "" false stealthy "" "")
                        [] false None false false None None []))).

Definition bound (stealthy : bool) : World :=
  state_of (add_ref example_env (mkWorkflow 0 true) (unbound stealthy)).

(** C6 fails on the code. [stop] holds the launcher's lock, which is not
    re-entrant, while [_on_stop] shuts the workflow's pool down; the pool
    then calls the callback [add_ref] registered, [stop] itself, which
    waits for the lock for ever: the first of the two calls never
    returns. With status reporting on, the first call raises instead, on
    stopping a notification task that was never started; the second call
    then is the no-op. *)
Theorem C6_first_stop_never_returns :
  add_ref example_env (mkWorkflow 0 true) (unbound true) = Done (bound true)
  /\ _initialized (ext (bound true)) = true
  /\ _running (ext (bound true)) = false
  /\ (forall depth : nat,
        exists w, stop (S (S depth)) (bound true) = Blocked w
                  /\ _initialized (ext w) = false
                  /\ log w = [HooksInstalled; ShutdownerRun 0 LauncherStop])
  /\ add_ref example_env (mkWorkflow 0 true) (unbound false)
     = Done (bound false)
  /\ (forall depth : nat,
        exists w, stop (S depth) (bound false) = Raised AssertionError w
                  /\ _initialized (ext w) = false
                  /\ stop (S depth) w = Done w).
Proof.
  split; [reflexivity |]. split; [reflexivity |]. split; [reflexivity |].
  split; [| split; [reflexivity |]].
  - intros depth. eexists. split; [vm_compute; reflexivity |].
    split; reflexivity.
  - intros depth. eexists. split; [vm_compute; reflexivity |].
    split; [reflexivity |]. destruct depth; vm_compute; reflexivity.
Qed.

End StopNeverRunExamples.

(* ===================================================================== *)
(** * Shutting a pool down *)
(* ===================================================================== *)

Section Shutdown.

Import ThreadPool.

Context {C E : Type}.

(** The registered functions considered: each returns, and acts on the
    rest of the program only, as [effect] tells. *)
Variable effect : C -> E -> E.
Variable call : C -> Process C E -> outcome C E.
Hypothesis call_effect :
  forall cb w, call cb w = Done (set_ext (effect cb (ext w)) w).

(** The process after more events, with the pool [pid] and the rest of
    the program replaced. *)
Definition moved (pid : pool_id) (p : Pool C) (evs : list (event C)) (e : E)
  (w : Process C E) : Process C E :=
  mkProcess (sys_exit w) (sigint w) (sysexit_initial w) (sigint_initial w)
            (pools w) (<[pid := p]> (heap w)) (next_pool w) (log w ++ evs) e.

Definition effects (cbs : list C) (e : E) : E :=
  fold_left (fun e cb => effect cb e) cbs e.

Lemma moved_id (pid : pool_id) (p : Pool C) (w : Process C E) :
  heap w !! pid = Some p -> moved pid p [] (ext w) w = w.
Proof.
  intros H. destruct w. unfold moved. simpl in *.
  rewrite app_nil_r, insert_id by assumption. reflexivity.
Qed.

Lemma moved_moved (pid : pool_id) (p p' : Pool C) (evs evs' : list (event C))
  (e e' : E) (w : Process C E) :
  moved pid p' evs' e' (moved pid p evs e w)
  = moved pid p' (evs ++ evs') e' w.
Proof.
  unfold moved. simpl. now rewrite insert_insert_eq, app_assoc.
Qed.

(** The callbacks run in the order of the list, each once. *)
Lemma run_shutdowners_spec (pid : pool_id) (p : Pool C) :
  forall (n i : nat) (w : Process C E),
    heap w !! pid = Some p ->
    (i + n = length (on_shutdowns p))%nat ->
    run_shutdowners call pid n i w
    = Done (moved pid p (ShutdownerRun pid <$> drop i (on_shutdowns p))
                  (effects (drop i (on_shutdowns p)) (ext w)) w).
Proof.
  induction n as [| n IH]; intros i w Hp Hlen; simpl.
  - rewrite drop_ge by lia. simpl. now rewrite moved_id.
  - rewrite Hp. simpl.
    destruct (on_shutdowns p !! i) as [cb |] eqn:Hcb.
    2:{ apply lookup_ge_None in Hcb. lia. }
    rewrite call_effect. simpl.
    rewrite IH; [| exact Hp | lia]. simpl.
    rewrite (drop_S _ _ _ Hcb). simpl.
    f_equal. destruct w. unfold moved. simpl.
    now rewrite <- app_assoc.
Qed.

(** The stop signals: as many as the queue takes, at most one per counted
    worker; the callbacks, the threads and the flags of the pool stay. *)
Lemma stop_workers_spec (pid : pool_id) :
  forall (fuel : nat) (w : Process C E) (p : Pool C),
    heap w !! pid = Some p ->
    exists (k : nat) (p' : Pool C),
      let w' := moved pid p' (replicate k (StopSent pid (front_put p)))
                      (ext w) w in
      (stop_workers pid fuel w = Done w'
       \/ stop_workers pid fuel w = Blocked w')
      /\ on_shutdowns p' = on_shutdowns p
      /\ shutting_down p' = shutting_down p.
Proof.
  induction fuel as [| fuel IH]; intros w p Hp; simpl.
  - exists 0%nat, p. simpl. rewrite moved_id by assumption. auto.
  - rewrite Hp. destruct (workers p =? 0)%nat.
    { exists 0%nat, p. simpl. rewrite moved_id by assumption. auto. }
    unfold put.
    destruct ((0 <? q_maxsize p)%nat && (q_maxsize p <=? length (q p))%nat).
    { exists 0%nat, p. simpl. rewrite moved_id by assumption. auto. }
    set (p1 := set_workers _ _).
    set (w1 := add_log _ _).
    assert (heap w1 !! pid = Some p1) as Hp1.
    { subst w1. simpl. apply lookup_insert_eq. }
    destruct (IH w1 p1 Hp1) as (k & p' & Hk & Hcb & Hsd).
    exists (S k), p'. simpl in *.
    assert (moved pid p' (replicate k (StopSent pid (front_put p1))) (ext w1) w1
            = moved pid p'
                    (StopSent pid (front_put p)
                       :: replicate k (StopSent pid (front_put p))) (ext w) w)
      as Heq.
    { subst w1 p1. destruct w. unfold moved. simpl.
      rewrite insert_insert_eq, <- app_assoc. reflexivity. }
    rewrite <- Heq. split; [exact Hk |].
    subst p1. simpl in *. auto.
Qed.

(** With room in the queue every counted worker gets its signal; with
    [_put] rebound they pile up at the left of what was queued. *)
Lemma stop_workers_front (pid : pool_id) :
  forall (n : nat) (w : Process C E) (p : Pool C),
    heap w !! pid = Some p ->
    workers p = n ->
    front_put p = true ->
    (q_maxsize p = 0 \/ length (q p) + n <= q_maxsize p)%nat ->
    stop_workers pid n w
    = Done (moved pid
              (set_workers 0 (set_q (replicate n WorkerStop ++ q p) p))
              (replicate n (StopSent pid true)) (ext w) w).
Proof.
  induction n as [| n IH]; intros w p Hp Hw Hf Hroom; simpl.
  - rewrite <- Hw. destruct p; simpl in *.
    rewrite <- (moved_id pid _ w Hp) at 1. reflexivity.
  - rewrite Hp, Hw. simpl. unfold put.
    assert ((0 <? q_maxsize p)%nat && (q_maxsize p <=? length (q p))%nat
            = false) as ->.
    { apply andb_false_iff. destruct Hroom as [H0 | Hle].
      - left. apply Nat.ltb_ge. lia.
      - right. apply Nat.leb_gt. lia. }
    rewrite Hf. simpl.
    replace (workers p - 1)%nat with n by lia.
    rewrite (IH _ (set_workers n (set_q (WorkerStop :: q p) p))).
    + f_equal. destruct w, p. unfold moved. simpl in *.
      rewrite insert_insert_eq, <- app_assoc. simpl.
      unfold set_workers, set_q. simpl.
      do 2 f_equal.
      replace (replicate n WorkerStop ++ WorkerStop :: q0)
        with ((replicate n WorkerStop ++ [WorkerStop]) ++ q0)
        by (now rewrite <- app_assoc).
      rewrite <- replicate_S_end. reflexivity.
    + simpl. rewrite ?Nat.sub_0_r. apply lookup_insert_eq.
    + destruct p; simpl in *. lia.
    + destruct p; simpl in *. assumption.
    + destruct p; simpl in *. lia.
Qed.

Lemma join_threads_log (pid : pool_id) (force : bool) :
  forall (ts : list thread_id) (w : Process C E),
    join_threads pid ts force w
    = mkProcess (sys_exit w) (sigint w) (sysexit_initial w) (sigint_initial w)
                (pools w) (heap w) (next_pool w)
                (log w ++ ((fun t => Joined pid t force) <$> ts)) (ext w).
Proof.
  unfold join_threads.
  induction ts as [| t ts IH]; intros w; simpl.
  - destruct w; simpl. now rewrite app_nil_r.
  - rewrite IH. simpl. now rewrite <- app_assoc.
Qed.

Definition is_callback_event (e : event C) : bool :=
  match e with
  | ShutdownerRun _ _ => true
  | _ => false
  end.

Definition is_raised (o : outcome C E) : bool :=
  match o with
  | Raised _ _ => true
  | _ => false
  end.


(** What follows the stop signals in the log of a call that returns. *)
Definition is_join_event (e : event C) : Prop :=
  match e with
  | Joined _ _ _ | Destroyed _ => True
  | _ => False
  end.

(** C3. For a pool in the registry that is not shutting down, [shutdown]
    calls every registered function once, in the order of registration
    (they appear so in the log and act so on the rest of the program),
    before any stop signal is put, and leaves the list of callbacks
    empty; the call does not raise. On a pool that is not in the registry
    or is shutting down already it returns at once with the state as it
    was. *)
Theorem C3_shutdown_runs_callbacks_in_order (pid : pool_id)
  (execute_remaining force : bool) (w : Process C E) (p : Pool C) :
  heap w !! pid = Some p ->
  (in_registry pid w = true ->
   shutting_down p = false ->
   exists (k : nat) (tail : list (event C)) (p' : Pool C),
     let o := shutdown call pid execute_remaining force w in
     is_raised o = false
     /\ log (state_of o)
        = log w ++ (ShutdownerRun pid <$> on_shutdowns p)
                ++ replicate k (StopSent pid (if execute_remaining
                                              then front_put p else true))
                ++ tail
     /\ Forall is_join_event tail
     /\ ext (state_of o) = effects (on_shutdowns p) (ext w)
     /\ heap (state_of o) !! pid = Some p'
     /\ on_shutdowns p' = [])
  /\ (in_registry pid w = false \/ shutting_down p = true ->
      shutdown call pid execute_remaining force w = Done w).
Proof.
  intros Hp. split.
  - intros Hreg Hsd. unfold shutdown. rewrite Hp, Hreg, Hsd. simpl.
    set (p1 := set_shutting_down true p).
    set (w1 := set_pool pid p1 w).
    assert (heap w1 !! pid = Some p1) as Hp1 by apply lookup_insert_eq.
    rewrite (run_shutdowners_spec pid p1 _ 0 w1 Hp1) by reflexivity.
    simpl. rewrite lookup_insert_eq.
    set (p2 := if execute_remaining then _ else _).
    set (w2 := set_pool pid p2 _).
    assert (heap w2 !! pid = Some p2) as Hp2 by apply lookup_insert_eq.
    destruct (stop_workers_spec pid (workers p2) w2 p2 Hp2)
      as (k & p' & [Hk | Hk] & Hcb & Hsd').
    + exists k, (((fun t => Joined pid t force) <$> threads p)
                 ++ [Destroyed pid]), (set_shutting_down false p').
      rewrite Hk. simpl. rewrite join_threads_log. simpl.
      rewrite lookup_alter_eq, lookup_insert_eq. simpl.
      split; [reflexivity |]. split.
      { rewrite drop_0. subst p2 p1.
        destruct execute_remaining; simpl; now rewrite <- !app_assoc. }
      split.
      { apply Forall_app. split; [| repeat constructor].
        apply Forall_fmap, Forall_forall. intros; exact I. }
      split; [now rewrite drop_0 |]. split; [reflexivity |].
      simpl. rewrite Hcb. subst p2 p1. now destruct execute_remaining.
    + exists k, [], p'. rewrite Hk. simpl. rewrite lookup_insert_eq.
      split; [reflexivity |]. split.
      { rewrite drop_0, app_nil_r. subst p2 p1.
        destruct execute_remaining; simpl; now rewrite <- !app_assoc. }
      split; [constructor |].
      split; [now rewrite drop_0 |]. split; [reflexivity |].
      rewrite Hcb. subst p2 p1. now destruct execute_remaining.
  - intros H. unfold shutdown. rewrite Hp.
    destruct H as [-> | ->]; simpl; [reflexivity |].
    now rewrite orb_true_r.
Qed.

End Shutdown.

Section ShutdownExamples.

Import ThreadPool.

(** Callbacks that append their own number to a list. *)
Definition note (cb : nat) (e : list nat) : list nat := e ++ [cb].

Definition call_note (cb : nat) (w : Process nat (list nat))
  : outcome nat (list nat) :=
  Done (set_ext (note cb (ext w)) w).

(** A pool of two workers with the callbacks 7, 8, 9 registered. *)
Definition abc_pool : Process nat (list nat) :=
  register_on_shutdown 0 9
    (register_on_shutdown 0 8
       (register_on_shutdown 0 7
          (snd (__init__ 2 2048
                  (mkProcess builtin_exit (handler_before 0) exit_None
                             sigint_None [] ∅ 0 [] []))))).

Lemma C3_shutdown_runs_callbacks_in_order_witness :
  exists (k : nat) (tail : list (event nat)) (p' : Pool nat),
    is_raised (shutdown call_note 0 true false abc_pool) = false
    /\ log (state_of (shutdown call_note 0 true false abc_pool))
       = [HooksInstalled] ++ [ShutdownerRun 0 7; ShutdownerRun 0 8;
                              ShutdownerRun 0 9]
           ++ replicate k (StopSent 0 false) ++ tail
    /\ Forall is_join_event tail
    /\ ext (state_of (shutdown call_note 0 true false abc_pool)) = [7; 8; 9]
    /\ heap (state_of (shutdown call_note 0 true false abc_pool)) !! 0
       = Some p'
    /\ on_shutdowns p' = [].
Proof.
  apply (C3_shutdown_runs_callbacks_in_order note call_note
           (fun cb w => eq_refl) 0 true false abc_pool
           (mkPool [] 2048 false 2 [(0, 0); (0, 1)] [7; 8; 9] false false)
           eq_refl);
    reflexivity.
Defined.

Example shutdown_abc_log :
  log (state_of (shutdown call_note 0 true false abc_pool))
  = [HooksInstalled; ShutdownerRun 0 7; ShutdownerRun 0 8; ShutdownerRun 0 9;
     StopSent 0 false; StopSent 0 false;
     Joined 0 (0, 0) false; Joined 0 (0, 1) false; Destroyed 0].
Proof. vm_compute. reflexivity. Qed.

End ShutdownExamples.

(* ===================================================================== *)
(** * Stop signals and the tasks still queued *)
(* ===================================================================== *)

Section Workers.

Import ThreadPool.

Context {C E : Type}.

Lemma live_insert (ws : list wstate) :
  forall (i : nat) (old new : wstate),
    ws !! i = Some old ->
    (live (<[i := new]> ws) + (if is_live old then 1 else 0)
     = live ws + (if is_live new then 1 else 0))%nat.
Proof.
  unfold live.
  induction ws as [| a ws IH]; intros i old new Hi; [discriminate |].
  destruct i as [| i]; simpl in *.
  - inversion Hi; subst. destruct (is_live old), (is_live new); simpl; lia.
  - specialize (IH i old new Hi).
    destruct (is_live a); simpl; lia.
Qed.

Lemma live_waiting (ws : list wstate) (i : nat) (s : wstate) :
  ws !! i = Some s -> is_live s = true -> (1 <= live ws)%nat.
Proof.
  intros Hi Hs. pose proof (live_insert ws i s Exited Hi) as H.
  rewrite Hs in H. simpl in H. lia.
Qed.

(** All stop signals are in the queue, at its left, one per worker that
    has not left; [ts] are the tasks behind them, [st] the tasks started. *)
Definition drained (ts st : list nat) (c : conc C) : Prop :=
  workers (cpool c) = 0%nat
  /\ q (cpool c) = replicate (live (cworkers c)) WorkerStop ++ (Task <$> ts)
  /\ cstarted c = st.

Lemma drained_step (ts st : list nat) (c c' : conc C) :
  drained ts st c -> step c c' -> drained ts st c'.
Proof.
  intros (Hw & Hq & Hst) Hstep.
  destruct Hstep as [p p' ws s Hne Hput | p ws s i t r Hi Hhead
                     | p ws s i r Hi Hhead | p ws s i t Hi];
    simpl in *.
  - contradiction.
  - pose proof (live_waiting ws i Waiting Hi eq_refl) as Hl.
    destruct (live ws) as [| k]; [lia |].
    rewrite Hq in Hhead. discriminate.
  - pose proof (live_insert ws i Waiting Exited Hi) as Hl. simpl in Hl.
    destruct (live ws) as [| k]; [lia |].
    rewrite Hq in Hhead. simpl in Hhead. inversion Hhead; subst r.
    unfold drained. simpl. repeat split; auto.
    replace (live (<[i:=Exited]> ws)) with k by lia. reflexivity.
  - pose proof (live_insert ws i (Running t) Waiting Hi) as Hl. simpl in Hl.
    unfold drained. simpl. repeat split; auto.
    replace (live (<[i:=Waiting]> ws)) with (live ws) by lia. assumption.
Qed.

Lemma drained_steps (ts st : list nat) (c c' : conc C) :
  drained ts st c -> rtc step c c' -> drained ts st c'.
Proof.
  intros Hd Hsteps. induction Hsteps as [| c c1 c2 H1 _ IH]; [assumption |].
  apply IH. now apply (drained_step ts st c).
Qed.

(** Where [shutdown(execute_remaining=False)] stands at line 99: the
    callbacks have run and [_put] is rebound. *)
Definition at_line_99 (p : Pool C) : Pool C :=
  set_front_put true
    (set_joined true (set_on_shutdowns [] (set_shutting_down true p))).

Variable effect : C -> E -> E.
Variable call : C -> Process C E -> outcome C E.
Hypothesis call_effect :
  forall cb w, call cb w = Done (set_ext (effect cb (ext w)) w).

(** C4, as the code has it. With room in the queue,
    [shutdown(execute_remaining=False)] puts one stop signal per counted
    worker at the left of the queue, before the tasks queued at that
    time. Once they are all in, with as many workers in their loop as
    signals, every item a worker takes is a stop signal: in every
    interleaving that follows no further task is started, and the tasks
    stay in the queue. *)
Theorem C4_stop_signals_jump_the_queue (pid : pool_id) (force : bool)
  (w : Process C E) (p : Pool C) (ts : list nat) :
  heap w !! pid = Some p ->
  in_registry pid w = true ->
  shutting_down p = false ->
  q p = Task <$> ts ->
  (q_maxsize p = 0 \/ length ts + workers p <= q_maxsize p)%nat ->
  exists (w' : Process C E) (p' : Pool C),
    shutdown call pid false force w = Done w'
    /\ heap w' !! pid = Some p'
    /\ q p' = replicate (workers p) WorkerStop ++ (Task <$> ts)
    /\ workers p' = 0%nat
    /\ forall (ws : list wstate) (st : list nat) (c' : conc C),
         live ws = workers p ->
         rtc step (mkConc p' ws st) c' ->
         cstarted c' = st
         /\ q (cpool c')
            = replicate (live (cworkers c')) WorkerStop ++ (Task <$> ts).
Proof.
  intros Hp Hreg Hsd Hq Hroom.
  unfold shutdown. rewrite Hp, Hreg, Hsd. simpl.
  set (p1 := set_shutting_down true p).
  set (w1 := set_pool pid p1 w).
  assert (heap w1 !! pid = Some p1) as Hp1 by apply lookup_insert_eq.
  rewrite (run_shutdowners_spec effect call call_effect pid p1 _ 0 w1 Hp1)
    by reflexivity.
  simpl. rewrite lookup_insert_eq.
  change (set_front_put true (set_joined true (set_on_shutdowns [] p1)))
    with (at_line_99 p).
  set (w2 := set_pool pid (at_line_99 p) _).
  assert (heap w2 !! pid = Some (at_line_99 p)) as Hp2
    by apply lookup_insert_eq.
  change (workers p1) with (workers p). change (threads p1) with (threads p).
  rewrite (stop_workers_front pid (workers p) w2 (at_line_99 p) Hp2);
    [| reflexivity | reflexivity
     | simpl; rewrite Hq, length_fmap; exact Hroom].
  simpl. rewrite join_threads_log. simpl.
  eexists. eexists. split; [reflexivity |]. simpl.
  rewrite lookup_alter_eq, lookup_insert_eq. simpl.
  split; [reflexivity |]. simpl. rewrite Hq.
  split; [reflexivity |]. split; [reflexivity |].
  intros ws st c' Hlive Hsteps.
  match type of Hsteps with rtc step ?c0 _ =>
    assert (drained ts st c0) as Hd
  end.
  { unfold drained. simpl. rewrite ?Hq, Hlive. auto. }
  destruct (drained_steps ts st _ c' Hd Hsteps) as (_ & Hq' & Hst).
  auto.
Qed.

End Workers.

Section WorkersExamples.

Import ThreadPool.

(** A pool of two workers, both busy, with one task queued, where
    [shutdown(execute_remaining=False)] is about to put its signals. *)
Definition busy_pool : Pool nat :=
  at_line_99 (mkPool [Task 1] 2048 false 2 [(0, 0); (0, 1)] [] false false).

Definition busy : conc nat :=
  mkConc busy_pool [Running 10; Running 11] [10; 11].

(** C4 fails as stated: the signals go in one [put] at a time, and a
    worker may take an item in between. Here the first signal is put at
    the left, the first worker finishes and takes it, and the second
    worker finishes and takes the queued task 1 before the second signal
    is put: task 1, queued and not started when the shutdown began, is
    started all the same. *)
Lemma C4_queued_task_still_started :
  q busy_pool = [Task 1]
  /\ front_put busy_pool = true
  /\ exists c' : conc nat,
       rtc step busy c'
       /\ cstarted c' = [10; 11; 1]
       /\ cworkers c' = [Exited; Running 1]
       /\ workers (cpool c') = 1%nat.
Proof.
  split; [reflexivity |]. split; [reflexivity |].
  eexists. split.
  - eapply rtc_l.
    { apply (step_put_stop busy_pool
               (set_q [WorkerStop; Task 1] busy_pool));
        [discriminate | reflexivity]. }
    eapply rtc_l.
    { apply (step_finish _ _ _ 0%nat 10). reflexivity. }
    eapply rtc_l.
    { apply (step_take_stop _ _ _ 0%nat [Task 1]); reflexivity. }
    eapply rtc_l.
    { apply (step_finish _ _ _ 1%nat 11). reflexivity. }
    eapply rtc_l.
    { apply (step_take_task _ _ _ 1%nat 1 []); reflexivity. }
    apply rtc_refl.
  - simpl. auto.
Qed.

(** The pool of the callbacks 7, 8, 9 with two tasks waiting in its
    queue. *)
Definition queued_pool : Process nat (list nat) :=
  set_heap (alter (set_q [Task 1; Task 2]) 0 (heap abc_pool)) abc_pool.

Lemma C4_stop_signals_jump_the_queue_witness :
  exists (w' : Process nat (list nat)) (p' : Pool nat),
    shutdown call_note 0 false false queued_pool = Done w'
    /\ heap w' !! 0%nat = Some p'
    /\ q p' = replicate 2 WorkerStop ++ (Task <$> [1; 2])
    /\ workers p' = 0%nat
    /\ forall (ws : list wstate) (st : list nat) (c' : conc nat),
         live ws = 2%nat ->
         rtc step (mkConc p' ws st) c' ->
         cstarted c' = st
         /\ q (cpool c')
            = replicate (live (cworkers c')) WorkerStop
              ++ (Task <$> [1; 2]).
Proof.
  apply (C4_stop_signals_jump_the_queue note call_note
           (fun cb w => eq_refl) 0 false queued_pool
           (mkPool [Task 1; Task 2] 2048 false 2 [(0, 0); (0, 1)] [7; 8; 9]
                   false false)
           [1; 2] eq_refl eq_refl eq_refl eq_refl).
  right. simpl. lia.
Defined.

(** The two signals stand before the two tasks. *)
Example queued_pool_after_shutdown :
  q <$> heap (state_of (shutdown call_note 0 false false queued_pool)) !! 0%nat
  = Some [WorkerStop; WorkerStop; Task 1; Task 2].
Proof. vm_compute. reflexivity. Qed.

End WorkersExamples.

(* ===================================================================== *)
(** * Node entries and the remote launches they stand for *)
(* ===================================================================== *)

Section NodeEntries.

Import Launcher.

Fixpoint all_chars (P : ascii -> bool) (s : string) : bool :=
  match s with
  | EmptyString => true
  | String c r => P c && all_chars P r
  end.

Definition is_digit (c : ascii) : bool :=
  ((48 <=? nat_of_ascii c) && (nat_of_ascii c <=? 57))%nat.

(** [c] does not occur in [s]. *)
Definition lacks (c : ascii) (s : string) : bool :=
  all_chars (fun a => negb (Ascii.eqb a c)) s.

(** A node entry, written out: [host/platform:min[-max][xmultiplier]]. *)
Definition range_part (dmin : nat) (dmax : option nat) : string :=
  match dmax with
  | None => fmt_d (Z.of_nat dmin)
  | Some m => fmt_d (Z.of_nat dmin) +:+ String "-" (fmt_d (Z.of_nat m))
  end.

Definition core_part (platform dmin : nat) (dmax : option nat) : string :=
  fmt_d (Z.of_nat platform) +:+ String ":" (range_part dmin dmax).

Definition devs_part (platform dmin : nat) (dmax mult : option nat) : string :=
  match mult with
  | None => core_part platform dmin dmax
  | Some k => core_part platform dmin dmax +:+ String "x" (fmt_d (Z.of_nat k))
  end.

Definition node_entry (host : string) (platform dmin : nat)
  (dmax mult : option nat) : string :=
  host +:+ String "/" (devs_part platform dmin dmax mult).

Lemma all_chars_app (P : ascii -> bool) (s1 s2 : string) :
  all_chars P (s1 +:+ s2) = all_chars P s1 && all_chars P s2.
Proof.
  induction s1 as [| c s1 IH]; simpl; [reflexivity |].
  now rewrite IH, andb_assoc.
Qed.

Lemma all_chars_impl (P Q : ascii -> bool) (s : string) :
  (forall c, P c = true -> Q c = true) ->
  all_chars P s = true -> all_chars Q s = true.
Proof.
  intros HPQ. induction s as [| c s IH]; simpl; [reflexivity |].
  intros H. apply andb_true_iff in H as [H1 H2].
  rewrite (HPQ c H1), IH by assumption. reflexivity.
Qed.

Lemma digits_lack (c : ascii) (s : string) :
  is_digit c = false -> all_chars is_digit s = true -> lacks c s = true.
Proof.
  intros Hc. apply all_chars_impl. intros a Ha.
  destruct (Ascii.eqb_spec a c) as [-> |]; [congruence | reflexivity].
Qed.

Lemma split_lacks (c : ascii) (s : string) :
  lacks c s = true -> split c s = [s].
Proof.
  induction s as [| a s IH]; simpl; [reflexivity |].
  intros H. apply andb_true_iff in H as [H1 H2].
  apply negb_true_iff in H1. rewrite H1, (IH H2). reflexivity.
Qed.

Lemma split_at (c : ascii) (s1 s2 : string) :
  lacks c s1 = true -> split c (s1 +:+ String c s2) = s1 :: split c s2.
Proof.
  induction s1 as [| a s1 IH]; simpl.
  - intros _. now rewrite Ascii.eqb_refl.
  - intros H. apply andb_true_iff in H as [H1 H2].
    apply negb_true_iff in H1. rewrite H1, (IH H2). reflexivity.
Qed.

Lemma uint_digits (u : Decimal.uint) :
  all_chars is_digit (NilEmpty.string_of_uint u) = true.
Proof. induction u; simpl; auto. Qed.

(** ["%d"] of a natural number: a non-empty string of digits that reads
    back as the number. *)
Lemma fmt_d_nat (n : nat) :
  exists u : Decimal.uint,
    fmt_d (Z.of_nat n) = NilEmpty.string_of_uint u
    /\ u <> Decimal.Nil
    /\ Z.of_uint u = Z.of_nat n.
Proof.
  unfold fmt_d. pose proof (DecimalZ.of_to (Z.of_nat n)) as Hz.
  destruct (Z.of_nat n) as [| p | p] eqn:E; try lia; simpl in *.
  - exists (Decimal.D0 Decimal.Nil). repeat split; congruence.
  - exists (Pos.to_uint p). repeat split.
    + pose proof (DecimalPos.Unsigned.to_uint_nonnil p).
      now destruct (Pos.to_uint p).
    + apply DecimalPos.Unsigned.to_uint_nonnil.
    + exact Hz.
Qed.

Lemma fmt_d_digits (n : nat) : all_chars is_digit (fmt_d (Z.of_nat n)) = true.
Proof.
  destruct (fmt_d_nat n) as (u & -> & _). apply uint_digits.
Qed.

Lemma lstrip_id (s : string) :
  all_chars (fun c => negb (is_space c)) s = true -> lstrip s = s.
Proof.
  destruct s as [| c s]; simpl; [reflexivity |].
  intros H. apply andb_true_iff in H as [H _].
  apply negb_true_iff in H. now rewrite H.
Qed.

Lemma rstrip_id (s : string) :
  all_chars (fun c => negb (is_space c)) s = true -> rstrip s = s.
Proof.
  induction s as [| c s IH]; simpl; [reflexivity |].
  intros H. apply andb_true_iff in H as [H1 H2].
  apply negb_true_iff in H1. rewrite (IH H2), H1. now destruct s.
Qed.

Lemma digit_cases (c : ascii) :
  is_digit c = true ->
  is_space c = false /\ c <> "-"%char /\ c <> "+"%char.
Proof.
  destruct c as [[|] [|] [|] [|] [|] [|] [|] [|]];
    vm_compute; intros H; try discriminate H;
    repeat split; discriminate.
Qed.

(** [int] of a non-empty string of digits is the number it spells. *)
Lemma int_digits (u : Decimal.uint) :
  u <> Decimal.Nil ->
  int (NilEmpty.string_of_uint u) = Ok (Z.of_uint u).
Proof.
  intros Hu. unfold int, strip.
  assert (all_chars (fun c => negb (is_space c)) (NilEmpty.string_of_uint u)
          = true) as Hs.
  { apply (all_chars_impl is_digit); [| apply uint_digits].
    intros c Hc. destruct (digit_cases c Hc) as (-> & _). reflexivity. }
  rewrite (lstrip_id _ Hs), (rstrip_id _ Hs).
  pose proof (uint_digits u) as Hd.
  pose proof (NilEmpty.usu u) as Hparse.
  destruct (NilEmpty.string_of_uint u) as [| c r] eqn:E.
  { destruct u; simpl in E; congruence. }
  simpl in Hd. apply andb_true_iff in Hd as [Hc _].
  match goal with
  | |- ?lhs = _ => assert (lhs = digits_value (String c r)) as ->
  end.
  { clear - Hc.
    destruct c as [[|] [|] [|] [|] [|] [|] [|] [|]];
      try reflexivity; vm_compute in Hc; discriminate Hc. }
  unfold digits_value. now rewrite Hparse.
Qed.

Lemma int_fmt_d (n : nat) : int (fmt_d (Z.of_nat n)) = Ok (Z.of_nat n).
Proof.
  destruct (fmt_d_nat n) as (u & -> & Hu & <-). now apply int_digits.
Qed.

Lemma lacks_fmt_d (c : ascii) (n : nat) :
  is_digit c = false -> lacks c (fmt_d (Z.of_nat n)) = true.
Proof. intros H. apply digits_lack; [exact H | apply fmt_d_digits]. Qed.

Lemma lacks_app (c : ascii) (s1 s2 : string) :
  lacks c (s1 +:+ s2) = lacks c s1 && lacks c s2.
Proof. apply all_chars_app. Qed.

Lemma lacks_cons (c a : ascii) (s : string) :
  lacks c (String a s) = negb (Ascii.eqb a c) && lacks c s.
Proof. reflexivity. Qed.

Ltac lacks_tac :=
  unfold devs_part, core_part, range_part;
  repeat match goal with
         | |- context [match ?o with Some _ => _ | None => _ end] =>
             destruct o
         end;
  repeat (rewrite lacks_app || rewrite lacks_cons
          || rewrite lacks_fmt_d by reflexivity);
  reflexivity.

(** Lines 344-357 on a written-out entry. *)
Lemma parse_node_entry (host : string) (platform dmin : nat)
  (dmax mult : option nat) :
  lacks "/" host = true ->
  parse_node (node_entry host platform dmin dmax mult)
  = Ok (mkNode host (Z.of_nat (default 1%nat mult)) (Z.of_nat platform)
               (Z.of_nat dmin) (Z.of_nat (default dmin dmax))).
Proof.
  intros Hhost. unfold parse_node, node_entry.
  rewrite (split_at "/" host _ Hhost).
  rewrite (split_lacks "/" (devs_part platform dmin dmax mult))
    by lacks_tac.
  assert (split ":" (core_part platform dmin dmax)
          = [fmt_d (Z.of_nat platform); range_part dmin dmax]) as Hcore.
  { unfold core_part. rewrite (split_at ":") by lacks_tac.
    rewrite (split_lacks ":" (range_part dmin dmax)) by lacks_tac.
    reflexivity. }
  assert (forall k : Z,
            (oclpnum ← int (fmt_d (Z.of_nat platform));
             let ocldevarr := split "-" (range_part dmin dmax) in
             ocldevmin ← int (hd "" ocldevarr);
             ocldevmax ← match ocldevarr with
                         | _ :: m :: _ => int m
                         | _ => Ok ocldevmin
                         end;
             Ok (mkNode host k oclpnum ocldevmin ocldevmax))
            = Ok (mkNode host k (Z.of_nat platform) (Z.of_nat dmin)
                         (Z.of_nat (default dmin dmax)))) as Hrest.
  { intros k. rewrite int_fmt_d. simpl.
    destruct dmax as [m |]; unfold range_part.
    - rewrite (split_at "-") by lacks_tac.
      rewrite (split_lacks "-" (fmt_d (Z.of_nat m))) by lacks_tac. simpl.
      now rewrite !int_fmt_d.
    - rewrite (split_lacks "-" (fmt_d (Z.of_nat dmin))) by lacks_tac. simpl.
      now rewrite int_fmt_d. }
  destruct mult as [k |]; unfold devs_part.
  - rewrite (split_at "x") by lacks_tac.
    rewrite (split_lacks "x" (fmt_d (Z.of_nat k))) by lacks_tac.
    rewrite int_fmt_d. simpl. rewrite Hcore. apply Hrest.
  - rewrite (split_lacks "x" (core_part platform dmin dmax)) by lacks_tac.
    simpl. rewrite Hcore. apply Hrest.
Qed.

Lemma range_nat (a n : nat) :
  range (Z.of_nat a) (Z.of_nat a + Z.of_nat n)
  = Z.of_nat <$> seq a n.
Proof.
  unfold range.
  replace (Z.to_nat (Z.of_nat a + Z.of_nat n - Z.of_nat a)) with n by lia.
  replace (seq a n) with (seq (a + 0) n) by (f_equal; lia).
  rewrite <- (fmap_add_seq a 0 n), <- list_fmap_compose.
  apply list_fmap_ext. intros _ i _. simpl. lia.
Qed.

(** The launches of one entry: every repetition goes through the
    devices of the range, in order. *)
Definition expected_launches (prog args host : string)
  (platform dmin dmax mult : nat) : list levent :=
  _ ← seq 0 mult;
  d ← seq dmin (dmax + 1 - dmin);
  [RemoteLaunch host
     (prog +:+ " " +:+ args +:+ " -d " +:+ fmt_d (Z.of_nat platform)
           +:+ ":" +:+ fmt_d (Z.of_nat d))].

Lemma bind_fmap_list {A B D : Type} (f : A -> B) (g : B -> list D)
  (l : list A) :
  (f <$> l) ≫= g = l ≫= (fun x => g (f x)).
Proof.
  induction l as [| x l IH]; [reflexivity |].
  rewrite fmap_cons, !bind_cons. now rewrite IH.
Qed.

Lemma length_bind_const {A B : Type} (f : A -> list B) (n : nat)
  (l : list A) :
  (forall x, length (f x) = n) -> length (l ≫= f) = (length l * n)%nat.
Proof.
  intros Hf. induction l as [| x l IH]; [reflexivity |].
  rewrite bind_cons, length_app, Hf, IH. simpl. lia.
Qed.

Lemma node_launches_nat (prog args host : string)
  (platform dmin dmax mult : nat) :
  node_launches prog args
    (mkNode host (Z.of_nat mult) (Z.of_nat platform) (Z.of_nat dmin)
            (Z.of_nat dmax))
  = expected_launches prog args host platform dmin dmax mult.
Proof.
  unfold node_launches, expected_launches. simpl.
  assert (range 0 (Z.of_nat mult) = Z.of_nat <$> seq 0 mult) as ->.
  { apply (range_nat 0 mult). }
  assert (range (Z.of_nat dmin) (Z.of_nat dmax + 1)
          = Z.of_nat <$> seq dmin (dmax + 1 - dmin)) as ->.
  { destruct (le_lt_dec dmin (dmax + 1)) as [Hle | Hlt].
    - rewrite <- range_nat. f_equal. lia.
    - unfold range.
      replace (Z.to_nat (Z.of_nat dmax + 1 - Z.of_nat dmin)) with 0%nat
        by lia.
      replace (dmax + 1 - dmin)%nat with 0%nat by lia. reflexivity. }
  rewrite bind_fmap_list. apply list_bind_ext; [| reflexivity].
  intros _. now rewrite bind_fmap_list.
Qed.

Lemma length_expected_launches (prog args host : string)
  (platform dmin dmax mult : nat) :
  length (expected_launches prog args host platform dmin dmax mult)
  = (mult * (dmax + 1 - dmin))%nat.
Proof.
  unfold expected_launches.
  rewrite (length_bind_const _ (dmax + 1 - dmin)).
  - now rewrite length_seq.
  - intros _. rewrite (length_bind_const _ 1).
    + rewrite length_seq. lia.
    + reflexivity.
Qed.

(** C8. A master whose node list is the one entry
    [host/platform:min[-max][xmultiplier]] (the maximum defaulting to the
    minimum, the multiplier to 1) launches on that host, for every
    repetition and every device of the inclusive range in order, one
    remote process whose command ends in [-d platform:device]:
    multiplier x (max - min + 1) launches for a range that is not empty,
    none for an empty one. *)
Theorem C8_node_expansion (env : Env) (l : Launcher) (host : string)
  (platform dmin : nat) (dmax mult : option nat) (i : nat) :
  lacks "/" host = true ->
  index ":" (listen_address (args l)) = Ok i ->
  _slaves l = [node_entry host platform dmin dmax mult] ->
  exists sargs : string,
    slave_args env l = Ok sargs
    /\ _launch_nodes env l
       = (emit (expected_launches (abspath env (argv0 env)) sargs host
                  platform dmin (default dmin dmax) (default 1%nat mult)) l,
          None)
    /\ length (expected_launches (abspath env (argv0 env)) sargs host
                 platform dmin (default dmin dmax) (default 1%nat mult))
       = (default 1%nat mult * (default dmin dmax + 1 - dmin))%nat.
Proof.
  intros Hhost Hidx Hslaves.
  assert (is_master l = true) as Hmaster.
  { unfold is_master. destruct (listen_address (args l)); [| reflexivity].
    discriminate Hidx. }
  unfold _launch_nodes, slaves. rewrite Hmaster, Hslaves.
  unfold slave_args. rewrite Hidx. simpl.
  eexists. split; [reflexivity |].
  rewrite (parse_node_entry host platform dmin dmax mult Hhost).
  rewrite node_launches_nat.
  split; [reflexivity | apply length_expected_launches].
Qed.

End NodeEntries.

Section NodeEntriesExamples.

Import Launcher.

(** A master listening on every interface, with the given node list. *)
Definition master_with (nodes : string) : Launcher :=
  match __init__ example_env
             (mkArgs "" "0.0.0.0:5000" "" false true nodes "") with
  | Ok l => l
  | Raise _ => mkLauncher (mkArgs "" "" "" false false "" "")
                          [] false None false false None None []
  end.

Lemma C8_node_expansion_witness :
  exists sargs : string,
    slave_args example_env (master_with "host/0:2-3x3") = Ok sargs
    /\ _launch_nodes example_env (master_with "host/0:2-3x3")
       = (emit (expected_launches "/opt/veles.py" sargs "host" 0 2 3 3)
               (master_with "host/0:2-3x3"), None)
    /\ length (expected_launches "/opt/veles.py" sargs "host" 0 2 3 3)
       = 6%nat.
Proof.
  apply (C8_node_expansion example_env (master_with "host/0:2-3x3") "host"
           0 2 (Some 3%nat) (Some 3%nat) 7);
    reflexivity.
Defined.

Example launches_one_device :
  events (fst (_launch_nodes example_env (master_with "host/0:0")))
  = [RemoteLaunch "host" "/opt/veles.py wf.py -m master1:5000 -b -d 0:0"].
Proof. vm_compute. reflexivity. Qed.

Example launches_device_range :
  events (fst (_launch_nodes example_env (master_with "host/1:0-2")))
  = [RemoteLaunch "host" "/opt/veles.py wf.py -m master1:5000 -b -d 1:0";
     RemoteLaunch "host" "/opt/veles.py wf.py -m master1:5000 -b -d 1:1";
     RemoteLaunch "host" "/opt/veles.py wf.py -m master1:5000 -b -d 1:2"].
Proof. vm_compute. reflexivity. Qed.

Example launches_range_repeated :
  events (fst (_launch_nodes example_env (master_with "host/0:2-3x3")))
  = [RemoteLaunch "host" "/opt/veles.py wf.py -m master1:5000 -b -d 0:2";
     RemoteLaunch "host" "/opt/veles.py wf.py -m master1:5000 -b -d 0:3";
     RemoteLaunch "host" "/opt/veles.py wf.py -m master1:5000 -b -d 0:2";
     RemoteLaunch "host" "/opt/veles.py wf.py -m master1:5000 -b -d 0:3";
     RemoteLaunch "host" "/opt/veles.py wf.py -m master1:5000 -b -d 0:2";
     RemoteLaunch "host" "/opt/veles.py wf.py -m master1:5000 -b -d 0:3"].
Proof. vm_compute. reflexivity. Qed.

(** A range written backwards is empty: nothing is launched. *)
Example launches_empty_range :
  events (fst (_launch_nodes example_env (master_with "host/0:3-1"))) = [].
Proof. vm_compute. reflexivity. Qed.

(** A malformed entry raises after the entries before it were launched. *)
Example launches_before_malformed :
  _launch_nodes example_env (master_with "a/0:0,b")
  = (emit [RemoteLaunch "a" "/opt/veles.py wf.py -m master1:5000 -b -d 0:0"]
          (master_with "a/0:0,b"), Some ValueError).
Proof. vm_compute. reflexivity. Qed.

End NodeEntriesExamples.

(* ===================================================================== *)
(** * Ratings after a benchmarking pass *)
(* ===================================================================== *)

Section Ratings.

Import OpenCL.

Variable dtypes : list string.

Lemma getitem_Ok {V} (d : gmap string V) (k : string) (v : V) :
  getitem d k = Ok v <-> d !! k = Some v.
Proof.
  unfold getitem. destruct (d !! k); split; congruence.
Qed.

Lemma py_div_Ok (a b r : float) :
  py_div a b = Ok r <-> PrimFloat.eqb b 0 = false /\ r = (a / b)%float.
Proof.
  unfold py_div. destruct (PrimFloat.eqb b 0); split.
  - discriminate.
  - intros [? _]; discriminate.
  - intros H; inversion H; auto.
  - intros [_ ->]; reflexivity.
Qed.

Lemma bind_Ok {A B} (c : result A) (f : A -> result B) (b : B) :
  c ≫= f = Ok b <-> exists a, c = Ok a /\ f a = Ok b.
Proof.
  destruct c as [a | e]; simpl; split.
  - eauto.
  - intros (a' & Ha & Hf). now inversion Ha; subst.
  - discriminate.
  - intros (a' & Ha & _). discriminate.
Qed.

(** What the rating loop does to one device: the types of the list get
    their rating and minimum time, everything else stays. *)
Lemma rate_device_spec (m : gmap string float) :
  forall (ts : list string) (d d' : DeviceInfo),
    rate_device m ts d = Ok d' ->
    dt d' = dt d /\ desc d' = desc d /\ BLOCK_SIZE d' = BLOCK_SIZE d
    /\ (forall t, t ∉ ts -> rating d' !! t = rating d !! t
                            /\ min_dt d' !! t = min_dt d !! t)
    /\ (forall t, t ∈ ts ->
          exists a own : float,
            m !! t = Some a /\ dt d !! t = Some own
            /\ PrimFloat.eqb own 0 = false
            /\ rating d' !! t = Some (a / own)%float
            /\ min_dt d' !! t = Some a).
Proof.
  induction ts as [| t ts IH]; intros d d' H; simpl in H.
  - inversion H; subst. repeat split; auto. intros t Ht. inversion Ht.
  - apply bind_Ok in H as (a & Ha & H). apply getitem_Ok in Ha.
    apply bind_Ok in H as (own & Hown & H). apply getitem_Ok in Hown.
    apply bind_Ok in H as (rt & Hrt & H). apply py_div_Ok in Hrt as [Hz ->].
    apply bind_Ok in H as (old & _ & H).
    destruct (IH _ _ H) as (Hdt & Hdesc & Hbs & Hframe & Hin).
    simpl in *.
    split; [exact Hdt |]. split; [exact Hdesc |]. split; [exact Hbs |]. split.
    + intros t' Ht'. apply not_elem_of_cons in Ht' as [Hne Ht'].
      destruct (Hframe t' Ht') as [-> ->].
      now rewrite !lookup_insert_ne by congruence.
    + intros t' Ht'.
      destruct (decide (t' ∈ ts)) as [Hts | Hts].
      * destruct (Hin t' Hts) as (a' & own' & ? & ? & ? & ? & ?).
        exists a', own'. auto.
      * apply elem_of_cons in Ht' as [-> | Ht']; [| contradiction].
        destruct (Hframe t Hts) as [Hr Hm].
        rewrite lookup_insert_eq in Hr, Hm.
        exists a, own. auto.
Qed.

(** The same for every device of the cache, which keeps its keys. *)
Lemma rate_all_spec (m : gmap string float) :
  forall (d d' : dict),
    rate_all dtypes m d = Ok d' ->
    Forall2 (fun e e' => e.1 = e'.1
                         /\ rate_device m dtypes e.2 = Ok e'.2) d d'.
Proof.
  induction d as [| [k v] d IH]; intros d' H; simpl in H.
  - inversion H. constructor.
  - apply bind_Ok in H as (v' & Hv & H).
    apply bind_Ok in H as (r' & Hr & H). inversion H; subst.
    constructor; [simpl; auto | now apply IH].
Qed.

(** The smaller of the running minimum [m] and a new time [x], as the
    code compares them: [if x < m: m = x]. *)
Definition lower (m x : float) : float :=
  if PrimFloat.ltb x m then x else m.

(** What the sweep keeps for one type [t]: whether its CPU reference
    exists, [dt_numpy[t]], [min_dt[t]], and the device's own [dt[t]]. *)
Record view : Type := mkView {
  v_seen : bool;
  v_numpy : option float;
  v_cur : option float;
  v_own : option float
}.

Definition view_of (self t : string) (s : Sweep) : view :=
  mkView (bool_decide (t ∈ cc s)) (dt_numpy s !! t) (cur_min_dt s !! t)
         (dict_lookup self (infos s) ≫= fun me => dt me !! t).

(** The CPU reference enters once, through [dt_numpy]. *)
Definition view_cpu (x : float) (v : view) : view :=
  if v_seen v then v
  else
    let n := (fun n => lower n x) <$> v_numpy v in
    mkView true n (c ← v_cur v; n ← n; Some (lower c n)) (v_own v).

Definition view_dev (x : option float) (v : view) : view :=
  match x with
  | None => v
  | Some x => mkView (v_seen v) (v_numpy v) ((fun c => lower c x) <$> v_cur v)
                     ((fun o => lower o x) <$> v_own v)
  end.

Definition view_step (ms : Measure) (t : string) (v : view)
  (job : Z * string) : view :=
  if decide (job.2 = t)
  then view_dev (dev_time ms job.1 t) (view_cpu (cpu_time ms job.1 t) v)
  else v.

Lemma dict_lookup_set_eq (k : string) (v : DeviceInfo) (d : dict) :
  dict_lookup k (dict_set k v d) = Some v.
Proof.
  induction d as [| [k' v'] d IH]; simpl.
  - now rewrite String.eqb_refl.
  - destruct (String.eqb k k') eqn:E; simpl; rewrite ?E, ?String.eqb_refl;
      auto.
Qed.

Lemma dict_get_Ok (k : string) (d : dict) (v : DeviceInfo) :
  dict_get k d = Ok v <-> dict_lookup k d = Some v.
Proof. unfold dict_get. destruct (dict_lookup k d); split; congruence. Qed.

Lemma cpu_part_view (self : string) (ms : Measure) (bs : Z)
  (t' t : string) (s s' : Sweep) :
  cpu_part ms bs t' s = Ok s' ->
  infos s' = infos s
  /\ view_of self t s'
     = if decide (t' = t) then view_cpu (cpu_time ms bs t) (view_of self t s)
       else view_of self t s.
Proof.
  unfold cpu_part. destruct (decide (t' ∈ cc s)) as [Hin | Hin].
  - intros H; inversion H; subst s'. split; [reflexivity |].
    destruct (decide (t' = t)) as [-> |]; [| reflexivity].
    unfold view_cpu, view_of. simpl. now rewrite bool_decide_eq_true_2.
  - intros H.
    apply bind_Ok in H as (n & Hn & H). apply getitem_Ok in Hn.
    apply bind_Ok in H as (n' & Hn' & H). apply getitem_Ok in Hn'.
    apply bind_Ok in H as (m & Hm & H). apply getitem_Ok in Hm.
    inversion H; subst s'. simpl. split; [reflexivity |].
    assert (n' = lower n (cpu_time ms bs t')) as ->.
    { unfold lower. destruct (PrimFloat.ltb (cpu_time ms bs t') n).
      - rewrite lookup_insert_eq in Hn'. congruence.
      - congruence. }
    destruct (decide (t' = t)) as [-> | Hne].
    + unfold view_cpu, view_of. simpl.
      rewrite (bool_decide_eq_false_2 _ Hin), Hn, Hm. simpl.
      rewrite bool_decide_eq_true_2 by set_solver.
      f_equal.
      * unfold lower. destruct (PrimFloat.ltb (cpu_time ms bs t) n);
          [apply lookup_insert_eq | exact Hn].
      * unfold lower at 2.
        destruct (PrimFloat.ltb _ m) eqn:E.
        -- rewrite lookup_insert_eq. unfold lower at 1. now rewrite E.
        -- rewrite Hm. unfold lower at 1. now rewrite E.
    + unfold view_of. simpl. f_equal.
      * apply bool_decide_ext. rewrite elem_of_union, elem_of_singleton.
        intuition congruence.
      * destruct (PrimFloat.ltb _ n); [| reflexivity].
        now rewrite lookup_insert_ne.
      * destruct (PrimFloat.ltb _ m); [| reflexivity].
        now rewrite lookup_insert_ne.
Qed.

Lemma dev_part_view (self : string) (bs : Z) (t' t : string) (x : float)
  (s s' : Sweep) :
  dev_part self bs t' x s = Ok s' ->
  view_of self t s'
  = if decide (t' = t) then view_dev (Some x) (view_of self t s)
    else view_of self t s.
Proof.
  unfold dev_part. intros H.
  apply bind_Ok in H as (me & Hme & H). apply dict_get_Ok in Hme.
  apply bind_Ok in H as (own & Hown & H). apply getitem_Ok in Hown.
  apply bind_Ok in H as (m & Hm & H). apply getitem_Ok in Hm.
  apply bind_Ok in H as (c & _ & H).
  destruct (decide (_ ∈ cc s)); [| discriminate].
  inversion H; subst s'.
  unfold view_of. simpl. rewrite dict_lookup_set_eq, Hme. simpl.
  destruct (decide (t' = t)) as [-> | Hne].
  - unfold view_dev. simpl. rewrite Hm, Hown. simpl. f_equal.
    + unfold lower. destruct (PrimFloat.ltb x m);
        [apply lookup_insert_eq | exact Hm].
    + unfold lower. destruct (PrimFloat.ltb x own); simpl;
        [apply lookup_insert_eq | exact Hown].
  - f_equal.
    + destruct (PrimFloat.ltb x m); [| reflexivity].
      now rewrite lookup_insert_ne.
    + destruct (PrimFloat.ltb x own); simpl; [| reflexivity].
      now rewrite lookup_insert_ne.
Qed.

(** One job of the sweep moves the view of [t] by [view_step]. *)
Lemma test_one_view (self : string) (ms : Measure) (t : string)
  (s s' : Sweep) (job : Z * string) :
  test_one self ms s job = Ok s' ->
  view_of self t s' = view_step ms t (view_of self t s) job.
Proof.
  destruct job as [bs t']. unfold test_one, view_step. simpl. intros H.
  apply bind_Ok in H as (s1 & H1 & H).
  destruct (cpu_part_view self ms bs t' t s s1 H1) as [_ Hv1].
  destruct (dev_time ms bs t') as [x |] eqn:Hx.
  - rewrite (dev_part_view self bs t' t x s1 s' H), Hv1.
    destruct (decide (t' = t)) as [-> |]; [now rewrite Hx | reflexivity].
  - inversion H; subst s'. rewrite Hv1.
    destruct (decide (t' = t)) as [-> |]; [now rewrite Hx | reflexivity].
Qed.

Lemma run_jobs_view (self : string) (ms : Measure) (t : string) :
  forall (l : list (Z * string)) (s s' : Sweep),
    run_jobs self ms l s = Ok s' ->
    view_of self t s' = fold_left (view_step ms t) l (view_of self t s).
Proof.
  induction l as [| j l IH]; intros s s' H; simpl in H.
  - now inversion H.
  - apply bind_Ok in H as (s1 & H1 & H). simpl.
    rewrite (IH _ _ H). f_equal. now apply test_one_view.
Qed.

Lemma fold_left_bind {A B S : Type} (f : S -> B -> S) (g : A -> list B) :
  forall (l : list A) (v : S),
    fold_left f (l ≫= g) v = fold_left (fun v x => fold_left f (g x) v) l v.
Proof.
  induction l as [| x l IH]; intros v; [reflexivity |].
  rewrite bind_cons, fold_left_app. simpl. apply IH.
Qed.

Lemma fold_left_pointwise {A S : Type} (f g : S -> A -> S) :
  (forall v x, f v x = g v x) ->
  forall (l : list A) (v : S), fold_left f l v = fold_left g l v.
Proof.
  intros Hfg. induction l as [| x l IH]; intros v; [reflexivity |].
  simpl. now rewrite Hfg, IH.
Qed.

(** Among the jobs of one block size only the one of type [t] counts. *)
Lemma fold_types (ms : Measure) (t : string) (bs : Z) :
  forall (ts : list string) (v : view),
    NoDup ts ->
    fold_left (view_step ms t) ((fun t' => (bs, t')) <$> ts) v
    = if decide (t ∈ ts) then view_step ms t v (bs, t) else v.
Proof.
  induction ts as [| t' ts IH]; intros v Hnd.
  - simpl. destruct (decide (t ∈ [])) as [Hin |];
      [inversion Hin | reflexivity].
  - apply NoDup_cons in Hnd as [Hnotin Hnd]. simpl. rewrite (IH _ Hnd).
    destruct (decide (t' = t)) as [-> | Hne].
    + rewrite decide_False by assumption.
      rewrite decide_True by (left). reflexivity.
    + assert (view_step ms t v (bs, t') = v) as ->.
      { unfold view_step. simpl. now rewrite decide_False. }
      destruct (decide (t ∈ ts)) as [Hin | Hin].
      * rewrite decide_True by (now right). reflexivity.
      * rewrite decide_False; [reflexivity |].
        intros [? | ?]%elem_of_cons; congruence.
Qed.

(** Once the CPU reference exists, only accelerator times come in. *)
Lemma fold_seen (ms : Measure) (t : string) :
  forall (bss : list Z) (n c o : option float),
    fold_left (fun v bs => view_step ms t v (bs, t)) bss (mkView true n c o)
    = let devs := omap (fun bs => dev_time ms bs t) bss in
      mkView true n ((fun c => fold_left lower devs c) <$> c)
             ((fun o => fold_left lower devs o) <$> o).
Proof.
  induction bss as [| bs bss IH]; intros n c o; simpl.
  - now destruct c, o.
  - unfold view_step at 2. simpl. rewrite decide_True by reflexivity.
    unfold view_cpu. simpl.
    destruct (dev_time ms bs t) as [x |]; simpl.
    + rewrite IH. simpl. now destruct c, o.
    + apply IH.
Qed.

Lemma block_sizes_first :
  block_sizes = 32%Z :: (Z.of_nat <$> rev (seq 4 28)).
Proof. reflexivity. Qed.

(** A sweep over the block sizes [b :: bss], seen from one type: the
    running minimum starts at [m0], takes in the CPU reference at the
    first block size, then every accelerator time in turn; the device's
    own time starts anew. *)
Lemma fold_block_sizes (ms : Measure) (t : string) (m0 : float)
  (own : option float) (b : Z) (bss : list Z) :
  fold_left (fun v bs => view_step ms t v (bs, t)) (b :: bss)
            (mkView false (Some never) (Some m0) own)
  = let devs := omap (fun bs => dev_time ms bs t) (b :: bss) in
    mkView true (Some (lower never (cpu_time ms b t)))
           (Some (fold_left lower (lower never (cpu_time ms b t) :: devs) m0))
           ((fun o => fold_left lower devs o) <$> own).
Proof.
  cbn [fold_left]. unfold view_step at 2. cbn [snd fst].
  rewrite decide_True by reflexivity.
  unfold view_cpu. cbn [v_seen v_numpy v_cur v_own fmap option_fmap
                        option_map mbind option_bind].
  cbn [omap list_omap].
  destruct (dev_time ms b t) as [x |]; cbn [view_dev v_seen v_numpy v_cur
                                            v_own fmap option_fmap option_map];
    rewrite fold_seen; cbn zeta; cbn [fold_left];
    now destruct own.
Qed.

Lemma fold_jobs (ms : Measure) (t : string) (m0 : float)
  (own : option float) :
  NoDup dtypes -> t ∈ dtypes ->
  fold_left (view_step ms t) (jobs dtypes)
            (mkView false (Some never) (Some m0) own)
  = let devs := omap (fun bs => dev_time ms bs t) block_sizes in
    mkView true (Some (lower never (cpu_time ms 32 t)))
           (Some (fold_left lower (lower never (cpu_time ms 32 t) :: devs) m0))
           ((fun o => fold_left lower devs o) <$> own).
Proof.
  intros Hnd Hin. unfold jobs. rewrite fold_left_bind.
  rewrite (fold_left_pointwise _ (fun v bs => view_step ms t v (bs, t)))
    by (intros v bs; rewrite (fold_types ms t bs _ v Hnd);
        now rewrite decide_True by exact Hin).
  rewrite block_sizes_first. apply fold_block_sizes.
Qed.

Lemma const_map_lookup {V} (c : V) (t : string) (ts : list string) :
  t ∈ ts ->
  (list_to_map ((fun t => (t, c)) <$> ts) : gmap string V) !! t = Some c.
Proof.
  induction ts as [| t' ts IH]; intros Hin; [inversion Hin |].
  simpl. destruct (decide (t' = t)) as [-> | Hne].
  - apply lookup_insert_eq.
  - rewrite lookup_insert_ne by assumption. apply IH.
    apply elem_of_cons in Hin as [? | ?]; congruence.
Qed.

Lemma start_min_dt_lookup (d : dict) (t : string) :
  t ∈ dtypes -> exists m0, start_min_dt dtypes d !! t = Some m0.
Proof.
  intros Hin. unfold start_min_dt.
  destruct d as [| [k first] d].
  - exists never. now apply const_map_lookup.
  - rewrite lookup_union. rewrite (const_map_lookup never t dtypes Hin).
    destruct (min_dt first !! t); simpl; eauto.
Qed.

(** Storing under a key that is there keeps the keys and the other
    entries. *)
Lemma dict_set_keys (k : string) (v v0 : DeviceInfo) (d : dict) :
  dict_lookup k d = Some v0 -> (dict_set k v d).*1 = d.*1.
Proof.
  induction d as [| [k' v'] d IH]; simpl; [discriminate |].
  destruct (String.eqb_spec k k') as [-> | Hne]; simpl; [reflexivity |].
  intros H. f_equal. now apply IH.
Qed.

Lemma dict_set_others (k k' : string) (v x : DeviceInfo) (d : dict) :
  (k', x) ∈ dict_set k v d -> k' <> k -> (k', x) ∈ d.
Proof.
  induction d as [| [k0 v0] d IH]; simpl; intros Hin Hne.
  - apply list_elem_of_singleton in Hin. congruence.
  - destruct (String.eqb_spec k k0) as [-> | Hk].
    + apply elem_of_cons in Hin as [Heq | Hin]; [congruence | now right].
    + apply elem_of_cons in Hin as [Heq | Hin]; [rewrite Heq; left |].
      right. now apply IH.
Qed.

Lemma dict_lookup_NoDup (k : string) (v : DeviceInfo) (d : dict) :
  NoDup d.*1 -> (k, v) ∈ d -> dict_lookup k d = Some v.
Proof.
  induction d as [| [k0 v0] d IH]; simpl; intros Hnd Hin; [inversion Hin |].
  apply NoDup_cons in Hnd as [Hnotin Hnd].
  apply elem_of_cons in Hin as [Heq | Hin].
  - inversion Heq; subst. now rewrite String.eqb_refl.
  - destruct (String.eqb_spec k k0) as [-> | Hne]; [| now apply IH].
    exfalso. apply Hnotin. apply list_elem_of_fmap. now exists (k0, v).
Qed.

(** The sweep touches the device's own entry only. *)
Lemma test_one_frame (self : string) (ms : Measure) (s s' : Sweep)
  (job : Z * string) :
  test_one self ms s job = Ok s' ->
  (infos s').*1 = (infos s).*1
  /\ forall k x, (k, x) ∈ infos s' -> k <> self -> (k, x) ∈ infos s.
Proof.
  destruct job as [bs t']. unfold test_one. intros H.
  apply bind_Ok in H as (s1 & H1 & H).
  destruct (cpu_part_view self ms bs t' t' s s1 H1) as [Hi1 _].
  destruct (dev_time ms bs t') as [x |].
  - unfold dev_part in H.
    apply bind_Ok in H as (me & Hme & H). apply dict_get_Ok in Hme.
    apply bind_Ok in H as (own & _ & H).
    apply bind_Ok in H as (m & _ & H).
    apply bind_Ok in H as (c & _ & H).
    destruct (decide (_ ∈ cc s1)); [| discriminate].
    inversion H; subst s'. simpl. rewrite <- Hi1. split.
    + eapply dict_set_keys. exact Hme.
    + intros k y. apply dict_set_others.
  - inversion H; subst s'. rewrite Hi1. auto.
Qed.

Lemma run_jobs_frame (self : string) (ms : Measure) :
  forall (l : list (Z * string)) (s s' : Sweep),
    run_jobs self ms l s = Ok s' ->
    (infos s').*1 = (infos s).*1
    /\ forall k x, (k, x) ∈ infos s' -> k <> self -> (k, x) ∈ infos s.
Proof.
  induction l as [| j l IH]; intros s s' H; simpl in H.
  - inversion H; auto.
  - apply bind_Ok in H as (s1 & H1 & H).
    destruct (test_one_frame self ms s s1 j H1) as [Hk1 Ho1].
    destruct (IH _ _ H) as [Hk Ho].
    split; [congruence | auto].
Qed.

(** The ratings a pass leaves, with the minimum the pass starts from
    as [start_min_dt] gives it. *)
Lemma pass_ratings (self : string) (ms : Measure)
  (device_infos infos' : dict) :
  NoDup dtypes ->
  NoDup device_infos.*1 ->
  _do_tests dtypes self ms device_infos = Ok infos' ->
  forall t : string,
    t ∈ dtypes ->
    exists m0 : float,
      start_min_dt dtypes device_infos !! t = Some m0
      /\ let devs := omap (fun bs => dev_time ms bs t) block_sizes in
         let m := fold_left lower
                            (lower never (cpu_time ms 32 t) :: devs) m0 in
         forall (k : string) (d' : DeviceInfo),
           (k, d') ∈ infos' ->
           exists own : float,
             dt d' !! t = Some own
             /\ rating d' !! t = Some (m / own)%float
             /\ min_dt d' !! t = Some m
             /\ (k = self -> own = fold_left lower devs never)
             /\ (k <> self ->
                 exists d, (k, d) ∈ device_infos /\ dt d !! t = Some own).
Proof.
  intros Hnd Hkeys H t Ht.
  destruct (start_min_dt_lookup device_infos t Ht) as [m0 Hm0].
  exists m0. split; [exact Hm0 |]. intros devs m k d' Hin.
  unfold _do_tests in H.
  apply bind_Ok in H as (s & Hsweep & H).
  apply bind_Ok in H as (u & _ & Hrate).
  unfold sweep in Hsweep.
  apply bind_Ok in Hsweep as (me & Hme & Hrun). apply dict_get_Ok in Hme.
  pose proof (run_jobs_view self ms t _ _ _ Hrun) as Hview.
  destruct (run_jobs_frame self ms _ _ _ Hrun) as [Hk Hothers].
  cbn [infos] in Hk, Hothers.
  assert (view_of self t
            (mkSweep ∅ (list_to_map ((fun t => (t, never)) <$> dtypes))
                     (start_min_dt dtypes device_infos)
                     (dict_set self
                        (set_dt ((fun _ => never) <$> dt me) me)
                        device_infos))
          = mkView false (Some never) (Some m0)
                   ((fun _ => never) <$> dt me !! t)) as Hv0.
  { unfold view_of. cbn [cc dt_numpy cur_min_dt infos].
    rewrite dict_lookup_set_eq. cbn [mbind option_bind set_dt dt].
    rewrite (const_map_lookup never t dtypes Ht), Hm0, lookup_fmap.
    reflexivity. }
  rewrite Hv0, (fold_jobs ms t m0 _ Hnd Ht) in Hview.
  cbv zeta in Hview.
  assert (cur_min_dt s !! t = Some m) as Hcur.
  { apply (f_equal v_cur) in Hview. exact Hview. }
  assert ((dict_lookup self (infos s) ≫= fun me => dt me !! t)
          = (fun o => fold_left lower devs o)
              <$> ((fun _ => never) <$> dt me !! t)) as Hown.
  { apply (f_equal v_own) in Hview. exact Hview. }
  clear Hview Hv0.
  pose proof (rate_all_spec _ _ _ Hrate) as Hall.
  apply list_elem_of_lookup in Hin as [i Hi].
  destruct (Forall2_lookup_r _ _ _ _ _ Hall Hi) as ([k0 d0] & Hi0 & Hk0 & Hd0).
  cbn [fst snd] in Hk0, Hd0. subst k0.
  destruct (rate_device_spec _ _ _ _ Hd0) as (Hdt & _ & _ & _ & Hts).
  destruct (Hts t Ht) as (a & own & Ha & Hown0 & _ & Hr & Hmin).
  rewrite Hcur in Ha. injection Ha as <-.
  exists own. rewrite Hdt.
  split; [exact Hown0 |]. split; [exact Hr |]. split; [exact Hmin |].
  split.
  - intros ->.
    assert (NoDup (infos s).*1) as Hnds.
    { rewrite Hk. erewrite dict_set_keys; eauto. }
    assert ((self, d0) ∈ infos s) as Hin0
      by (apply list_elem_of_lookup; eauto).
    rewrite (dict_lookup_NoDup self d0 _ Hnds Hin0) in Hown.
    cbn [mbind option_bind] in Hown. rewrite Hown0 in Hown.
    destruct (dt me !! t); cbn [fmap option_fmap option_map] in Hown;
      [| discriminate].
    now inversion Hown.
  - intros Hne. exists d0. split; [| exact Hown0].
    assert ((k, d0) ∈ infos s) as Hin0
      by (apply list_elem_of_lookup; eauto).
    eapply dict_set_others; [| exact Hne]. eapply Hothers; eauto.
Qed.

(** The minimum a pass starts from, read off the cache. *)
Lemma start_min_dt_value (d : dict) (t : string) :
  t ∈ dtypes ->
  start_min_dt dtypes d !! t
  = Some match d with
         | [] => never
         | (_, first) :: _ => default never (min_dt first !! t)
         end.
Proof.
  intros Hin. unfold start_min_dt. destruct d as [| [k first] d].
  - now apply const_map_lookup.
  - rewrite lookup_union, (const_map_lookup never t dtypes Hin).
    now destruct (min_dt first !! t).
Qed.

Lemma dict_lookup_key (k : string) (v : DeviceInfo) (d : dict) :
  dict_lookup k d = Some v -> k ∈ d.*1.
Proof.
  induction d as [| [k' v'] d IH]; cbn [dict_lookup]; [discriminate |].
  rewrite fmap_cons. destruct (String.eqb_spec k k') as [-> | Hne].
  - intros _. left.
  - intros H. right. now apply IH.
Qed.

Lemma rate_all_keys (m : gmap string float) :
  forall d d' : dict, rate_all dtypes m d = Ok d' -> d'.*1 = d.*1.
Proof.
  intros d d' H. apply rate_all_spec in H.
  induction H as [| [k v] [k' v'] d d' [Hk _] _ IH]; [reflexivity |].
  rewrite !fmap_cons. cbn [fst] in *. now rewrite IH, Hk.
Qed.

(** A pass that completes keeps the devices of the cache, in their
    order; the device under test is one of them. *)
Lemma pass_keys (self : string) (ms : Measure) (device_infos infos' : dict) :
  _do_tests dtypes self ms device_infos = Ok infos' ->
  self ∈ device_infos.*1 /\ infos'.*1 = device_infos.*1.
Proof.
  intros H. unfold _do_tests in H.
  apply bind_Ok in H as (s & Hsweep & H).
  apply bind_Ok in H as (u & _ & Hrate).
  unfold sweep in Hsweep.
  apply bind_Ok in Hsweep as (me & Hme & Hrun). apply dict_get_Ok in Hme.
  split; [now apply (dict_lookup_key self me) |].
  destruct (run_jobs_frame self ms _ _ _ Hrun) as [Hk _].
  cbn [infos] in Hk.
  rewrite (rate_all_keys _ _ _ Hrate), Hk.
  now apply (dict_set_keys self _ me).
Qed.

(** C2, as the code has it. A benchmarking pass that completes keeps
    the devices of the cache, the device under test among them, and
    gives every one of them, for every data type, the rating [m / own]
    and the minimum-time field [m]. Here [own] is the device's recorded
    best time (for the device under test the least accelerator time of
    this pass, for the others the time the cache held) and [m] is the
    running minimum of the pass: it starts from the minimum-time field
    of the first cache entry (one day where that holds none) and takes
    in the time of the CPU reference and then every accelerator time
    measured. *)
Theorem C2_rating_from_running_minimum (self : string) (ms : Measure)
  (device_infos infos' : dict) :
  NoDup dtypes ->
  NoDup device_infos.*1 ->
  _do_tests dtypes self ms device_infos = Ok infos' ->
  self ∈ device_infos.*1
  /\ infos'.*1 = device_infos.*1
  /\ forall t : string,
       t ∈ dtypes ->
       let m0 := match device_infos with
                 | [] => never
                 | (_, first) :: _ => default never (min_dt first !! t)
                 end in
       let devs := omap (fun bs => dev_time ms bs t) block_sizes in
       let m := fold_left lower
                          (lower never (cpu_time ms 32 t) :: devs) m0 in
       forall (k : string) (d' : DeviceInfo),
         (k, d') ∈ infos' ->
         exists own : float,
           dt d' !! t = Some own
           /\ rating d' !! t = Some (m / own)%float
           /\ min_dt d' !! t = Some m
           /\ (k = self -> own = fold_left lower devs never)
           /\ (k <> self ->
               exists d, (k, d) ∈ device_infos /\ dt d !! t = Some own).
Proof.
  intros Hnd Hkeys H.
  destruct (pass_keys self ms device_infos infos' H) as [Hself Hsame].
  split; [exact Hself |]. split; [exact Hsame |].
  intros t Ht m0 devs m.
  destruct (pass_ratings self ms device_infos infos' Hnd Hkeys H t Ht)
    as (m1 & Hm1 & Hall).
  rewrite (start_min_dt_value device_infos t Ht) in Hm1.
  injection Hm1 as <-. exact Hall.
Qed.

End Ratings.


Section RatingsExamples.

Import OpenCL.

(** In the words of the specification: the least best time of a type
    over the devices of the cache, the device under test among them. *)
Definition fastest_time (t : string) (d : dict) : float :=
  fold_left lower (omap (fun e => dt e.2 !! t) d) never.

(** A pass in which the CPU reference takes 1 s and the accelerator 2 s,
    whatever the block size and the type. *)
Definition cpu_faster : Measure :=
  mkMeasure (fun _ _ => 1%float) (fun _ _ => Some 2%float).

Definition rated_alone : DeviceInfo :=
  mkDeviceInfo "ACME/Fast/1" 1024 64 2%float
    {["double" := 0.5%float; "float" := 0.5%float]}
    {["double" := 2%float; "float" := 2%float]}
    {["double" := 1%float; "float" := 1%float]}
    {["double" := 32%Z; "float" := 32%Z]}.

(** C2 fails as stated. The only device known, with a best time of 2 s
    and no history, is the fastest known device, yet the CPU reference of
    the pass, at 1 s, is part of the minimum: the device is rated 0.5 and
    not 2/2 = 1.0, and its minimum-time field is 1 s and not 2 s. *)
Lemma C2_cpu_reference_lowers_rating :
  _fill_device_info_performance_values two_types (mkConfig false true)
    OpenFails true cpu_faster fresh_info
  = Ok (mkFilled rated_alone true (Some [("ACME/Fast/1", rated_alone)]))
  /\ dt rated_alone !! "float" = Some 2%float
  /\ fastest_time "float" [("ACME/Fast/1", rated_alone)] = 2%float
  /\ rating rated_alone !! "float" = Some 0.5%float
  /\ PrimFloat.eqb 0.5 (2 / 2) = false
  /\ min_dt rated_alone !! "float" = Some 1%float
  /\ PrimFloat.eqb 1 2 = false.
Proof.
  split; [vm_compute; reflexivity |].
  repeat split; vm_compute; reflexivity.
Qed.

(** A second device, benchmarked at 4 s after a first one was recorded
    at 2 s, with a CPU reference slower than both. *)
Definition known_device : DeviceInfo :=
  mkDeviceInfo "ACME/Fast/1" 1024 64 2%float
    {["double" := 1%float; "float" := 1%float]}
    {["double" := 2%float; "float" := 2%float]}
    {["double" := 2%float; "float" := 2%float]}
    {["double" := 32%Z; "float" := 32%Z]}.

Definition cpu_slower : Measure :=
  mkMeasure (fun _ _ => 10%float) (fun _ _ => Some 4%float).

Definition two_devices : dict :=
  dict_set "ACME/Slow/2"
           (new_DeviceInfo two_types "ACME/Slow/2" 1024 64 2%float)
           [("ACME/Fast/1", known_device)].

Definition two_devices_rated : dict :=
  match _do_tests two_types "ACME/Slow/2" cpu_slower two_devices with
  | Ok d => d
  | Raise _ => []
  end.

Lemma C2_rating_from_running_minimum_witness :
  "ACME/Slow/2" ∈ two_devices.*1
  /\ two_devices_rated.*1 = two_devices.*1
  /\ forall t : string,
       t ∈ two_types ->
       let m := fold_left lower
                  (lower never (cpu_time cpu_slower 32 t)
                     :: omap (fun bs => dev_time cpu_slower bs t)
                             block_sizes)
                  (default never (min_dt known_device !! t)) in
       forall (k : string) (d' : DeviceInfo),
         (k, d') ∈ two_devices_rated ->
         exists own : float,
           dt d' !! t = Some own
           /\ rating d' !! t = Some (m / own)%float
           /\ min_dt d' !! t = Some m
           /\ (k = "ACME/Slow/2" ->
               own = fold_left lower
                       (omap (fun bs => dev_time cpu_slower bs t)
                             block_sizes) never)
           /\ (k <> "ACME/Slow/2" ->
               exists d, (k, d) ∈ two_devices /\ dt d !! t = Some own).
Proof.
  apply (C2_rating_from_running_minimum two_types "ACME/Slow/2" cpu_slower
           two_devices two_devices_rated).
  - apply (bool_decide_unpack _). vm_compute. exact I.
  - apply (bool_decide_unpack _). vm_compute. exact I.
  - vm_compute. reflexivity.
Defined.

(** The two devices of the specification's example: 1.0 and 0.5. *)
Example two_devices_ratings :
  (fun e => (e.1, rating e.2 !! "float", min_dt e.2 !! "float"))
    <$> two_devices_rated
  = [("ACME/Fast/1", Some 1%float, Some 2%float);
     ("ACME/Slow/2", Some 0.5%float, Some 2%float)].
Proof. vm_compute. reflexivity. Qed.

End RatingsExamples.

(* ===================================================================== *)
(** * A shutdown that returns: the state it leaves *)
(* ===================================================================== *)

Section ShutdownDone.

Import ThreadPool.

Context {C E : Type}.

(** The registered functions considered: as long as the rest of the
    program satisfies [guard], each returns and acts on the rest of the
    program only, as [effect] tells, and keeps [guard]. *)
Variable effect : C -> E -> E.
Variable guard : E -> Prop.
Variable call : C -> Process C E -> outcome C E.
Hypothesis call_guarded :
  forall cb w, guard (ext w) ->
               call cb w = Done (set_ext (effect cb (ext w)) w).
Hypothesis guard_kept : forall cb e, guard e -> guard (effect cb e).


Lemma run_shutdowners_guarded (pid : pool_id) (p : Pool C) :
  forall (n i : nat) (w : Process C E),
    heap w !! pid = Some p ->
    (i + n = length (on_shutdowns p))%nat ->
    guard (ext w) ->
    run_shutdowners call pid n i w
    = Done (moved pid p (ShutdownerRun pid <$> drop i (on_shutdowns p))
                  (effects effect (drop i (on_shutdowns p)) (ext w)) w).
Proof.
  induction n as [| n IH]; intros i w Hp Hlen Hg; simpl.
  - rewrite drop_ge by lia. simpl. now rewrite moved_id.
  - rewrite Hp. simpl.
    destruct (on_shutdowns p !! i) as [cb |] eqn:Hcb.
    2:{ apply lookup_ge_None in Hcb. lia. }
    rewrite call_guarded by exact Hg. simpl.
    rewrite IH; [| exact Hp | lia | simpl; now apply guard_kept]. simpl.
    rewrite (drop_S _ _ _ Hcb). simpl.
    f_equal. destruct w. unfold moved. simpl.
    now rewrite <- app_assoc.
Qed.

(** The queue has room for one stop signal per counted worker. *)
Definition has_room (p : Pool C) : Prop :=
  (q_maxsize p = 0 \/ length (q p) + workers p <= q_maxsize p)%nat.

(** The queue once every counted worker has its signal. *)
Definition with_stops (front : bool) (p : Pool C) : list item :=
  if front then replicate (workers p) WorkerStop ++ q p
  else q p ++ replicate (workers p) WorkerStop.

Lemma stop_workers_room (pid : pool_id) :
  forall (n : nat) (w : Process C E) (p : Pool C),
    heap w !! pid = Some p ->
    workers p = n ->
    has_room p ->
    stop_workers pid n w
    = Done (moved pid
              (set_workers 0 (set_q (with_stops (front_put p) p) p))
              (replicate n (StopSent pid (front_put p))) (ext w) w).
Proof.
  unfold has_room, with_stops.
  induction n as [| n IH]; intros w p Hp Hw Hroom; simpl.
  - rewrite Hw. simpl. rewrite app_nil_r.
    rewrite <- (moved_id pid _ w Hp) at 1.
    destruct p; simpl in *; subst. now destruct front_put0.
  - rewrite Hp, Hw. simpl. unfold put.
    assert ((0 <? q_maxsize p)%nat && (q_maxsize p <=? length (q p))%nat
            = false) as ->.
    { apply andb_false_iff. destruct Hroom as [H0 | Hle].
      - left. apply Nat.ltb_ge. lia.
      - right. apply Nat.leb_gt. lia. }
    replace (workers
               (set_q (if front_put p then WorkerStop :: q p
                       else q p ++ [WorkerStop]) p) - 1)%nat
      with n by (simpl; lia).
    rewrite (IH _ (set_workers n
                     (set_q (if front_put p then WorkerStop :: q p
                             else q p ++ [WorkerStop]) p))).
    + f_equal. destruct w, p. unfold moved. simpl in *. subst.
      rewrite insert_insert_eq, <- app_assoc. simpl.
      unfold set_workers, set_q. simpl.
      do 2 f_equal. f_equal.
      destruct front_put0.
      * replace (replicate n WorkerStop ++ WorkerStop :: q0)
          with ((replicate n WorkerStop ++ [WorkerStop]) ++ q0)
          by (now rewrite <- app_assoc).
        now rewrite <- replicate_S_end.
      * now rewrite <- app_assoc.
    + simpl. apply lookup_insert_eq.
    + reflexivity.
    + destruct p; simpl in *.
      destruct front_put0; simpl; rewrite ?length_app; simpl; lia.
Qed.

(** The pool object a shutdown that returns leaves behind. *)
Definition stopped (execute_remaining : bool) (p : Pool C) : Pool C :=
  let front := if execute_remaining then front_put p else true in
  mkPool (with_stops front p) (q_maxsize p) front 0 (threads p) [] false true.

(** What such a shutdown adds to the log. *)
Definition shutdown_log (pid : pool_id) (execute_remaining force : bool)
  (p : Pool C) : list (event C) :=
  (ShutdownerRun pid <$> on_shutdowns p)
  ++ replicate (workers p)
       (StopSent pid (if execute_remaining then front_put p else true))
  ++ ((fun t => Joined pid t force) <$> threads p)
  ++ [Destroyed pid].

Lemma shutdown_effect (pid : pool_id) (execute_remaining force : bool)
  (w : Process C E) (p : Pool C) :
  heap w !! pid = Some p ->
  in_registry pid w = true ->
  shutting_down p = false ->
  has_room p ->
  guard (ext w) ->
  shutdown call pid execute_remaining force w
  = Done (mkProcess (sys_exit w) (sigint w) (sysexit_initial w)
                    (sigint_initial w) (list_remove pid (pools w))
                    (<[pid := stopped execute_remaining p]> (heap w))
                    (next_pool w)
                    (log w ++ shutdown_log pid execute_remaining force p)
                    (effects effect (on_shutdowns p) (ext w))).
Proof.
  intros Hp Hreg Hsd Hroom Hg.
  unfold shutdown. rewrite Hp, Hreg, Hsd. simpl.
  set (p1 := set_shutting_down true p).
  set (w1 := set_pool pid p1 w).
  assert (heap w1 !! pid = Some p1) as Hp1 by apply lookup_insert_eq.
  rewrite (run_shutdowners_guarded pid p1 _ 0 w1 Hp1) by (auto; reflexivity).
  simpl. rewrite lookup_insert_eq.
  set (p2 := if execute_remaining then _ else _).
  set (w2 := set_pool pid p2 _).
  assert (heap w2 !! pid = Some p2) as Hp2 by apply lookup_insert_eq.
  rewrite (stop_workers_room pid (workers p2) w2 p2 Hp2 eq_refl).
  2:{ subst p2 p1. destruct p. unfold has_room in *.
      destruct execute_remaining; simpl in *; exact Hroom. }
  simpl. rewrite join_threads_log. simpl. f_equal.
  subst w2 w1 p2 p1. destruct w, p. unfold moved, set_pool, set_heap.
  simpl in *. unfold shutdown_log, stopped, with_stops. simpl.
  rewrite !drop_0. f_equal.
  - apply map_eq. intros j. destruct (decide (j = pid)) as [-> |].
    + rewrite lookup_alter_eq, !lookup_insert_eq.
      destruct execute_remaining; reflexivity.
    + rewrite lookup_alter_ne, !lookup_insert_ne by congruence. reflexivity.
  - destruct execute_remaining; simpl; now rewrite <- !app_assoc.
Qed.




Lemma existsb_remove_self (pid : pool_id) (l : list pool_id) :
  NoDup l -> existsb (Nat.eqb pid) (list_remove pid l) = false.
Proof.
  induction l as [| y l IH]; intros Hnd; simpl; [reflexivity |].
  apply NoDup_cons in Hnd as [Hy Hnd].
  destruct (Nat.eqb_spec pid y) as [-> | Hne].
  - apply not_true_is_false. intros H. apply existsb_exists in H.
    destruct H as (x & Hx & Heq). apply Nat.eqb_eq in Heq. subst x.
    apply Hy. now apply list_elem_of_In.
  - simpl. destruct (Nat.eqb_spec pid y); [contradiction |]. now apply IH.
Qed.

Lemma existsb_remove_other (pid pid' : pool_id) (l : list pool_id) :
  pid' <> pid ->
  existsb (Nat.eqb pid') (list_remove pid l) = existsb (Nat.eqb pid') l.
Proof.
  intros Hne. induction l as [| y l IH]; simpl; [reflexivity |].
  destruct (Nat.eqb_spec pid y) as [-> | Hy]; simpl.
  - destruct (Nat.eqb_spec pid' y); [contradiction | reflexivity].
  - now rewrite IH.
Qed.

(** X2. A second [shutdown], with whatever arguments, finds the pool out of
    the registry and does nothing. *)
Theorem shutdown_idempotent (pid : pool_id)
  (execute_remaining force execute_remaining' force' : bool)
  (w : Process C E) (p : Pool C) :
  heap w !! pid = Some p ->
  in_registry pid w = true ->
  shutting_down p = false ->
  has_room p ->
  guard (ext w) ->
  NoDup (pools w) ->
  exists w' : Process C E,
    shutdown call pid execute_remaining force w = Done w'
    /\ in_registry pid w' = false
    /\ shutdown call pid execute_remaining' force' w' = Done w'.
Proof.
  intros Hp Hreg Hsd Hroom Hg Hnd.
  rewrite (shutdown_effect pid execute_remaining force w p Hp Hreg Hsd Hroom
             Hg).
  eexists. split; [reflexivity |].
  assert (in_registry pid
            (mkProcess (sys_exit w) (sigint w) (sysexit_initial w)
               (sigint_initial w) (list_remove pid (pools w))
               (<[pid := stopped execute_remaining p]> (heap w))
               (next_pool w)
               (log w ++ shutdown_log pid execute_remaining force p)
               (effects effect (on_shutdowns p) (ext w))) = false) as Hout.
  { unfold in_registry. simpl. now apply existsb_remove_self. }
  split; [exact Hout |].
  unfold shutdown. cbn [heap]. rewrite lookup_insert_eq, Hout. reflexivity.
Qed.

(** X3. Another pool is not touched: neither its object nor its place in the
    registry. *)
Theorem shutdown_frame (pid pid' : pool_id) (execute_remaining force : bool)
  (w : Process C E) (p : Pool C) :
  heap w !! pid = Some p ->
  in_registry pid w = true ->
  shutting_down p = false ->
  has_room p ->
  guard (ext w) ->
  pid' <> pid ->
  exists w' : Process C E,
    shutdown call pid execute_remaining force w = Done w'
    /\ heap w' !! pid' = heap w !! pid'
    /\ in_registry pid' w' = in_registry pid' w
    /\ sys_exit w' = sys_exit w /\ sigint w' = sigint w
    /\ sysexit_initial w' = sysexit_initial w
    /\ sigint_initial w' = sigint_initial w.
Proof.
  intros Hp Hreg Hsd Hroom Hg Hne.
  rewrite (shutdown_effect pid execute_remaining force w p Hp Hreg Hsd Hroom
             Hg).
  eexists. split; [reflexivity |]. cbn [heap sys_exit sigint sysexit_initial
                                       sigint_initial].
  split; [now rewrite lookup_insert_ne by congruence |].
  split; [| auto]. unfold in_registry. cbn [pools].
  now apply existsb_remove_other.
Qed.

(** Every pool of the registry can be shut down. *)
Definition all_ready (w : Process C E) : Prop :=
  NoDup (pools w)
  /\ forall pid, pid ∈ pools w ->
                 exists p, heap w !! pid = Some p
                           /\ shutting_down p = false /\ has_room p.




End ShutdownDone.

Section ShutdownDoneExamples.

Import ThreadPool.

(** Two pools: the first with two workers, a queue of at most 8 items
    holding two tasks, and the callbacks 7 and 8; the second with one
    worker and the callback 9. *)
Definition two_pools : Process nat (list nat) :=
  let w := snd (__init__ 2 8 (mkProcess builtin_exit (handler_before 0)
                                        exit_None sigint_None [] ∅ 0 [] []))
  in
  let w := snd (__init__ 1 0 w) in
  let w := register_on_shutdown 0 7 w in
  let w := register_on_shutdown 0 8 w in
  let w := register_on_shutdown 1 9 w in
  set_heap (alter (set_q [Task 1; Task 2]) 0 (heap w)) w.

Definition first_pool : Pool nat :=
  mkPool [Task 1; Task 2] 8 false 2 [(0, 0); (0, 1)] [7; 8] false false.

Definition second_pool_object : Pool nat :=
  mkPool [] 0 false 1 [(1, 0)] [9] false false.

Definition always (e : list nat) : Prop := True.

Lemma call_note_guarded (cb : nat) (w : Process nat (list nat)) :
  always (ext w) -> call_note cb w = Done (set_ext (note cb (ext w)) w).
Proof. reflexivity. Qed.

Lemma note_always (cb : nat) (e : list nat) : always e -> always (note cb e).
Proof. intros _. exact I. Qed.

Lemma two_pools_ready : all_ready two_pools.
Proof.
  split.
  - apply (bool_decide_unpack _). vm_compute. exact I.
  - intros pid Hin. change (pools two_pools) with [0%nat; 1%nat] in Hin.
    apply elem_of_cons in Hin as [-> | Hin].
    + exists first_pool. split; [reflexivity |]. split; [reflexivity |].
      right. simpl. lia.
    + apply list_elem_of_singleton in Hin as ->.
      exists second_pool_object. split; [reflexivity |].
      split; [reflexivity |]. left. reflexivity.
Qed.


Lemma shutdown_idempotent_witness :
  exists w' : Process nat (list nat),
    shutdown call_note 0 true false two_pools = Done w'
    /\ in_registry 0 w' = false
    /\ shutdown call_note 0 false true w' = Done w'.
Proof.
  apply (shutdown_idempotent note always call_note call_note_guarded
           note_always 0 true false false true two_pools first_pool);
    [reflexivity | reflexivity | reflexivity | right; simpl; lia | exact I
     | apply two_pools_ready].
Defined.

Lemma shutdown_frame_witness :
  exists w' : Process nat (list nat),
    shutdown call_note 0 true false two_pools = Done w'
    /\ heap w' !! 1%nat = heap two_pools !! 1%nat
    /\ in_registry 1 w' = in_registry 1 two_pools
    /\ sys_exit w' = sys_exit two_pools /\ sigint w' = sigint two_pools
    /\ sysexit_initial w' = sysexit_initial two_pools
    /\ sigint_initial w' = sigint_initial two_pools.
Proof.
  apply (shutdown_frame note always call_note call_note_guarded note_always
           0 1 true false two_pools first_pool);
    [reflexivity | reflexivity | reflexivity | right; simpl; lia | exact I
     | discriminate].
Defined.



End ShutdownDoneExamples.

(* ===================================================================== *)
(** * Stop signals behind the queued tasks *)
(* ===================================================================== *)

Section Draining.

Import ThreadPool.

Context {C E : Type}.

(** All stop signals are in the queue, behind the tasks not yet taken;
    [taken] are the tasks of [ts] that were started, in the order of the
    queue; as long as a task is left no worker of the [n0] has gone. *)
Definition draining (ts st0 : list nat) (n0 : nat) (c : conc C) : Prop :=
  workers (cpool c) = 0%nat
  /\ exists taken rest : list nat,
       ts = taken ++ rest
       /\ q (cpool c)
          = (Task <$> rest) ++ replicate (live (cworkers c)) WorkerStop
       /\ cstarted c = st0 ++ taken
       /\ (rest <> [] -> live (cworkers c) = n0).

Lemma draining_step (ts st0 : list nat) (n0 : nat) (c c' : conc C) :
  draining ts st0 n0 c -> step c c' -> draining ts st0 n0 c'.
Proof.
  intros (Hw & taken & rest & Hts & Hq & Hst & Hn) Hstep.
  destruct Hstep as [p p' ws s Hne Hput | p ws s i t r Hi Hhead
                     | p ws s i r Hi Hhead | p ws s i t Hi];
    simpl in *.
  - contradiction.
  - pose proof (live_insert ws i Waiting (Running t) Hi) as Hl. simpl in Hl.
    destruct rest as [| t' rest].
    + rewrite Hq in Hhead. simpl in Hhead.
      destruct (live ws); discriminate.
    + rewrite Hq in Hhead. simpl in Hhead. inversion Hhead; subst t' r.
      split; [exact Hw |]. exists (taken ++ [t]), rest. simpl.
      replace (live (<[i:=Running t]> ws)) with (live ws) by lia.
      split; [now rewrite <- app_assoc |]. split; [reflexivity |].
      split; [rewrite Hst; now rewrite app_assoc |].
      intros _. apply Hn. discriminate.
  - pose proof (live_insert ws i Waiting Exited Hi) as Hl. simpl in Hl.
    destruct rest as [| t' rest]; [| rewrite Hq in Hhead; discriminate].
    rewrite Hq in Hhead. simpl in Hhead.
    destruct (live ws) as [| k] eqn:Hk; [discriminate |].
    simpl in Hhead. inversion Hhead; subst r.
    split; [exact Hw |]. exists taken, []. simpl.
    replace (live (<[i:=Exited]> ws)) with k by lia.
    repeat split; auto. congruence.
  - pose proof (live_insert ws i (Running t) Waiting Hi) as Hl. simpl in Hl.
    split; [exact Hw |]. exists taken, rest. simpl.
    replace (live (<[i:=Waiting]> ws)) with (live ws) by lia. auto.
Qed.

Lemma draining_steps (ts st0 : list nat) (n0 : nat) (c c' : conc C) :
  draining ts st0 n0 c -> rtc step c c' -> draining ts st0 n0 c'.
Proof.
  intros Hd Hsteps. induction Hsteps as [| c c1 c2 H1 _ IH]; [assumption |].
  apply IH. now apply (draining_step ts st0 n0 c).
Qed.

Variable effect : C -> E -> E.
Variable guard : E -> Prop.
Variable call : C -> Process C E -> outcome C E.
Hypothesis call_guarded :
  forall cb w, guard (ext w) ->
               call cb w = Done (set_ext (effect cb (ext w)) w).
Hypothesis guard_kept : forall cb e, guard e -> guard (effect cb e).

(** X7. [shutdown] as it is called by default ([execute_remaining=True], the
    queue's own [_put]) puts the stop signals behind the tasks queued.
    In every interleaving that follows, the tasks are started in the
    order of the queue, and a worker leaves only after all of them were
    started. *)
Theorem shutdown_drains_the_queue (pid : pool_id) (force : bool)
  (w : Process C E) (p : Pool C) (ts : list nat) :
  heap w !! pid = Some p ->
  in_registry pid w = true ->
  shutting_down p = false ->
  front_put p = false ->
  q p = Task <$> ts ->
  has_room p ->
  guard (ext w) ->
  exists (w' : Process C E) (p' : Pool C),
    shutdown call pid true force w = Done w'
    /\ heap w' !! pid = Some p'
    /\ q p' = (Task <$> ts) ++ replicate (workers p) WorkerStop
    /\ forall (ws : list wstate) (st : list nat) (c' : conc C),
         live ws = workers p ->
         rtc step (mkConc p' ws st) c' ->
         (exists taken rest, ts = taken ++ rest /\ cstarted c' = st ++ taken)
         /\ (live (cworkers c') < workers p -> cstarted c' = st ++ ts)%nat.
Proof.
  intros Hp Hreg Hsd Hfront Hq Hroom Hg.
  rewrite (shutdown_effect effect guard call call_guarded guard_kept pid true
             force w p Hp Hreg Hsd Hroom Hg).
  eexists. eexists. split; [reflexivity |]. cbn [heap].
  rewrite lookup_insert_eq. split; [reflexivity |].
  unfold stopped, with_stops. rewrite Hfront, Hq. cbn [q].
  split; [reflexivity |].
  intros ws st c' Hlive Hsteps.
  match type of Hsteps with rtc step ?c0 _ =>
    assert (draining ts st (workers p) c0) as Hd
  end.
  { split; [reflexivity |]. exists [], ts. cbn [cpool cworkers cstarted q].
    rewrite Hlive, app_nil_r. auto. }
  destruct (draining_steps ts st _ _ c' Hd Hsteps)
    as (_ & taken & rest & Hts & _ & Hst & Hn).
  split; [eauto |].
  intros Hlt. destruct rest as [| t rest].
  - rewrite app_nil_r in Hts. now subst taken.
  - assert (live (cworkers c') = workers p) by (apply Hn; discriminate). lia.
Qed.

End Draining.

Section DrainingExamples.

Import ThreadPool.

Lemma shutdown_drains_the_queue_witness :
  exists (w' : Process nat (list nat)) (p' : Pool nat),
    shutdown call_note 0 true false two_pools = Done w'
    /\ heap w' !! 0%nat = Some p'
    /\ q p' = (Task <$> [1; 2]) ++ replicate 2 WorkerStop
    /\ forall (ws : list wstate) (st : list nat) (c' : conc nat),
         live ws = 2%nat ->
         rtc step (mkConc p' ws st) c' ->
         (exists taken rest,
            [1; 2] = taken ++ rest /\ cstarted c' = st ++ taken)
         /\ (live (cworkers c') < 2 -> cstarted c' = st ++ [1; 2])%nat.
Proof.
  apply (shutdown_drains_the_queue note always call_note call_note_guarded
           note_always 0 false two_pools first_pool [1; 2]);
    [reflexivity | reflexivity | reflexivity | reflexivity | reflexivity
     | right; simpl; lia | exact I].
Defined.

End DrainingExamples.

(* ===================================================================== *)
(** * The command line handed to the slaves *)
(* ===================================================================== *)

Section SlaveCommandLine.

Import Launcher.

(** [a in ignored_args] *)
Definition is_ignored (a : string) : bool :=
  existsb (String.eqb a) ignored_args.

Lemma filter_argv_clean (l : list string) :
  Forall (fun a => is_ignored a = false) l -> filter_argv false l = l.
Proof.
  induction l as [| a l IH]; intros H; [reflexivity |].
  apply Forall_cons in H as [Ha Hl]. cbn [filter_argv].
  fold (is_ignored a). rewrite Ha. cbn [negb]. now rewrite IH.
Qed.

(** X8. What is left of [sys.argv[1:]]: none of the flags of the master, the
    arguments kept are in their order, and filtering once more changes
    nothing. *)
Theorem filter_argv_spec (skip : bool) (argv : list string) :
  Forall (fun a => is_ignored a = false) (filter_argv skip argv)
  /\ sublist (filter_argv skip argv) argv
  /\ filter_argv false (filter_argv skip argv) = filter_argv skip argv.
Proof.
  assert (Forall (fun a => is_ignored a = false) (filter_argv skip argv)
          /\ sublist (filter_argv skip argv) argv) as [H1 H2].
  { revert skip. induction argv as [| a l IH]; intros skip;
      cbn [filter_argv].
    - split; constructor.
    - fold (is_ignored a). destruct (is_ignored a) eqn:Ha.
      + destruct (IH true). split; [assumption | now constructor].
      + destruct skip; cbn [negb].
        * destruct (IH false). split; [assumption | now constructor].
        * destruct (IH false). split; [| now constructor].
          constructor; assumption. }
  split; [exact H1 |]. split; [exact H2 |]. now apply filter_argv_clean.
Qed.

(** X9. The loop with its [skip] flag keeps an argument exactly when neither
    the argument nor the one before it is a flag of the master: such a
    flag takes the next argument with it, whether it has a value or not. *)
Theorem filter_argv_by_neighbours (argv : list string) :
  filter_argv false argv
  = snd <$> List.filter
              (fun pa => negb (is_ignored pa.1) && negb (is_ignored pa.2))
              (zip ("" :: argv) argv).
Proof.
  change false with (is_ignored "") at 1.
  generalize "" as prev. induction argv as [| a l IH]; intros prev;
    [reflexivity |].
  specialize (IH a).
  cbn [filter_argv zip zip_with List.filter fst snd].
  fold (is_ignored a). cbn [zip zip_with] in IH.
  destruct (is_ignored a) eqn:Ha; cbn [negb].
  - rewrite andb_false_r. exact IH.
  - rewrite andb_true_r. destruct (is_ignored prev) eqn:Hp; cbn [negb].
    + exact IH.
    + rewrite fmap_cons. cbn [snd]. now rewrite <- IH.
Qed.

Lemma index_at (c : ascii) (s1 s2 : string) :
  lacks c s1 = true ->
  index c (s1 +:+ String c s2) = Ok (String.length s1).
Proof.
  induction s1 as [| a s1 IH]; simpl.
  - intros _. now rewrite Ascii.eqb_refl.
  - intros H. apply andb_true_iff in H as [H1 H2].
    apply negb_true_iff in H1. rewrite H1, (IH H2). reflexivity.
Qed.

Lemma index_lacks (c : ascii) (s : string) :
  lacks c s = true -> index c s = Raise ValueError.
Proof.
  induction s as [| a s IH]; simpl; [reflexivity |].
  intros H. apply andb_true_iff in H as [H1 H2].
  apply negb_true_iff in H1. rewrite H1, (IH H2). reflexivity.
Qed.

Lemma take_str_app (s1 s2 : string) :
  take_str (String.length s1) (s1 +:+ s2) = s1.
Proof.
  induction s1 as [| a s1 IH]; simpl; [now destruct s2 |]. now rewrite IH.
Qed.

Lemma drop_str_app (c : ascii) (s1 s2 : string) :
  drop_str (String.length s1 + 1) (s1 +:+ String c s2) = s2.
Proof.
  induction s1 as [| a s1 IH]; simpl; [now destruct s2 | exact IH].
Qed.

(** The hosts a slave cannot dial back to. *)
Definition is_placeholder (host : string) : bool :=
  String.eqb host "" || String.eqb host "0.0.0.0"
  || String.eqb host "localhost" || String.eqb host "127.0.0.1".

(** X10. The slaves are told to connect to the host and port of the listen
    address, cut at its first colon, with the local host name in place
    of an empty host, 0.0.0.0, localhost or 127.0.0.1; the command line
    is the filtered one followed by [-m host:port -b]. *)
Theorem slave_args_connect_back (env : Env) (l : Launcher)
  (host port : string) :
  lacks ":" host = true ->
  listen_address (args l) = host +:+ String ":" port ->
  slave_args env l
  = Ok (join " " (filter_argv false (argv_rest env)
                    ++ ["-m";
                        (if is_placeholder host then hostname env else host)
                          +:+ ":" +:+ port;
                        "-b"])).
Proof.
  intros Hhost Hlisten. unfold slave_args. rewrite Hlisten.
  rewrite (index_at ":" host port Hhost). cbn [mbind result_bind].
  rewrite take_str_app.
  rewrite drop_str_app.
  assert (negb (truthy host) = String.eqb host "") as ->
    by now destruct host.
  fold (is_placeholder host). now rewrite <- app_assoc.
Qed.

(** X11. Without a colon in the listen address a master with nodes to launch
    raises [ValueError] before it launches any of them. *)
Theorem launch_nodes_needs_port (env : Env) (l : Launcher) :
  lacks ":" (listen_address (args l)) = true ->
  slaves l <> [] ->
  _launch_nodes env l = (l, Some ValueError).
Proof.
  intros Hl Hs. unfold _launch_nodes.
  destruct (slaves l); [contradiction |].
  unfold slave_args. now rewrite (index_lacks _ _ Hl).
Qed.

End SlaveCommandLine.

Section SlaveCommandLineExamples.

Import Launcher.

(** A master whose listen address is a bare port. *)
Definition master_without_host : Launcher :=
  mkLauncher (mkArgs "" "5000" "" false true "h/0:0" "")
             ["h/0:0"] false None false false None None [].

Lemma slave_args_connect_back_witness :
  slave_args example_env (master_with "h/0:0")
  = Ok "wf.py -m master1:5000 -b".
Proof.
  exact (slave_args_connect_back example_env (master_with "h/0:0")
           "0.0.0.0" "5000" eq_refl eq_refl).
Defined.

Lemma launch_nodes_needs_port_witness :
  _launch_nodes example_env master_without_host
  = (master_without_host, Some ValueError).
Proof.
  apply (launch_nodes_needs_port example_env master_without_host).
  - reflexivity.
  - vm_compute. discriminate.
Defined.

(** [-b wf.py]: the flag takes the workflow file with it. *)
Example filter_argv_flag_without_value :
  filter_argv false ["-b"; "wf.py"; "--seed"; "1"] = ["--seed"; "1"].
Proof. reflexivity. Qed.

End SlaveCommandLineExamples.

(* ===================================================================== *)
(** * Several nodes *)
(* ===================================================================== *)

Section NodeList.

Import Launcher.

(** A well-formed entry of the node list. *)
Record Entry : Type := mkEntry {
  entry_host : string;
  entry_platform : nat;
  entry_min : nat;
  entry_max : option nat;
  entry_mult : option nat
}.

Definition entry_string (e : Entry) : string :=
  node_entry (entry_host e) (entry_platform e) (entry_min e) (entry_max e)
             (entry_mult e).

Definition entry_launches (prog args : string) (e : Entry) : list levent :=
  expected_launches prog args (entry_host e) (entry_platform e)
    (entry_min e) (default (entry_min e) (entry_max e))
    (default 1%nat (entry_mult e)).

Definition well_formed (e : Entry) : Prop := lacks "/" (entry_host e) = true.

Lemma emit_nil (l : Launcher) : emit [] l = l.
Proof. destruct l. unfold emit. cbn. now rewrite app_nil_r. Qed.

Lemma emit_emit (a b : list levent) (l : Launcher) :
  emit b (emit a l) = emit (a ++ b) l.
Proof. unfold emit. cbn. now rewrite app_assoc. Qed.

Lemma launch_each_entries (prog sargs : string) (es : list Entry)
  (rest : list string) (l : Launcher) :
  Forall well_formed es ->
  launch_each prog sargs ((entry_string <$> es) ++ rest) l
  = launch_each prog sargs rest (emit (es ≫= entry_launches prog sargs) l).
Proof.
  intros H. revert l. induction H as [| e es He _ IH]; intros l.
  - cbn. now rewrite emit_nil.
  - rewrite fmap_cons. cbn [app launch_each]. unfold entry_string at 1.
    rewrite (parse_node_entry _ _ _ _ _ He), node_launches_nat.
    rewrite IH, emit_emit. reflexivity.
Qed.

Lemma master_of_index (l : Launcher) (i : nat) :
  index ":" (listen_address (args l)) = Ok i -> is_master l = true.
Proof.
  unfold is_master. destruct (listen_address (args l)); [| reflexivity].
  discriminate.
Qed.

Lemma slave_args_of_index (env : Env) (l : Launcher) (i : nat) :
  index ":" (listen_address (args l)) = Ok i ->
  exists sargs, slave_args env l = Ok sargs.
Proof. intros H. unfold slave_args. rewrite H. cbn. eauto. Qed.

(** X12. The nodes are served in the order of the list, each with all its
    launches before the next one starts, all with the same command line
    up to the device. *)
Theorem launch_nodes_in_order (env : Env) (l : Launcher) (es : list Entry)
  (i : nat) :
  Forall well_formed es ->
  index ":" (listen_address (args l)) = Ok i ->
  _slaves l = entry_string <$> es ->
  exists sargs : string,
    slave_args env l = Ok sargs
    /\ _launch_nodes env l
       = (emit (es ≫= entry_launches (abspath env (argv0 env)) sargs) l,
          None).
Proof.
  intros Hes Hidx Hslaves.
  destruct (slave_args_of_index env l i Hidx) as [sargs Hs].
  exists sargs. split; [exact Hs |].
  unfold _launch_nodes, slaves. rewrite (master_of_index l i Hidx), Hslaves.
  destruct es as [| e es]; [cbn; now rewrite emit_nil |].
  rewrite fmap_cons, <- fmap_cons, Hs.
  rewrite <- (app_nil_r (entry_string <$> e :: es)).
  now rewrite launch_each_entries.
Qed.

(** X13. An entry without a slash raises [ValueError] when its turn comes:
    the entries before it have been launched by then, the ones after it
    never are. *)
Theorem launch_nodes_stops_at_malformed (env : Env) (l : Launcher)
  (es : list Entry) (bad : string) (rest : list string) (i : nat) :
  Forall well_formed es ->
  lacks "/" bad = true ->
  index ":" (listen_address (args l)) = Ok i ->
  _slaves l = (entry_string <$> es) ++ bad :: rest ->
  exists sargs : string,
    slave_args env l = Ok sargs
    /\ _launch_nodes env l
       = (emit (es ≫= entry_launches (abspath env (argv0 env)) sargs) l,
          Some ValueError).
Proof.
  intros Hes Hbad Hidx Hslaves.
  destruct (slave_args_of_index env l i Hidx) as [sargs Hs].
  exists sargs. split; [exact Hs |].
  unfold _launch_nodes, slaves. rewrite (master_of_index l i Hidx), Hslaves.
  destruct ((entry_string <$> es) ++ bad :: rest) eqn:Heq;
    [now destruct es |].
  rewrite <- Heq, Hs, launch_each_entries by exact Hes.
  cbn [launch_each]. unfold parse_node.
  now rewrite (split_lacks "/" bad Hbad).
Qed.

End NodeList.

Section NodeListExamples.

Import Launcher.

Definition two_nodes : list Entry :=
  [mkEntry "a" 0 0 None None; mkEntry "b" 1 0 (Some 1) (Some 2)].

Lemma launch_nodes_in_order_witness :
  exists sargs : string,
    slave_args example_env (master_with "a/0:0, b/1:0-1x2") = Ok sargs
    /\ _launch_nodes example_env (master_with "a/0:0, b/1:0-1x2")
       = (emit (two_nodes ≫= entry_launches "/opt/veles.py" sargs)
               (master_with "a/0:0, b/1:0-1x2"), None).
Proof.
  apply (launch_nodes_in_order example_env
           (master_with "a/0:0, b/1:0-1x2") two_nodes 7).
  - repeat constructor.
  - reflexivity.
  - reflexivity.
Defined.

Lemma launch_nodes_stops_at_malformed_witness :
  exists sargs : string,
    slave_args example_env (master_with "a/0:0, oops, b/1:0") = Ok sargs
    /\ _launch_nodes example_env (master_with "a/0:0, oops, b/1:0")
       = (emit ([mkEntry "a" 0 0 None None]
                  ≫= entry_launches "/opt/veles.py" sargs)
               (master_with "a/0:0, oops, b/1:0"), Some ValueError).
Proof.
  apply (launch_nodes_stops_at_malformed example_env
           (master_with "a/0:0, oops, b/1:0")
           [mkEntry "a" 0 0 None None] "oops" ["b/1:0"] 7).
  - repeat constructor.
  - reflexivity.
  - reflexivity.
  - reflexivity.
Defined.

Example two_nodes_launches :
  events (fst (_launch_nodes example_env (master_with "a/0:0, b/1:0-1x2")))
  = [RemoteLaunch "a" "/opt/veles.py wf.py -m master1:5000 -b -d 0:0";
     RemoteLaunch "b" "/opt/veles.py wf.py -m master1:5000 -b -d 1:0";
     RemoteLaunch "b" "/opt/veles.py wf.py -m master1:5000 -b -d 1:1";
     RemoteLaunch "b" "/opt/veles.py wf.py -m master1:5000 -b -d 1:0";
     RemoteLaunch "b" "/opt/veles.py wf.py -m master1:5000 -b -d 1:1"].
Proof. vm_compute. reflexivity. Qed.

End NodeListExamples.

(* ===================================================================== *)
(** * The node list of the command line *)
(* ===================================================================== *)

Section NodeListParsing.

Import Launcher.

(** An entry as [__init__] keeps it: not empty, without a comma, with no
    blank at either end. *)
Definition clean_entry (e : string) : Prop :=
  e <> "" /\ lacks "," e = true /\ strip e = e.

Lemma split_parts_lack (c : ascii) (s : string) :
  Forall (fun p => lacks c p = true) (split c s).
Proof.
  induction s as [| a s IH]; cbn [split]; [repeat constructor |].
  destruct (Ascii.eqb a c) eqn:Ha; [now constructor |].
  destruct (split c s) as [| p ps].
  - repeat constructor. rewrite lacks_cons, Ha. reflexivity.
  - apply Forall_cons in IH as [Hp Hps]. constructor; [| exact Hps].
    rewrite lacks_cons, Ha, Hp. reflexivity.
Qed.

Lemma lacks_lstrip (c : ascii) (s : string) :
  lacks c s = true -> lacks c (lstrip s) = true.
Proof.
  induction s as [| a s IH]; cbn [lstrip]; [easy |].
  intros H. destruct (is_space a); [| exact H].
  apply IH. rewrite lacks_cons in H. now apply andb_true_iff in H as [_ H].
Qed.

Lemma lacks_rstrip (c : ascii) (s : string) :
  lacks c s = true -> lacks c (rstrip s) = true.
Proof.
  induction s as [| a s IH]; cbn [rstrip]; [easy |].
  rewrite lacks_cons. intros H. apply andb_true_iff in H as [Ha Hs].
  specialize (IH Hs). destruct (rstrip s) as [| b r].
  - destruct (is_space a); [reflexivity |]. now rewrite lacks_cons, Ha.
  - now rewrite lacks_cons, Ha, IH.
Qed.

Lemma rstrip_rstrip (s : string) : rstrip (rstrip s) = rstrip s.
Proof.
  induction s as [| a s IH]; cbn [rstrip]; [reflexivity |].
  destruct (rstrip s) as [| b r] eqn:Hr.
  - destruct (is_space a) eqn:Ha; cbn [rstrip]; [reflexivity |].
    now rewrite Ha.
  - change (rstrip (String a (String b r)))
      with (match rstrip (String b r) with
            | "" => if is_space a then "" else String a ""
            | r' => String a r'
            end).
    now rewrite IH.
Qed.

Lemma lstrip_head (s : string) :
  match lstrip s with
  | "" => True
  | String c _ => is_space c = false
  end.
Proof.
  induction s as [| a s IH]; cbn [lstrip]; [exact I |].
  destruct (is_space a) eqn:Ha; [exact IH | exact Ha].
Qed.

Lemma lstrip_rstrip_lstrip (s : string) :
  lstrip (rstrip (lstrip s)) = rstrip (lstrip s).
Proof.
  pose proof (lstrip_head s) as H.
  destruct (lstrip s) as [| c r]; [reflexivity |].
  cbn [rstrip]. destruct (rstrip r); rewrite ?H; cbn [lstrip];
    now rewrite H.
Qed.

Lemma strip_strip (s : string) : strip (strip s) = strip s.
Proof.
  unfold strip. now rewrite lstrip_rstrip_lstrip, rstrip_rstrip.
Qed.

(** X14. Whatever the command line says, the entries kept are clean. *)
Theorem init_slaves_clean (env : Env) (raw : Args) (l : Launcher) :
  __init__ env raw = Ok l -> Forall clean_entry (_slaves l).
Proof.
  intros H.
  assert (_slaves l
          = List.filter truthy (strip <$> split "," (nodes raw))) as ->.
  { unfold __init__ in H. cbn [nodes] in H.
    destruct (background raw); [destruct (epoll_fd env) |];
      cbn [mbind result_bind] in H; try discriminate H;
      injection H as <-; reflexivity. }
  apply List.Forall_forall. intros e He.
  apply filter_In in He as [He Ht]. apply in_map_iff in He as (p & <- & Hp).
  split; [| split].
  - intros Heq. now rewrite Heq in Ht.
  - unfold strip. apply lacks_rstrip, lacks_lstrip.
    pose proof (split_parts_lack "," (nodes raw)) as Hall.
    rewrite List.Forall_forall in Hall. now apply Hall.
  - apply strip_strip.
Qed.

Lemma split_join (e : string) (es : list string) :
  Forall clean_entry (e :: es) ->
  split "," (join ", " (e :: es)) = e :: (String " " <$> es).
Proof.
  revert e. induction es as [| e' es IH]; intros e H.
  - apply Forall_cons in H as [(_ & He & _) _]. cbn [join fmap list_fmap].
    now apply split_lacks.
  - apply Forall_cons in H as [(_ & He & _) H].
    change (join ", " (e :: e' :: es))
      with (e +:+ String "," (String " " (join ", " (e' :: es)))).
    rewrite (split_at "," e _ He). cbn [split Ascii.eqb Bool.eqb].
    rewrite (IH e' H). reflexivity.
Qed.

Lemma filter_truthy_clean (es : list string) :
  Forall clean_entry es -> List.filter truthy es = es.
Proof.
  induction 1 as [| e es (He & _) _ IH]; [reflexivity |].
  cbn [List.filter]. rewrite IH. now destruct e.
Qed.

Lemma strip_after_blank (e : string) : strip (String " " e) = strip e.
Proof. reflexivity. Qed.

(** X15. Clean entries written with a comma and a blank between them are read
    back as they are, in their order. *)
Theorem init_slaves_round_trip (env : Env) (raw : Args) (es : list string) :
  Forall clean_entry es ->
  background raw = false ->
  nodes raw = join ", " es ->
  exists l : Launcher, __init__ env raw = Ok l /\ _slaves l = es.
Proof.
  intros Hes Hbg Hnodes. unfold __init__. cbn [nodes background].
  rewrite Hbg, Hnodes. cbn [mbind result_bind]. eexists.
  split; [reflexivity |]. cbn [_slaves].
  destruct es as [| e es]; [reflexivity |].
  rewrite (split_join e es Hes), fmap_cons, <- list_fmap_compose.
  assert (forall xs, Forall clean_entry xs ->
                     strip ∘ String " " <$> xs = xs) as Hmap.
  { induction 1 as [| x xs (_ & _ & Hx) _ IH]; [reflexivity |].
    rewrite fmap_cons, IH. unfold compose at 1.
    now rewrite strip_after_blank, Hx. }
  pose proof Hes as Hall. apply Forall_cons in Hes as [(_ & _ & He) Hes].
  rewrite He, (Hmap es Hes).
  now apply filter_truthy_clean.
Qed.

End NodeListParsing.

Section NodeListParsingExamples.

Import Launcher.

Lemma init_slaves_clean_witness :
  Forall clean_entry (_slaves (master_with " a/0:0 ,, b/1:0-1 ,")).
Proof.
  apply (init_slaves_clean example_env
           (mkArgs "" "0.0.0.0:5000" "" false true " a/0:0 ,, b/1:0-1 ," "")).
  reflexivity.
Defined.

Lemma init_slaves_round_trip_witness :
  exists l : Launcher,
    __init__ example_env
      (mkArgs "" "0.0.0.0:5000" "" false true "a/0:0, b/1:0-1" "") = Ok l
    /\ _slaves l = ["a/0:0"; "b/1:0-1"].
Proof.
  apply (init_slaves_round_trip example_env
           (mkArgs "" "0.0.0.0:5000" "" false true "a/0:0, b/1:0-1" "")
           ["a/0:0"; "b/1:0-1"]).
  - repeat constructor; discriminate.
  - reflexivity.
  - reflexivity.
Defined.

Example init_slaves_blanks :
  _slaves (master_with " a/0:0 ,, b/1:0-1 ,") = ["a/0:0"; "b/1:0-1"].
Proof. reflexivity. Qed.

End NodeListParsingExamples.

(* ===================================================================== *)
(** * Stopping a running launcher *)
(* ===================================================================== *)

Section StopWhileRunning.

Import ThreadPool Launcher.

(** An uninitialized launcher whose lock is free: [stop] returns at once
    and changes nothing. *)
Definition at_rest (l : Launcher) : Prop :=
  _lock l = false /\ _initialized l = false.

Lemma stop_at_rest (depth : nat) (w : World) :
  at_rest (ext w) -> stop (S depth) w = Done w.
Proof.
  intros [Hl Hi]. destruct w as [se si sei sii ps h np lg l].
  destruct l as [a sl lk wfl ini run nt it evs]. simpl in *. subst.
  reflexivity.
Qed.

Lemma call_callback_at_rest (depth : nat) (cb : callback) (w : World) :
  at_rest (ext w) ->
  call_callback (stop (S depth)) cb w
  = Done (set_ext ((fun _ l => l) cb (ext w)) w).
Proof.
  intros H. destruct cb; cbn [call_callback].
  - rewrite (stop_at_rest depth w H). now destruct w.
  - now destruct w.
Qed.

Lemma effects_same (cbs : list callback) (l : Launcher) :
  effects (fun _ l => l) cbs l = l.
Proof. induction cbs as [| cb cbs IH]; [reflexivity | exact IH]. Qed.

(** What [_on_stop] asks of the collaborators before the pool. *)
Definition on_stop_events (l : Launcher) (wf : Workflow) : list levent :=
  (if reports_web_status l then [IOLoopStopped] else [])
  ++ (if plotters_are_enabled wf then [GraphicsStopped] else []).

(** The launcher as [_on_stop] leaves it. *)
Definition stopped_launcher (l : Launcher) (wf : Workflow) : Launcher :=
  mkLauncher (args l) (_slaves l) (_lock l) (_workflow l) false false
             (if reports_web_status l then Some false else notify_task l)
             (ioloop_thread l) (events l ++ on_stop_events l wf).

(** The notification task and its thread are as [_pre_run] leaves them. *)
Definition reporting (l : Launcher) : Prop :=
  reports_web_status l = true ->
  notify_task l = Some true /\ ioloop_thread l = Some true.

Lemma on_stop_unlocked (depth : nat) (w : World) (wf : Workflow)
  (p : Pool callback) :
  _lock (ext w) = false ->
  _workflow (ext w) = Some wf ->
  reporting (ext w) ->
  heap w !! thread_pool wf = Some p ->
  in_registry (thread_pool wf) w = true ->
  shutting_down p = false ->
  has_room p ->
  _on_stop (stop (S depth)) w
  = Done (mkProcess (sys_exit w) (sigint w) (sysexit_initial w)
            (sigint_initial w) (list_remove (thread_pool wf) (pools w))
            (<[thread_pool wf := stopped true p]> (heap w)) (next_pool w)
            (log w ++ shutdown_log (thread_pool wf) true false p)
            (stopped_launcher (ext w) wf)).
Proof.
  intros Hlock Hwf Hrep Hp Hreg Hsd Hroom.
  pose proof (shutdown_effect (fun _ l => l) at_rest
                (call_callback (stop (S depth)))
                (call_callback_at_rest depth) (fun _ _ H => H)
                (thread_pool wf) true false) as Hshut.
  unfold _on_stop, stopped_launcher, on_stop_events. cbv zeta.
  change (reports_web_status (ext (on_launcher (set_flags false false) w)))
    with (reports_web_status (ext w)).
  set (sh := shutdown (call_callback (stop (S depth)))) in *. clearbody sh.
  unfold reporting in Hrep.
  destruct (reports_web_status (ext w)) eqn:Hweb.
  - destruct (Hrep eq_refl) as [Hn Ht]. clear Hrep Hweb.
    destruct w as [se si sei sii ps h np lg l].
    destruct l as [a sl lk wfl ini run nt it evs]. simpl in *. subst.
    unfold on_launcher. simpl.
    destruct (plotters_are_enabled wf); simpl;
      (rewrite (Hshut _ p);
         [| simpl; assumption .. | split; reflexivity]);
      simpl; rewrite effects_same; unfold emit, set_notify, set_flags;
      simpl; rewrite <- ?app_assoc; reflexivity.
  - clear Hrep Hweb.
    destruct w as [se si sei sii ps h np lg l].
    destruct l as [a sl lk wfl ini run nt it evs]. simpl in *. subst.
    unfold on_launcher. simpl.
    destruct (plotters_are_enabled wf); simpl;
      (rewrite (Hshut _ p);
         [| simpl; assumption .. | split; reflexivity]);
      simpl; rewrite effects_same; unfold emit, set_notify, set_flags;
      simpl; rewrite ?app_nil_r; reflexivity.
Qed.

(** X16. On a launcher that runs, [stop] only asks the reactor to stop.
    When [_on_stop] runs after that, with the lock free, the callback of
    the pool, which is the launcher's own [stop], finds the launcher no
    longer initialized and returns at once: the shutdown of the pool
    gets past its callbacks and sends the stop signals. This is for a
    launcher that does not report to the status server, with plotting
    off and no callback on the pool but its own; what follows the stop
    signals are the joins. *)
Theorem stop_while_running (depth : nat) (w : World) (wf : Workflow)
  (p : Pool callback) :
  _lock (ext w) = false ->
  _initialized (ext w) = true ->
  _running (ext w) = true ->
  _workflow (ext w) = Some wf ->
  reports_web_status (ext w) = false ->
  plotters_are_enabled wf = false ->
  heap w !! thread_pool wf = Some p ->
  in_registry (thread_pool wf) w = true ->
  shutting_down p = false ->
  has_room p ->
  Forall (eq LauncherStop) (on_shutdowns p) ->
  stop (S depth) w = Done (on_launcher (emit [ReactorStopRequested]) w)
  /\ exists tail : list (event callback),
       let o := _on_stop (stop (S depth))
                  (on_launcher (emit [ReactorStopRequested]) w) in
       _initialized (ext (state_of o)) = false
       /\ _running (ext (state_of o)) = false
       /\ log (state_of o)
          = log w ++ (ShutdownerRun (thread_pool wf) <$> on_shutdowns p)
              ++ replicate (workers p)
                   (StopSent (thread_pool wf) (front_put p))
              ++ tail
       /\ Forall is_join_event tail.
Proof.
  intros Hlock Hi Hr Hwf Hweb Hplot Hp Hreg Hsd Hroom _.
  split.
  - destruct w as [se si sei sii ps h np lg l].
    destruct l as [a sl lk wfl ini run nt it evs]. simpl in *. subst.
    reflexivity.
  - exists (((fun t => Joined (thread_pool wf) t false) <$> threads p)
            ++ [Destroyed (thread_pool wf)]).
    rewrite (on_stop_unlocked depth _ wf p).
    + cbn [state_of ext log]. split; [reflexivity |].
      split; [reflexivity |]. split; [now destruct w |].
      apply Forall_app. split; [| repeat constructor].
      apply Forall_fmap, Forall_true. intros t. exact I.
    + destruct w. exact Hlock.
    + destruct w. exact Hwf.
    + unfold reporting.
      change (reports_web_status
                (ext (on_launcher (emit [ReactorStopRequested]) w)))
        with (reports_web_status (ext w)).
      rewrite Hweb. discriminate.
    + destruct w. exact Hp.
    + destruct w. exact Hreg.
    + exact Hsd.
    + exact Hroom.
Qed.

End StopWhileRunning.

(* ===================================================================== *)
(** * Binding a workflow *)
(* ===================================================================== *)

Section Binding.

Import ThreadPool Launcher.

Lemma launch_each_emits (prog sargs : string) (ns : list string) :
  forall l : Launcher,
    exists evs, fst (launch_each prog sargs ns l) = emit evs l.
Proof.
  induction ns as [| n ns IH]; intros l; cbn [launch_each].
  - exists []. now rewrite emit_nil.
  - destruct (parse_node n) as [nd | e].
    + destruct (IH (emit (node_launches prog sargs nd) l)) as [evs ->].
      rewrite emit_emit. eauto.
    + exists []. now rewrite emit_nil.
Qed.

Lemma launch_nodes_emits (env : Env) (l : Launcher) :
  exists evs, fst (_launch_nodes env l) = emit evs l.
Proof.
  unfold _launch_nodes. destruct (slaves l) as [| n ns].
  - exists []. now rewrite emit_nil.
  - destruct (slave_args env l); [apply launch_each_emits |].
    exists []. now rewrite emit_nil.
Qed.

Lemma launch_nodes_raises (env : Env) (l l' : Launcher) (e : exn) :
  _launch_nodes env l = (l', Some e) -> slaves l <> [].
Proof.
  unfold _launch_nodes. intros H Heq. rewrite Heq in H. discriminate.
Qed.

Lemma launch_status_emits (env : Env) (l : Launcher) :
  exists evs, _launch_status env l = emit evs l.
Proof.
  unfold _launch_status.
  destruct (negb (reports_web_status l));
    [exists []; now rewrite emit_nil |].
  destruct (web_status_reachable env); [| eauto].
  exists []. now rewrite emit_nil.
Qed.

(** The launcher inside [add_ref]: the lock held, the workflow bound,
    the rest as it came. *)
Definition binding (l0 : Launcher) (wf : Workflow) (l : Launcher) : Prop :=
  args l = args l0 /\ _slaves l = _slaves l0 /\ _lock l = true
  /\ _initialized l = _initialized l0 /\ _running l = _running l0
  /\ _workflow l = Some wf.

Lemma binding_emit (l0 : Launcher) (wf : Workflow) (evs : list levent)
  (l : Launcher) :
  binding l0 wf l -> binding l0 wf (emit evs l).
Proof. intros H. exact H. Qed.

Lemma binding_notify (l0 : Launcher) (wf : Workflow) (n t : option bool)
  (l : Launcher) :
  binding l0 wf l -> binding l0 wf (set_notify n t l).
Proof. intros H. exact H. Qed.

(** The pool's entry once [self.stop] is registered on it. *)
Definition with_stop (p : Pool callback) : Pool callback :=
  set_on_shutdowns (on_shutdowns p ++ [LauncherStop]) p.

(** How [add_ref] ends in the model, where only the launch of the
    nodes raises. *)
Lemma add_ref_outcome (env : Env) (wf : Workflow) (w : World)
  (p : Pool callback) :
  _lock (ext w) = false ->
  heap w !! thread_pool wf = Some p ->
  exists w' : World,
    (add_ref env wf w = Done w' /\ _initialized (ext w') = true
     \/ (exists e, add_ref env wf w = Raised e w')
        /\ _initialized (ext w') = _initialized (ext w)
        /\ slaves (ext w) <> [])
    /\ _lock (ext w') = false
    /\ (exists wf', _workflow (ext w') = Some wf'
                    /\ thread_pool wf' = thread_pool wf)
    /\ heap w' !! thread_pool wf = Some (with_stop p)
    /\ pools w' = pools w
    /\ args (ext w') = args (ext w).
Proof.
  intros Hlock Hp.
  unfold add_ref, threadsafe. rewrite Hlock.
  destruct w as [se si sei sii ps h np lg l0]. cbn [ext] in Hlock.
  unfold on_launcher, register_on_shutdown.
  cbn [ext set_ext set_heap heap sys_exit sigint sysexit_initial
       sigint_initial pools next_pool log] in *.
  set (h' := alter _ (thread_pool wf) h).
  assert (h' !! thread_pool wf = Some (with_stop p)) as Hheap.
  { subst h'. rewrite lookup_alter_eq, Hp. reflexivity. }
  clearbody h'.
  set (l1 := emit [TriggerAdded] (set_lock true l0)).
  assert (is_slave l1 = is_slave l0) as -> by reflexivity.
  assert (matplotlib_backend (args l1) = matplotlib_backend (args l0)) as ->
    by reflexivity.
  set (wf1 := if is_slave l0 || negb (truthy (matplotlib_backend (args l0)))
              then _ else wf).
  assert (thread_pool wf1 = thread_pool wf) as Hwf1
    by (subst wf1; now destruct (_ || _)).
  clearbody wf1.
  set (l2 := set_workflow (Some wf1) l1).
  assert (binding l0 wf1 l2) as H2 by (now destruct l0).
  clearbody l2. clear l1.
  assert (forall l, binding l0 wf1 l ->
            let w' := mkProcess se si sei sii ps h' np lg
                        (set_lock false (set_flags true (_running l) l)) in
            _initialized (ext w') = true
            /\ _lock (ext w') = false
            /\ (exists wf', _workflow (ext w') = Some wf'
                            /\ thread_pool wf' = thread_pool wf)
            /\ heap w' !! thread_pool wf = Some (with_stop p)
            /\ pools w' = ps /\ args (ext w') = args l0) as Hfinish.
  { intros l (Ha & _ & _ & _ & _ & Hw). cbn.
    split; [reflexivity |]. split; [reflexivity |].
    split; [eauto |]. split; [exact Hheap |]. split; [reflexivity |].
    exact Ha. }
  assert (is_slave l2 = is_slave l0) as ->.
  { unfold is_slave. now destruct H2 as (-> & _). }
  destruct (is_slave l0) eqn:Hslave.
  { cbn [set_ext sys_exit sigint sysexit_initial sigint_initial pools heap
         next_pool log ext].
    eexists. split; [left; split; [reflexivity |] |];
      apply (Hfinish (emit _ l2)); now apply binding_emit. }
  set (l3 := if reports_web_status l2 then _ else l2).
  assert (binding l0 wf1 l3) as H3.
  { subst l3. destruct (reports_web_status l2); [| exact H2].
    destruct (launch_status_emits env
                (set_notify (Some false) (Some false) l2)) as [e1 ->].
    now apply binding_emit, binding_notify. }
  clearbody l3. clear H2 l2.
  set (l4 := if plotters_are_enabled wf1 then _ else l3).
  assert (binding l0 wf1 l4) as H4.
  { subst l4. destruct (plotters_are_enabled wf1); [| exact H3].
    now apply binding_emit. }
  clearbody l4. clear H3 l3.
  destruct (is_master l4) eqn:Hmaster.
  - set (l5 := emit _ l4).
    assert (binding l0 wf1 l5) as H5 by now apply binding_emit.
    clearbody l5.
    destruct (launch_nodes_emits env l5) as [e5 He5].
    destruct (_launch_nodes env l5) as [l6 [e |]] eqn:Hln;
      cbn [fst] in He5; subst l6.
    + exists (mkProcess se si sei sii ps h' np lg
                (set_lock false (emit e5 l5))).
      destruct H5 as (Ha & Hs & Hl & Hi & Hr & Hw).
      split; [right; split; [eexists; reflexivity |] |].
      * split; [exact Hi |]. apply launch_nodes_raises in Hln.
        unfold slaves, is_master in *. now rewrite <- Ha, <- Hs.
      * cbn. split; [reflexivity |]. split; [eauto |].
        split; [exact Hheap |]. split; [reflexivity | exact Ha].
    + eexists. split; [left; split; [reflexivity |] |];
        apply (Hfinish (emit e5 l5)); now apply binding_emit.
  - eexists. split; [left; split; [reflexivity |] |];
      now apply (Hfinish l4).
Qed.

(** What [add_ref] has done by the time it ends, either way: the lock
    is free again, the workflow is bound, [self.stop] is the last of the
    callbacks of the workflow's pool. *)
Definition linked (wf : Workflow) (p : Pool callback) (w w' : World) : Prop :=
  _lock (ext w') = false
  /\ (exists wf', _workflow (ext w') = Some wf'
                  /\ thread_pool wf' = thread_pool wf)
  /\ heap w' !! thread_pool wf = Some (with_stop p)
  /\ pools w' = pools w
  /\ args (ext w') = args (ext w).

(** X17. When [add_ref] returns, the launcher is marked initialized.
    When the launch of the nodes raises inside it, the exception passes
    with the flag as it was. Either way the lock is free again, the
    workflow is bound and [self.stop] is already among the callbacks of
    the workflow's pool. *)
Theorem add_ref_postcondition (env : Env) (wf : Workflow) (w : World)
  (p : Pool callback) :
  _lock (ext w) = false ->
  heap w !! thread_pool wf = Some p ->
  (forall w' : World,
      add_ref env wf w = Done w' ->
      _initialized (ext w') = true /\ linked wf p w w')
  /\ (forall (e : exn) (w' : World),
        add_ref env wf w = Raised e w' ->
        _initialized (ext w') = _initialized (ext w) /\ linked wf p w w').
Proof.
  intros Hlock Hp.
  destruct (add_ref_outcome env wf w p Hlock Hp)
    as (w0 & [[Hd Hi] | [[e0 He] [Hi _]]] & Hlinked).
  - split.
    + intros w' H. rewrite Hd in H. injection H as <-. now split.
    + intros e w' H. rewrite Hd in H. discriminate H.
  - split.
    + intros w' H. rewrite He in H. discriminate H.
    + intros e w' H. rewrite He in H. injection H as _ <-. now split.
Qed.

End Binding.

Section BindingExamples.

Import ThreadPool Launcher.

(** The pool of the workflow, as [ThreadPool.__init__] leaves it. *)
Definition workflow_pool : Pool callback :=
  mkPool [] 2048 false 3 [(0, 0); (0, 1); (0, 2)]%nat [] false false.

(** The launcher bound to its workflow and past [_pre_run]. *)
Definition running (stealthy : bool) : World :=
  state_of (_pre_run (bound stealthy)).

Lemma add_ref_postcondition_witness :
  _initialized (ext (bound false)) = true
  /\ linked (mkWorkflow 0 true) workflow_pool (unbound false) (bound false).
Proof.
  exact (proj1 (add_ref_postcondition example_env (mkWorkflow 0 true)
                  (unbound false) workflow_pool eq_refl eq_refl)
               (bound false) eq_refl).
Defined.

(** A master whose second node entry is malformed, and the pool of the
    workflow it is about to be bound to. *)
Definition unbound_master : World :=
  snd (ThreadPool.__init__ 3 2048
         (mkProcess builtin_exit (handler_before 0) exit_None sigint_None
            [] ∅ 0 [] (master_with "a/0:0, oops"))).

(** [add_ref] on it: the first node is launched, the second raises; the
    launcher is not initialized, yet its [stop] is on the pool. *)
Example add_ref_raises :
  exists w' : World,
    add_ref example_env (mkWorkflow 0 true) unbound_master
    = Raised ValueError w'
    /\ _initialized (ext w') = false
    /\ _lock (ext w') = false
    /\ (on_shutdowns <$> heap w' !! 0%nat) = Some [LauncherStop]
    /\ events (ext w')
       = [TriggerAdded; ServerCreated "0.0.0.0:5000";
          RemoteLaunch "a" "/opt/veles.py wf.py -m master1:5000 -b -d 0:0"].
Proof.
  eexists. split; [vm_compute; reflexivity |]. repeat split.
Qed.

Lemma stop_while_running_witness :
  stop 1 (running true)
  = Done (on_launcher (emit [ReactorStopRequested]) (running true))
  /\ exists tail : list (event callback),
       let o := _on_stop (stop 1)
                  (on_launcher (emit [ReactorStopRequested])
                               (running true)) in
       _initialized (ext (state_of o)) = false
       /\ _running (ext (state_of o)) = false
       /\ log (state_of o)
          = [HooksInstalled] ++ [ShutdownerRun 0 LauncherStop]
              ++ replicate 3 (StopSent 0 false) ++ tail
       /\ Forall is_join_event tail.
Proof.
  apply (stop_while_running 0 (running true) (mkWorkflow 0 false)
           (with_stop workflow_pool)); try reflexivity.
  - right. vm_compute. lia.
  - repeat constructor.
Defined.

End BindingExamples.

(* ===================================================================== *)
(** * The block size a pass records *)
(* ===================================================================== *)

Section BlockSize.

Import OpenCL.

Variable dtypes : list string.

(** What the sweep keeps of the device under test for one type [t]: its
    best time and the block size that goes with it. *)
Definition best : Type := (option float * option Z)%type.

Definition best_of (self t : string) (s : Sweep) : best :=
  (dict_lookup self (infos s) ≫= (fun me => dt me !! t),
   dict_lookup self (infos s) ≫= (fun me => BLOCK_SIZE me !! t)).

(** Lines 199-201: a time strictly below the best so far replaces it,
    and its block size with it. *)
Definition best_step (ms : Measure) (t : string) (v : best)
  (job : Z * string) : best :=
  if decide (job.2 = t) then
    match dev_time ms job.1 t, v.1 with
    | Some x, Some o => if PrimFloat.ltb x o then (Some x, Some job.1) else v
    | _, _ => v
    end
  else v.

Lemma cpu_part_infos (ms : Measure) (bs : Z) (t : string) (s s' : Sweep) :
  cpu_part ms bs t s = Ok s' -> infos s' = infos s.
Proof. intros H. now destruct (cpu_part_view "" ms bs t t s s' H). Qed.

Lemma dev_part_best (self : string) (bs : Z) (t' t : string) (x : float)
  (ms : Measure) (s s' : Sweep) :
  dev_time ms bs t' = Some x ->
  dev_part self bs t' x s = Ok s' ->
  best_of self t s' = best_step ms t (best_of self t s) (bs, t').
Proof.
  intros Hx H. unfold dev_part in H.
  apply bind_Ok in H as (me & Hme & H). apply dict_get_Ok in Hme.
  apply bind_Ok in H as (own & Hown & H). apply getitem_Ok in Hown.
  apply bind_Ok in H as (m & _ & H).
  apply bind_Ok in H as (c & _ & H).
  destruct (decide (_ ∈ cc s)); [| discriminate].
  injection H as <-. unfold best_of, best_step. cbn [infos fst snd].
  rewrite dict_lookup_set_eq, Hme. cbn [mbind option_bind].
  destruct (decide (t' = t)) as [-> | Hne].
  - rewrite Hx, Hown. destruct (PrimFloat.ltb x own); [| now rewrite Hown].
    cbn [dt BLOCK_SIZE set_dt set_BLOCK_SIZE].
    now rewrite !lookup_insert_eq.
  - destruct (PrimFloat.ltb x own); [| reflexivity].
    cbn [dt BLOCK_SIZE set_dt set_BLOCK_SIZE].
    now rewrite !lookup_insert_ne by exact Hne.
Qed.

Lemma test_one_best (self : string) (ms : Measure) (t : string)
  (s s' : Sweep) (job : Z * string) :
  test_one self ms s job = Ok s' ->
  best_of self t s' = best_step ms t (best_of self t s) job.
Proof.
  destruct job as [bs t']. unfold test_one. intros H.
  apply bind_Ok in H as (s1 & H1 & H).
  apply cpu_part_infos in H1.
  assert (best_of self t s1 = best_of self t s) as <-
    by (unfold best_of; now rewrite H1).
  destruct (dev_time ms bs t') as [x |] eqn:Hx.
  - now apply (dev_part_best self bs t' t x ms).
  - injection H as <-. unfold best_step. cbn [fst snd].
    destruct (decide (t' = t)) as [-> |]; [now rewrite Hx | reflexivity].
Qed.

Lemma run_jobs_best (self : string) (ms : Measure) (t : string) :
  forall (l : list (Z * string)) (s s' : Sweep),
    run_jobs self ms l s = Ok s' ->
    best_of self t s' = fold_left (best_step ms t) l (best_of self t s).
Proof.
  induction l as [| j l IH]; intros s s' H; cbn [run_jobs fold_left] in *.
  - now injection H as <-.
  - apply bind_Ok in H as (s1 & H1 & H).
    rewrite (IH _ _ H). f_equal. now apply test_one_best.
Qed.

(** The best time and its block size go together: either nothing beat
    the starting value, or the time was measured at the block size. *)
Definition measured_at (ms : Measure) (t : string) (start : best) (v : best)
  : Prop :=
  v = start
  \/ exists (b : Z) (x : float),
       (4 <= b <= 32)%Z /\ dev_time ms b t = Some x
       /\ v = (Some x, Some b).

Lemma best_step_measured (ms : Measure) (t : string) (start v : best)
  (job : Z * string) :
  (4 <= job.1 <= 32)%Z ->
  measured_at ms t start v ->
  measured_at ms t start (best_step ms t v job).
Proof.
  intros Hb Hv. unfold best_step.
  destruct (decide (job.2 = t)); [| exact Hv].
  destruct (dev_time ms job.1 t) as [x |] eqn:Hx; [| exact Hv].
  destruct v.1 as [o |]; [| exact Hv].
  destruct (PrimFloat.ltb x o); [| exact Hv].
  right. exists job.1, x. auto.
Qed.

Lemma fold_measured (ms : Measure) (t : string) (start : best) :
  forall (l : list (Z * string)) (v : best),
    Forall (fun j => 4 <= j.1 <= 32)%Z l ->
    measured_at ms t start v ->
    measured_at ms t start (fold_left (best_step ms t) l v).
Proof.
  induction l as [| j l IH]; intros v Hl Hv; [exact Hv |].
  apply Forall_cons in Hl as [Hj Hl]. cbn [fold_left].
  apply IH; [exact Hl |]. now apply best_step_measured.
Qed.

Lemma block_sizes_range : Forall (fun b => 4 <= b <= 32)%Z block_sizes.
Proof.
  apply List.Forall_forall. intros b Hb. unfold block_sizes in Hb.
  apply list_elem_of_In, list_elem_of_fmap in Hb as (n & -> & Hn).
  apply list_elem_of_In in Hn. apply <- in_rev in Hn.
  apply in_seq in Hn. lia.
Qed.

Lemma jobs_range : Forall (fun j => 4 <= j.1 <= 32)%Z (jobs dtypes).
Proof.
  unfold jobs. apply List.Forall_forall. intros j Hj.
  apply list_elem_of_In, list_elem_of_bind in Hj as (b & Hj & Hb).
  apply list_elem_of_fmap in Hj as (t & -> & _). cbn [fst].
  pose proof block_sizes_range as H. rewrite List.Forall_forall in H.
  apply H. now apply list_elem_of_In.
Qed.

Lemma rate_all_lookup (m : gmap string float) (k : string) :
  forall (d d' : dict) (v : DeviceInfo),
    rate_all dtypes m d = Ok d' ->
    dict_lookup k d = Some v ->
    exists v', dict_lookup k d' = Some v'
               /\ rate_device m dtypes v = Ok v'.
Proof.
  induction d as [| [k0 v0] d IH]; intros d' v H Hv; [discriminate |].
  cbn [rate_all] in H.
  apply bind_Ok in H as (v1 & H1 & H). apply bind_Ok in H as (r' & Hr & H).
  injection H as <-. cbn [dict_lookup] in *.
  destruct (String.eqb k k0).
  - injection Hv as <-. eauto.
  - now apply (IH r').
Qed.

(** X18. After a pass that completes, the device under test has, for every
    data type, either no time below one day and the block size it came
    with, or a best time that was measured in this pass at the block
    size recorded with it, one of 4..32. *)
Theorem do_tests_block_size (self : string) (ms : Measure)
  (device_infos infos' : dict) :
  _do_tests dtypes self ms device_infos = Ok infos' ->
  exists me0 me' : DeviceInfo,
    dict_lookup self device_infos = Some me0
    /\ dict_lookup self infos' = Some me'
    /\ forall t : string,
         t ∈ dtypes ->
         (dt me' !! t = Some never
          /\ BLOCK_SIZE me' !! t = BLOCK_SIZE me0 !! t)
         \/ exists (b : Z) (x : float),
              (4 <= b <= 32)%Z /\ dev_time ms b t = Some x
              /\ dt me' !! t = Some x /\ BLOCK_SIZE me' !! t = Some b.
Proof.
  intros H. unfold _do_tests in H.
  apply bind_Ok in H as (s & Hs & H). apply bind_Ok in H as (_ & _ & H).
  unfold sweep in Hs.
  apply bind_Ok in Hs as (me0 & Hme0 & Hs). apply dict_get_Ok in Hme0.
  exists me0.
  set (s0 := mkSweep _ _ _ _) in Hs.
  assert (dict_lookup self (infos s0)
          = Some (set_dt ((fun _ => never) <$> dt me0) me0)) as Hs0
    by apply dict_lookup_set_eq.
  assert (exists me1, dict_lookup self (infos s) = Some me1) as [me1 Hme1].
  { destruct (run_jobs_frame self ms _ _ _ Hs) as [Hkeys _].
    destruct (dict_lookup self (infos s)) as [me1 |] eqn:Hl; [eauto |].
    exfalso.
    assert (forall d : dict, dict_lookup self d = None -> self ∉ d.*1)
      as Hnone.
    { induction d as [| [k v] d IH]; cbn [dict_lookup];
        [intros _; apply not_elem_of_nil |].
      destruct (String.eqb_spec self k) as [-> | Hne]; [discriminate |].
      intros Hd. rewrite fmap_cons. cbn [fst].
      apply not_elem_of_cons. split; [exact Hne | now apply IH]. }
    assert (forall (d : dict) v, dict_lookup self d = Some v -> self ∈ d.*1)
      as Hsome.
    { induction d as [| [k v] d IH]; cbn [dict_lookup]; [discriminate |].
      intros v1. destruct (String.eqb_spec self k) as [-> | Hne].
      - intros _. rewrite fmap_cons. left.
      - intros Hd. rewrite fmap_cons. right. now apply (IH v1). }
    apply (Hnone _ Hl). rewrite Hkeys. now apply (Hsome _ _ Hs0). }
  destruct (rate_all_lookup _ self _ _ _ H Hme1) as (me' & Hme' & Hrate).
  exists me'. split; [exact Hme0 |]. split; [exact Hme' |].
  intros t Ht.
  destruct (rate_device_spec _ _ _ _ Hrate) as (Hdt & _ & Hbs & _ & Hin).
  destruct (Hin t Ht) as (_ & own & _ & Hown & _).
  pose proof (run_jobs_best self ms t _ _ _ Hs) as Hbest.
  unfold best_of in Hbest. rewrite Hme1, Hs0 in Hbest.
  cbn [mbind option_bind dt BLOCK_SIZE set_dt] in Hbest.
  rewrite lookup_fmap in Hbest.
  rewrite Hdt, Hbs.
  destruct (fold_measured ms t
              ((fun _ => never) <$> dt me0 !! t, BLOCK_SIZE me0 !! t)
              (jobs dtypes) _ jobs_range (or_introl eq_refl))
    as [Hstart | (b & x & Hb & Hx & Hv)].
  - rewrite Hstart in Hbest. injection Hbest as Hd Hb. left.
    split; [| exact Hb]. rewrite Hd. rewrite Hown in Hd.
    destruct (dt me0 !! t); [reflexivity | discriminate].
  - rewrite Hv in Hbest. injection Hbest as Hd Hbk. right.
    exists b, x. auto.
Qed.

End BlockSize.

Section BlockSizeExamples.

Import OpenCL.

(** A device at its best with blocks of 16: 1 s there, 3 s elsewhere. *)
Definition best_at_16 : Measure :=
  mkMeasure (fun _ _ => 10%float)
            (fun bs _ => Some (if (bs =? 16)%Z then 1%float else 3%float)).

Definition tuned : dict :=
  match _do_tests two_types "ACME/Fast/1" best_at_16
                  [("ACME/Fast/1", fresh_info)] with
  | Ok d => d
  | Raise _ => []
  end.

Lemma do_tests_block_size_witness :
  exists me0 me' : DeviceInfo,
    dict_lookup "ACME/Fast/1" [("ACME/Fast/1", fresh_info)] = Some me0
    /\ dict_lookup "ACME/Fast/1" tuned = Some me'
    /\ forall t : string,
         t ∈ two_types ->
         (dt me' !! t = Some never
          /\ BLOCK_SIZE me' !! t = BLOCK_SIZE me0 !! t)
         \/ exists (b : Z) (x : float),
              (4 <= b <= 32)%Z /\ dev_time best_at_16 b t = Some x
              /\ dt me' !! t = Some x /\ BLOCK_SIZE me' !! t = Some b.
Proof.
  apply (do_tests_block_size two_types "ACME/Fast/1" best_at_16
           [("ACME/Fast/1", fresh_info)] tuned).
  vm_compute. reflexivity.
Defined.

Example tuned_block_size :
  (fun e => (dt e.2 !! "float", BLOCK_SIZE e.2 !! "float")) <$> tuned
  = [(Some 1%float, Some 16%Z)].
Proof. vm_compute. reflexivity. Qed.

End BlockSizeExamples.

(* ===================================================================== *)
(** * The cache written is the cache read *)
(* ===================================================================== *)

Section CacheRoundTrip.

Import OpenCL.

Variable dtypes : list string.

(** Every value of [m] is the value of [m'] under the same key. *)
Definition kept_in {V} (m m' : gmap string V) : Prop :=
  forall t v, m !! t = Some v -> m' !! t = Some v.

(** X19. A construction that ran the benchmark wrote the cache, with the
    device's record under the device's description. Constructing the
    device again from that cache, with re-testing of known devices off,
    runs no benchmark, writes nothing, and has every rating, time,
    minimum time and block size of the first construction. *)
Theorem cache_round_trip (cfg : Config) (file : cache_file)
  (can_write : bool) (ms : Measure) (me : DeviceInfo) (f : Filled) :
  _fill_device_info_performance_values dtypes cfg file can_write ms me
  = Ok f ->
  tested f = true ->
  exists d : dict,
    written f = Some d
    /\ dict_lookup (desc me) d = Some (device_info f)
    /\ forall (cfg' : Config) (can_write' : bool) (ms' : Measure),
         test_known_device cfg' = false ->
         exists info : DeviceInfo,
           _fill_device_info_performance_values dtypes cfg' (Loaded d)
             can_write' ms' me = Ok (mkFilled info false None)
           /\ kept_in (rating (device_info f)) (rating info)
           /\ kept_in (dt (device_info f)) (dt info)
           /\ kept_in (min_dt (device_info f)) (min_dt info)
           /\ kept_in (BLOCK_SIZE (device_info f)) (BLOCK_SIZE info).
Proof.
  intros H Ht. unfold _fill_device_info_performance_values in H.
  apply bind_Ok in H as (d0 & _ & H).
  destruct (if test_known_device cfg then None else dict_lookup (desc me) d0).
  { injection H as <-. discriminate Ht. }
  destruct (negb (test_unknown_device cfg)).
  { injection H as <-. discriminate Ht. }
  apply bind_Ok in H as (d & _ & H).
  destruct can_write; [| discriminate H].
  apply bind_Ok in H as (me1 & Hme1 & H). apply dict_get_Ok in Hme1.
  injection H as <-. cbn [written device_info tested] in *.
  exists d. split; [reflexivity |]. split; [exact Hme1 |].
  intros cfg' can_write' ms' Hk.
  unfold _fill_device_info_performance_values. cbn [mbind result_bind].
  rewrite Hk, Hme1. eexists. split; [reflexivity |].
  cbn [rating dt min_dt BLOCK_SIZE set_rating set_dt set_min_dt
       set_BLOCK_SIZE].
  repeat split; intros t v Hv; now apply lookup_union_Some_l.
Qed.

End CacheRoundTrip.

Section CacheRoundTripExamples.

Import OpenCL.

Definition first_run : Filled :=
  match _fill_device_info_performance_values two_types (mkConfig false true)
          OpenFails true best_at_16 fresh_info with
  | Ok f => f
  | Raise _ => mkFilled fresh_info false None
  end.

Lemma cache_round_trip_witness :
  exists d : dict,
    written first_run = Some d
    /\ dict_lookup "ACME/Fast/1" d = Some (device_info first_run)
    /\ forall (cfg' : Config) (can_write' : bool) (ms' : Measure),
         test_known_device cfg' = false ->
         exists info : DeviceInfo,
           _fill_device_info_performance_values two_types cfg' (Loaded d)
             can_write' ms' fresh_info = Ok (mkFilled info false None)
           /\ kept_in (rating (device_info first_run)) (rating info)
           /\ kept_in (dt (device_info first_run)) (dt info)
           /\ kept_in (min_dt (device_info first_run)) (min_dt info)
           /\ kept_in (BLOCK_SIZE (device_info first_run)) (BLOCK_SIZE info).
Proof.
  apply (cache_round_trip two_types (mkConfig false true) OpenFails true
           best_at_16 fresh_info first_run).
  - vm_compute. reflexivity.
  - vm_compute. reflexivity.
Defined.

End CacheRoundTripExamples.

(* ===================================================================== *)
(** * The device a slave is told to use *)
(* ===================================================================== *)

Section DeviceSelector.

Import OpenCL.

Variable dtypes : list string.

(** The value of [-d]: a platform and one or more of its devices, as
    the launcher writes them (one device) and as the constructor reads
    them (a list). *)
Definition selector (platform : nat) (devnums : list nat) : string :=
  fmt_d (Z.of_nat platform)
  +:+ String ":" (join "," ((fun n => fmt_d (Z.of_nat n)) <$> devnums)).

(** The description of a device (line 109). *)
Definition description (d : CLDevice) : string :=
  strip (vendor d) +:+ "/" +:+ strip (name d) +:+ "/" +:+ fmt_d (vendor_id d).

Lemma list_getitem_nat {A} (l : list A) (n : nat) (x : A) :
  l !! n = Some x -> list_getitem l (Z.of_nat n) = Ok x.
Proof.
  intros H. unfold list_getitem.
  assert ((Z.of_nat n <? 0)%Z = false) as Hn by (apply Z.ltb_ge; lia).
  rewrite Hn. cbv zeta. now rewrite Hn, Nat2Z.id, H.
Qed.

Lemma split_join_numbers (n : nat) (ns : list nat) :
  split "," (join "," ((fun n => fmt_d (Z.of_nat n)) <$> n :: ns))
  = (fun n => fmt_d (Z.of_nat n)) <$> n :: ns.
Proof.
  revert n. induction ns as [| m ns IH]; intros n.
  - cbn [fmap list_fmap join]. apply split_lacks.
    now apply lacks_fmt_d.
  - rewrite !fmap_cons.
    change (join "," (fmt_d (Z.of_nat n) :: fmt_d (Z.of_nat m)
                        :: ((fun n => fmt_d (Z.of_nat n)) <$> ns)))
      with (fmt_d (Z.of_nat n)
            +:+ String "," (join "," ((fun n => fmt_d (Z.of_nat n))
                                        <$> m :: ns))).
    rewrite (split_at "," (fmt_d (Z.of_nat n))) by now apply lacks_fmt_d.
    now rewrite IH.
Qed.

Lemma select_devices_numbers (ds : list CLDevice) :
  forall ns : list nat,
    Forall (fun n => is_Some (ds !! n)) ns ->
    select_devices ds ((fun n => fmt_d (Z.of_nat n)) <$> ns)
    = Ok (omap (fun n => ds !! n) ns).
Proof.
  induction 1 as [| n ns [d Hd] _ IH]; [reflexivity |].
  rewrite fmap_cons. cbn [select_devices omap list_omap].
  rewrite int_fmt_d. cbn [mbind result_bind].
  rewrite (list_getitem_nat ds n d Hd), IH, Hd. reflexivity.
Qed.

(** X20. The selector [platform:device[,device...]] picks the platform by its
    number and describes the first device listed, as long as every
    device listed exists. With one device it is what the launcher hands
    to a slave after [-d]. *)
Theorem device_selector (platforms : list CLPlatform)
  (some_context : list CLDevice) (p d : nat) (ds : list nat)
  (platform : CLPlatform) (device : CLDevice) :
  platforms !! p = Some platform ->
  devices platform !! d = Some device ->
  Forall (fun n => is_Some (devices platform !! n)) ds ->
  _get_some_device dtypes platforms some_context (selector p (d :: ds))
  = Ok (new_DeviceInfo dtypes (description device) (device_memsize device)
          (device_memalign device) (device_version device)).
Proof.
  intros Hp Hd Hds. unfold _get_some_device, selector.
  assert (forall s1 s2, String.eqb (s1 +:+ String ":" s2) "" = false) as ->
    by (intros [| c s1] s2; reflexivity).
  rewrite (split_at ":" (fmt_d (Z.of_nat p))) by now apply lacks_fmt_d.
  rewrite (split_lacks ":").
  2:{ clear. revert d. induction ds as [| m ds IH]; intros d.
      - now apply lacks_fmt_d.
      - rewrite !fmap_cons.
        change (join "," (fmt_d (Z.of_nat d) :: fmt_d (Z.of_nat m)
                            :: ((fun n => fmt_d (Z.of_nat n)) <$> ds)))
          with (fmt_d (Z.of_nat d)
                +:+ String "," (join "," ((fun n => fmt_d (Z.of_nat n))
                                            <$> m :: ds))).
        rewrite lacks_app, lacks_cons, (IH m), lacks_fmt_d by reflexivity.
        reflexivity. }
  rewrite int_fmt_d. cbn [mbind result_bind].
  rewrite (list_getitem_nat platforms p platform Hp).
  cbn [mbind result_bind].
  rewrite split_join_numbers, select_devices_numbers
    by (constructor; [eauto | exact Hds]).
  cbn [omap list_omap]. rewrite Hd.
  reflexivity.
Qed.

End DeviceSelector.

Section DeviceSelectorExamples.

Import OpenCL Launcher.

Definition gpu (n : Z) : CLDevice :=
  mkCLDevice " ACME " "Fast  " n 1024 64 2%float.

Definition two_platforms : list CLPlatform :=
  [mkCLPlatform [gpu 1]; mkCLPlatform [gpu 2; gpu 3; gpu 4]].

Lemma device_selector_witness :
  _get_some_device two_types two_platforms [gpu 1] "1:2,0"
  = Ok (new_DeviceInfo two_types "ACME/Fast/4" 1024 64 2%float).
Proof.
  apply (device_selector two_types two_platforms [gpu 1] 1 2 [0%nat]
           (mkCLPlatform [gpu 2; gpu 3; gpu 4]) (gpu 4)).
  - reflexivity.
  - reflexivity.
  - repeat constructor. eexists. reflexivity.
Defined.

(** What the second launch of [b/1:0-1x2] is told to use. *)
Example launched_selector :
  node_launches "veles.py" "-m master1:5000 -b" (mkNode "b" 1 1 0 1) !! 1%nat
  = Some (RemoteLaunch "b"
            ("veles.py -m master1:5000 -b -d " +:+ selector 1 [1%nat])).
Proof. reflexivity. Qed.

(** A device number past the end, a negative one, and a selector with
    no colon. *)
Example selector_errors :
  _get_some_device two_types two_platforms [gpu 1] "0:1" = Raise IndexError
  /\ _get_some_device two_types two_platforms [gpu 1] "1:-1"
     = Ok (new_DeviceInfo two_types "ACME/Fast/4" 1024 64 2%float)
  /\ _get_some_device two_types two_platforms [gpu 1] "1" = Raise ValueError
  /\ _get_some_device two_types two_platforms [gpu 1] ""
     = Ok (new_DeviceInfo two_types "ACME/Fast/1" 1024 64 2%float).
Proof. repeat split; vm_compute; reflexivity. Qed.

End DeviceSelectorExamples.

(* ===================================================================== *)
(** * The payload of the contract test *)
(* ===================================================================== *)

Section Payload.

Import NetworkTest.

Variable loads : string -> result pyobj.
Variable dumps : pyobj -> string.

(** X21. With a pickle format that reads the job of [request_job] back as a
    dictionary, the payload [request_job] hands out is one that [do_job]
    does and returns unchanged, and that [apply_update] then accepts.
    Each of the three sets its own flag and no other, whatever the
    flags were. *)
Theorem job_payload_round_trip (c1 c2 c3 : TestWorkflow)
  (items : list (pyobj * pyobj)) :
  loads (dumps (PyDict [(PyStr "objective", PyStr "win")]))
  = Ok (PyDict items) ->
  exists job : string,
    request_job dumps c1
    = (mkTestWorkflow true (job_done c1) (update_applied c1)
                      (power_requested c1) (job_dropped c1), job)
    /\ do_job loads job c2
       = Ok (mkTestWorkflow (job_requested c2) true (update_applied c2)
                            (power_requested c2) (job_dropped c2), job)
    /\ apply_update loads job c3
       = Ok (mkTestWorkflow (job_requested c3) (job_done c3) true
                            (power_requested c3) (job_dropped c3), true).
Proof.
  intros H. eexists. split; [reflexivity |].
  unfold do_job, apply_update. rewrite H. split; reflexivity.
Qed.

End Payload.

Section PayloadExamples.

Import NetworkTest.

Definition toy_dumps (o : pyobj) : string :=
  match o with
  | PyDict _ => "D"
  | _ => "L"
  end.

Lemma job_payload_round_trip_witness :
  exists job : string,
    request_job toy_dumps fresh
    = (mkTestWorkflow true false false false false, job)
    /\ do_job toy_loads job fresh
       = Ok (mkTestWorkflow false true false false false, job)
    /\ apply_update toy_loads job fresh
       = Ok (mkTestWorkflow false false true false false, true).
Proof.
  apply (job_payload_round_trip toy_loads toy_dumps fresh fresh fresh
           [(PyStr "objective", PyStr "win")]).
  reflexivity.
Defined.

End PayloadExamples.
